(** * Simple notes app: the data layer of the two front-end revisions

    The repository holds two revisions of [App.js].

    - [src/notes_frontend/src/App.js]: the backend is the authority, the
      browser's localStorage is a read-only fallback for listing; creating
      while the backend is unreachable is refused.  Embedded in
      [Module VariantB].
    - [src/unnamed/part_000]: every failure of an API call falls back to
      localStorage, notes can be created, edited and deleted locally.
      Embedded in [Module VariantA].

    JavaScript values are embedded as follows.  A string is a [string] (code
    units below 256).  A value produced by [JSON.parse] is a [JSON] tree; a
    number is kept as the text [String(n)] gives for it, which is the only way
    this program ever looks at a number.  [undefined] is [None] in an
    [option JSON].  Asynchronous functions run to completion one after the
    other, so they are computations in a state-and-exception monad over the
    [World]: the localStorage item, the log of [fetch] calls, and the
    behaviour of network, clock and random source. *)

From Stdlib Require Import String Ascii List Bool Arith ZArith Lia.
From Stdlib Require Import NArith DecimalString Permutation Sorted OrderedTypeEx.
Import ListNotations.
Open Scope string_scope.
Set Warnings "-register-all".

(** ** Exceptions *)

Inductive ErrorClass := TypeError | SyntaxError | PlainError.

Record JsError := mkError { err_class : ErrorClass; message : string }.

(** [err instanceof TypeError] *)
Definition instanceof_TypeError (err : JsError) : bool :=
  match err_class err with TypeError => true | _ => false end.

Inductive Outcome (A : Type) :=
| Return (a : A)
| Throw (e : JsError).
Arguments Return {A} a.
Arguments Throw {A} e.

Definition obind {A B} (o : Outcome A) (k : A -> Outcome B) : Outcome B :=
  match o with
  | Return a => k a
  | Throw e => Throw e
  end.

(** ** JSON values and the conversions the code applies to them *)

Inductive JSON :=
| JNull
| JBool (b : bool)
| JNum (repr : string)
| JStr (s : string)
| JArr (items : list JSON)
| JObj (fields : list (string * JSON)).

(** The fields of a parsed object have distinct keys; [lookup] reads the
    own property [k], [None] standing for [undefined]. *)
Fixpoint lookup (k : string) (fields : list (string * JSON)) : option JSON :=
  match fields with
  | [] => None
  | (k', v) :: rest => if String.eqb k k' then Some v else lookup k rest
  end.

Definition has_key (k : string) (fields : list (string * JSON)) : bool :=
  match lookup k fields with Some _ => true | None => false end.

Definition cannot_convert : JsError :=
  mkError TypeError "Cannot convert object to primitive value".

(** [String(v)] for a value of a parsed JSON text.  An array is joined with
    commas, [null] elements giving the empty text.  A plain object gives
    "[object Object]" unless it has an own property [toString]: that
    property, coming from JSON, is not callable, [Object.prototype.valueOf]
    gives back the object, and the conversion throws a [TypeError]. *)
Fixpoint ToString (v : JSON) : Outcome string :=
  match v with
  | JNull => Return "null"
  | JBool true => Return "true"
  | JBool false => Return "false"
  | JNum repr => Return repr
  | JStr s => Return s
  | JArr items =>
      (fix join (l : list JSON) : Outcome string :=
         match l with
         | [] => Return ""
         | x :: rest =>
             obind (match x with JNull => Return "" | _ => ToString x end)
               (fun a =>
                  match rest with
                  | [] => Return a
                  | _ :: _ => obind (join rest) (fun b => Return (a ++ "," ++ b))
                  end)
         end) items
  | JObj fields =>
      if has_key "toString" fields then Throw cannot_convert
      else Return "[object Object]"
  end.

(** [String(v)] where [v] may be [undefined]. *)
Definition ToStringV (v : option JSON) : Outcome string :=
  match v with
  | None => Return "undefined"
  | Some j => ToString j
  end.

(** [raw.k] for one of the note keys.  Only [null] refuses a property read;
    a number, a boolean, a string or an array has none of the keys the code
    asks for. *)
Definition get (raw : JSON) (k : string) : Outcome (option JSON) :=
  match raw with
  | JNull =>
      Throw (mkError TypeError
               ("Cannot read properties of null (reading '" ++ k ++ "')"))
  | JObj fields => Return (lookup k fields)
  | _ => Return None
  end.

(** [a ?? b] on values already computed. *)
Definition nullish (v : option JSON) : bool :=
  match v with
  | None | Some JNull => true
  | Some _ => false
  end.

Definition coalesce (a b : option JSON) : option JSON :=
  if nullish a then b else a.

Definition isArray (v : JSON) : bool :=
  match v with JArr _ => true | _ => false end.

(** ** Strings *)

Definition truthy (s : string) : bool := negb (String.eqb s "").

(** White space and line terminators removed by [trim], among the code
    units below 256: TAB, LF, VT, FF, CR, SP and NBSP. *)
Definition is_space (c : ascii) : bool :=
  let n := nat_of_ascii c in
  (((9 <=? n) && (n <=? 13)) || (n =? 32) || (n =? 160))%nat.

Fixpoint trimStart (s : string) : string :=
  match s with
  | String c rest => if is_space c then trimStart rest else s
  | EmptyString => EmptyString
  end.

Fixpoint trimEnd (s : string) : string :=
  match s with
  | String c rest =>
      match trimEnd rest with
      | EmptyString => if is_space c then EmptyString else String c EmptyString
      | t => String c t
      end
  | EmptyString => EmptyString
  end.

Definition trim (s : string) : string := trimEnd (trimStart s).

Definition startsWith (p s : string) : bool := String.prefix p s.

Fixpoint includes (needle s : string) : bool :=
  String.prefix needle s ||
  match s with
  | String _ rest => includes needle rest
  | EmptyString => false
  end.

(** [s.replace(/\/$/, "")]: one trailing slash is dropped. *)
Fixpoint dropTrailingSlash (s : string) : string :=
  match s with
  | EmptyString => EmptyString
  | String c EmptyString => if Ascii.eqb c "/" then EmptyString else s
  | String c rest => String c (dropTrailingSlash rest)
  end.

Definition hex_digit (n : nat) : ascii :=
  ascii_of_nat (if (n <? 10)%nat then 48 + n else 55 + n).

Definition percent (byte : nat) : string :=
  String "%" (String (hex_digit (byte / 16)) (String (hex_digit (byte mod 16)) "")).

Definition unreserved (c : ascii) : bool :=
  let n := nat_of_ascii c in
  (((48 <=? n) && (n <=? 57)) || ((65 <=? n) && (n <=? 90))
   || ((97 <=? n) && (n <=? 122)))%nat
  || existsb (Ascii.eqb c) (list_ascii_of_string "-_.!~*'()").

(** [encodeURIComponent]: every code unit but the unreserved ones is
    written as the escaped bytes of its UTF-8 encoding. *)
Fixpoint encodeURIComponent (s : string) : string :=
  match s with
  | EmptyString => EmptyString
  | String c rest =>
      let n := nat_of_ascii c in
      (if unreserved c then String c ""
       else if (n <? 128)%nat then percent n
       else percent (192 + n / 64) ++ percent (128 + n mod 64))
      ++ encodeURIComponent rest
  end.

(** Decimal text of a number in a template literal. *)
Definition decimal (n : nat) : string :=
  NilEmpty.string_of_uint (Nat.to_uint n).

(** ** The world: localStorage, network, clock *)

Definition LS_KEY : string := "simple-notes-app.notes.v1".

(** The text stored under [LS_KEY], seen through [JSON.parse]: either a text
    on which [JSON.parse] throws, or a text that parses to [v], such as
    [JSON.stringify(v)]. *)
Inductive StoredText :=
| Unparsable (text : string)
| JsonText (v : JSON).

Inductive Method := GET | POST | PATCH | PUT | DELETE.

Record Request := mkRequest {
  req_url : string;
  req_method : Method;
  req_headers : list (string * string);
  req_body : option JSON  (* the value whose JSON text is sent *)
}.

Record Response := mkResponse {
  res_status : nat;
  res_content_type : option string;  (* headers.get("content-type") *)
  res_text : string;                 (* res.text().catch(() => "") *)
  res_json : option JSON             (* what res.json() resolves to; None: not JSON *)
}.

Inductive FetchOutcome :=
| NetworkFailure            (* fetch rejects with a TypeError *)
| Responded (r : Response).

Record World := mkWorld {
  storage : option StoredText;     (* localStorage.getItem(LS_KEY) *)
  net_log : list Request;          (* fetch calls issued so far, oldest first *)
  ticks : nat;                     (* calls made to clock and random source *)
  remote : list Request -> Request -> FetchOutcome;
  now_iso : nat -> string;         (* new Date().toISOString() *)
  random_hex : nat -> string;      (* Math.random().toString(16).slice(2) *)
  date_now : nat -> N              (* Date.now() *)
}.

Definition set_storage (s : option StoredText) (w : World) : World :=
  mkWorld s (net_log w) (ticks w) (remote w) (now_iso w) (random_hex w) (date_now w).

Definition log_request (r : Request) (w : World) : World :=
  mkWorld (storage w) (net_log w ++ [r]) (ticks w) (remote w) (now_iso w)
    (random_hex w) (date_now w).

Definition tick (w : World) : World :=
  mkWorld (storage w) (net_log w) (S (ticks w)) (remote w) (now_iso w)
    (random_hex w) (date_now w).

(** ** Computations that read and change the world and may throw *)

Definition M (A : Type) : Type := World -> Outcome A * World.

Definition ret {A} (a : A) : M A := fun w => (Return a, w).

Definition throw {A} (e : JsError) : M A := fun w => (Throw e, w).

Definition lift {A} (o : Outcome A) : M A := fun w => (o, w).

Definition bind {A B} (m : M A) (k : A -> M B) : M B :=
  fun w =>
    match m w with
    | (Return a, w') => k a w'
    | (Throw e, w') => (Throw e, w')
    end.

Definition try_catch {A} (m : M A) (handler : JsError -> M A) : M A :=
  fun w =>
    match m w with
    | (Return a, w') => (Return a, w')
    | (Throw e, w') => handler e w'
    end.

Declare Scope js_scope.
Delimit Scope js_scope with js.
Notation "x <- m ;; k" := (bind m (fun x => k))
  (at level 61, m at next level, right associativity) : js_scope.
Notation "m ;;; k" := (bind m (fun _ => k))
  (at level 61, right associativity) : js_scope.
Open Scope js_scope.

Fixpoint mapM {A B} (f : A -> M B) (l : list A) : M (list B) :=
  match l with
  | [] => ret []
  | x :: rest => y <- f x ;; ys <- mapM f rest ;; ret (y :: ys)
  end.

Fixpoint omap {A B} (f : A -> Outcome B) (l : list A) : Outcome (list B) :=
  match l with
  | [] => Return []
  | x :: rest => obind (f x) (fun y => obind (omap f rest) (fun ys => Return (y :: ys)))
  end.

(** The storage is taken as always available: [getItem] gives what is
    stored and [setItem] stores what it is given.  Quota and security errors
    of the browser are outside the model. *)
Definition getItem : M (option StoredText) := fun w => (Return (storage w), w).

Definition setItem (s : StoredText) : M unit :=
  fun w => (Return tt, set_storage (Some s) w).

(** [!raw] for the result of [getItem]: absent, or the empty text. *)
Definition no_text (raw : option StoredText) : bool :=
  match raw with
  | None => true
  | Some (Unparsable text) => negb (truthy text)
  | Some (JsonText _) => false
  end.

(** [JSON.parse(raw)]; [JSON.parse(null)] reads the text "null". *)
Definition JSON_parse (raw : option StoredText) : Outcome JSON :=
  match raw with
  | None => Return JNull
  | Some (Unparsable _) => Throw (mkError SyntaxError "Unexpected token in JSON")
  | Some (JsonText v) => Return v
  end.

Definition fetch (url : string) (method : Method)
    (headers : list (string * string)) (body : option JSON) : M Response :=
  fun w =>
    let req := mkRequest url method headers body in
    match remote w (net_log w) req with
    | NetworkFailure => (Throw (mkError TypeError "Failed to fetch"), log_request req w)
    | Responded r => (Return r, log_request req w)
    end.

Definition ok (r : Response) : bool :=
  ((200 <=? res_status r) && (res_status r <=? 299))%nat.

Definition json (r : Response) : M JSON :=
  match res_json r with
  | Some v => ret v
  | None => throw (mkError SyntaxError "Unexpected token in JSON")
  end.

(** [v || otherwise] for a text that may be [undefined]. *)
Definition or_else (v : option string) (otherwise : string) : string :=
  match v with
  | Some s => if truthy s then s else otherwise
  | None => otherwise
  end.

(** [process.env.X || ""] *)
Definition or_empty (v : option string) : string := or_else v "".

(** The object [{ title, content }] of the editor, which is also what a
    create or an update sends. *)
Record Draft := mkDraft { draft_title : string; draft_content : string }.

(** ** Relative dates (the same function in both revisions) *)

(** [Math.round(a / b)] for integers [a] and [b > 0] below 2^53 in size,
    where the quotient of the doubles rounds as the exact quotient does:
    to the nearest integer, a tie going up. *)
Definition Math_round_div (a b : Z) : Z := ((2 * a + b) / (2 * b))%Z.

(** The text "—" (U+2014), held as the bytes of its UTF-8 encoding. *)
Definition em_dash : string :=
  String (ascii_of_nat 226) (String (ascii_of_nat 128) (String (ascii_of_nat 148) "")).

(** An integer in a template literal. *)
Definition decimalZ (z : Z) : string := NilEmpty.string_of_int (Z.to_int z).

(** [formatRelativeDate(iso)], given what it reads: [now] is [Date.now()]
    and [time] is [new Date(iso).getTime()], [None] standing for [NaN].
    Both are counts of milliseconds. *)
Definition formatRelativeDate (now : Z) (time : option Z) : string :=
  match time with
  | None => em_dash
  | Some t =>
      let diffMs := (now - t)%Z in
      let min := Math_round_div diffMs 60000 in
      if (min <? 1)%Z then "just now"
      else if (min <? 60)%Z then decimalZ min ++ "m ago"
      else
        let hr := Math_round_div min 60 in
        if (hr <? 24)%Z then decimalZ hr ++ "h ago"
        else
          let days := Math_round_div hr 24 in
          decimalZ days ++ "d ago"
  end.

(** * Variant B: [src/notes_frontend/src/App.js] *)

Module VariantB.

Record Note := mkNote {
  id : string;
  title : string;
  content : string;
  createdAt : string
}.

(** The value [JSON.stringify] writes for a note. *)
Definition note_to_json (n : Note) : JSON :=
  JObj [("id", JStr (id n)); ("title", JStr (title n));
        ("content", JStr (content n)); ("createdAt", JStr (createdAt n))].

Definition notes_to_json (ns : list Note) : JSON := JArr (map note_to_json ns).

Record Config := mkConfig { notesUrl : string; apiConfigured : bool }.

(** The [useMemo] block of [App]. *)
Definition App_config (REACT_APP_BACKEND_URL REACT_APP_API_BASE : option string)
    : Config :=
  let backend := dropTrailingSlash (or_empty REACT_APP_BACKEND_URL) in
  let apiBase := or_empty REACT_APP_API_BASE in
  let basePath :=
    if truthy apiBase
    then (if startsWith "/" apiBase then apiBase else "/" ++ apiBase)
    else "" in
  let configured := truthy backend && truthy basePath in
  mkConfig (if configured then backend ++ basePath ++ "/notes" else "") configured.

Definition normalizeNote (raw : JSON) : Outcome Note :=
  obind (get raw "id") (fun raw_id =>
  obind (ToStringV raw_id) (fun id_ =>
  obind (get raw "title") (fun raw_title =>
  obind (ToStringV (coalesce raw_title (Some (JStr "")))) (fun title_ =>
  obind (get raw "content") (fun raw_content =>
  obind (ToStringV (coalesce raw_content (Some (JStr "")))) (fun content_ =>
  obind (get raw "created_at") (fun created_at =>
  obind (get raw "createdAt") (fun createdAt_ =>
  obind (ToStringV (coalesce created_at (coalesce createdAt_ (Some (JStr "")))))
    (fun created =>
  Return (mkNote id_ title_ content_ created)))))))))).

(** The arrow function mapped over the parsed cache. *)
Definition readEntry (n : JSON) : Outcome Note :=
  obind (get n "id") (fun raw_id =>
  obind (ToStringV raw_id) (fun id_ =>
  obind (get n "title") (fun raw_title =>
  obind (ToStringV (coalesce raw_title (Some (JStr "")))) (fun title_ =>
  obind (get n "content") (fun raw_content =>
  obind (ToStringV (coalesce raw_content (Some (JStr "")))) (fun content_ =>
  obind (get n "createdAt") (fun createdAt_ =>
  obind (get n "created_at") (fun created_at =>
  obind (get n "updatedAt") (fun updatedAt =>
  obind (ToStringV (coalesce createdAt_ (coalesce created_at
                      (coalesce updatedAt (Some (JStr ""))))))
    (fun created =>
  Return (mkNote id_ title_ content_ created))))))))))).

Definition loadLocalNotesReadOnly : M (list Note) :=
  try_catch
    (raw <- getItem ;;
     if no_text raw then ret []
     else
       parsed <- lift (JSON_parse raw) ;;
       match parsed with
       | JArr items =>
           mapped <- lift (omap readEntry items) ;;
           ret (filter (fun n => truthy (id n)) mapped)
       | _ => ret []
       end)
    (fun _ => ret []).

(** The storage cell accepts every write, so the handler of
    [saveLocalNotesCache] has nothing to catch. *)
Definition saveLocalNotesCache (notes : list Note) : M unit :=
  try_catch (setItem (JsonText (notes_to_json notes))) (fun _ => ret tt).

Definition isNetworkUnreachableError (err : JsError) : bool :=
  instanceof_TypeError err.

Definition listNotesFromBackend (notesUrl : string) : M (list Note) :=
  res <- fetch notesUrl GET [] None ;;
  if negb (ok res) then
    let text := res_text res in
    throw (mkError PlainError
             ("Failed to load notes (" ++ decimal (res_status res) ++ ")"
              ++ (if truthy text then ": " ++ text else "")))
  else
    json_ <- json res ;;
    match json_ with
    | JArr items => lift (omap normalizeNote items)
    | _ => ret []
    end.

Definition createNoteOnBackend (notesUrl : string) (note : Draft) : M Note :=
  res <- fetch notesUrl POST [("content-type", "application/json")]
           (Some (JObj [("title", JStr (draft_title note));
                        ("content", JStr (draft_content note))])) ;;
  if negb (ok res) then
    let text := res_text res in
    throw (mkError PlainError
             ("Failed to create note (" ++ decimal (res_status res) ++ ")"
              ++ (if truthy text then ": " ++ text else "")))
  else
    json_ <- json res ;;
    lift (normalizeNote json_).

Record Loaded := mkLoaded { notes : list Note; usingFallback : bool }.

Definition loadNotesFromApiOrFallback (notesUrl : string) : M Loaded :=
  if negb (truthy notesUrl) then
    local <- loadLocalNotesReadOnly ;; ret (mkLoaded local true)
  else
    try_catch
      (backendNotes <- listNotesFromBackend notesUrl ;;
       saveLocalNotesCache backendNotes ;;;
       ret (mkLoaded backendNotes false))
      (fun err =>
         if isNetworkUnreachableError err then
           local <- loadLocalNotesReadOnly ;; ret (mkLoaded local true)
         else throw err).

Definition offline_error : JsError :=
  mkError PlainError "Backend is unreachable. Cannot create notes while offline.".

Definition createNoteViaApi (notesUrl : string) (note : Draft) : M Note :=
  if negb (truthy notesUrl) then
    throw (mkError PlainError "Backend API is not configured.")
  else
    try_catch
      (created <- createNoteOnBackend notesUrl note ;;
       existing <- loadLocalNotesReadOnly ;;
       let next :=
         created :: filter (fun n => negb (String.eqb (id n) (id created))) existing in
       saveLocalNotesCache next ;;;
       ret created)
      (fun err =>
         if isNetworkUnreachableError err then throw offline_error
         else throw err).

(** ** The component state and its handlers *)

Record Status := mkStatus {
  loading : bool;
  error : string;
  status_usingFallback : bool
}.

Record AppState := mkApp {
  app_notes : list Note;
  status : Status;
  isEditorOpen : bool;
  editingId : option string;
  draft : Draft;
  confirmDeleteId : option string
}.

Definition set_error (msg : string) (s : AppState) : AppState :=
  mkApp (app_notes s)
    (mkStatus (loading (status s)) msg (status_usingFallback (status s)))
    (isEditorOpen s) (editingId s) (draft s) (confirmDeleteId s).

(** The fields of a draft are texts, so [nextDraft.title || ""] is the
    title itself. *)
Definition validateDraft (nextDraft : Draft) : string :=
  let title := trim (draft_title nextDraft) in
  let content := trim (draft_content nextDraft) in
  if negb (truthy title) && negb (truthy content) then
    "Please add a title or some content."
  else if (120 <? String.length title)%nat then
    "Title is too long (max 120 characters)."
  else "".

Definition editing_unsupported : string :=
  "Editing notes is not supported by the current backend API (GET/POST only).".

(** [if (editingId)]: an id that is set and not the empty text. *)
Definition is_editing (editingId : option string) : bool :=
  match editingId with
  | Some i => truthy i
  | None => false
  end.

(** The state once the promise of [handleSave] has settled. *)
Definition handleSave (cfg : Config) (s : AppState) (w : World)
    : AppState * World :=
  let validationError := validateDraft (draft s) in
  if truthy validationError then (set_error validationError s, w)
  else if is_editing (editingId s) then (set_error editing_unsupported s, w)
  else
    match createNoteViaApi (notesUrl cfg)
            (mkDraft (draft_title (draft s)) (draft_content (draft s))) w with
    | (Return created, w') =>
        (mkApp (created :: app_notes s) (mkStatus false "" false)
           false None (mkDraft "" "") (confirmDeleteId s), w')
    | (Throw e2, w') =>
        (mkApp (app_notes s)
           (mkStatus false (message e2) (status_usingFallback (status s)))
           (isEditorOpen s) (editingId s) (draft s) (confirmDeleteId s), w')
    end.

(** The state once the effect that loads the notes has settled. *)
Definition load (cfg : Config) (s : AppState) (w : World) : AppState * World :=
  match loadNotesFromApiOrFallback (notesUrl cfg) w with
  | (Return loaded, w') =>
      (mkApp (notes loaded) (mkStatus false "" (usingFallback loaded))
         (isEditorOpen s) (editingId s) (draft s) (confirmDeleteId s), w')
  | (Throw e, w') =>
      (mkApp [] (mkStatus false (message e) false)
         (isEditorOpen s) (editingId s) (draft s) (confirmDeleteId s), w')
  end.

(** ** The handlers that only set state *)

Definition setDraft (d : Draft) (s : AppState) : AppState :=
  mkApp (app_notes s) (status s) (isEditorOpen s) (editingId s) d
    (confirmDeleteId s).

Definition setConfirmDeleteId (i : option string) (s : AppState) : AppState :=
  mkApp (app_notes s) (status s) (isEditorOpen s) (editingId s) (draft s) i.

Definition openNewNote (s : AppState) : AppState :=
  mkApp (app_notes s) (status s) true None (mkDraft "" "") (confirmDeleteId s).

(** The title and content of a note are texts, so [note.title ?? ""] is the
    title itself. *)
Definition openEdit (cfg : Config) (note : Note) (s : AppState) : AppState :=
  if apiConfigured cfg then set_error editing_unsupported s
  else
    mkApp (app_notes s) (status s) true (Some (id note))
      (mkDraft (title note) (content note)) (confirmDeleteId s).

Definition closeEditor (s : AppState) : AppState :=
  mkApp (app_notes s) (status s) false None (mkDraft "" "") (confirmDeleteId s).

Definition deleting_unsupported : string :=
  "Deleting notes is not supported by the current backend API (GET/POST only).".

Definition handleDeleteConfirmed (s : AppState) : AppState :=
  setConfirmDeleteId None (set_error deleting_unsupported s).

End VariantB.

(** * Variant A: [src/unnamed/part_000] *)

Module VariantA.

Record Note := mkNote {
  id : string;
  title : string;
  content : string;
  updatedAt : string;
  createdAt : string
}.

Definition note_to_json (n : Note) : JSON :=
  JObj [("id", JStr (id n)); ("title", JStr (title n));
        ("content", JStr (content n)); ("updatedAt", JStr (updatedAt n));
        ("createdAt", JStr (createdAt n))].

Definition notes_to_json (ns : list Note) : JSON := JArr (map note_to_json ns).

(** The [useMemo] block of [App]. *)
Definition App_apiBase (REACT_APP_API_BASE REACT_APP_BACKEND_URL : option string)
    : string :=
  let base := or_else REACT_APP_API_BASE (or_else REACT_APP_BACKEND_URL "") in
  dropTrailingSlash (or_empty (Some base)).

(** The comparator [(a, b) => (a.updatedAt < b.updatedAt ? 1 : -1)]. *)
Definition by_recency (a b : Note) : Z :=
  if String.ltb (updatedAt a) (updatedAt b) then 1%Z else (-1)%Z.

(** [Array.prototype.sort].  The comparator above never answers 0, so it is
    not a consistent comparator and ECMAScript leaves the order of the result
    to the engine; the embedding takes the sort of the engine as given. *)
Class ArraySort := { sort : (Note -> Note -> Z) -> list Note -> list Note }.

(** What every engine does with [by_recency]: the result holds the same
    notes, and no note comes before a more recent one. *)
Definition most_recent_first (l : list Note) : Prop :=
  StronglySorted (fun a b => String.ltb (updatedAt a) (updatedAt b) = false) l.

Definition sorts_by_recency (E : ArraySort) : Prop :=
  forall l, Permutation (sort by_recency l) l /\ most_recent_first (sort by_recency l).

(** V8 (arrays under 64 elements: one run, reversed when it starts with a
    negative comparison, then binary insertion): each element goes before
    the first one it compares negative with.  With [by_recency] that is
    before the first note that is not more recent, so notes with equal
    [updatedAt] come out in reverse order. *)
Fixpoint insert_before (c : Note -> Note -> Z) (x : Note) (l : list Note)
    : list Note :=
  match l with
  | [] => [x]
  | y :: rest => if (c x y <? 0)%Z then x :: l else y :: insert_before c x rest
  end.

Definition v8_sort (c : Note -> Note -> Z) (l : list Note) : list Note :=
  fold_left (fun sorted x => insert_before c x sorted) l [].

Definition v8 : ArraySort := {| sort := v8_sort |}.

(** An engine whose insertion step puts each element before the first one
    that compares positive with it, hence after the elements it ties with:
    notes with equal [updatedAt] keep their order. *)
Fixpoint insert_after (c : Note -> Note -> Z) (x : Note) (l : list Note)
    : list Note :=
  match l with
  | [] => [x]
  | y :: rest => if (0 <? c y x)%Z then x :: l else y :: insert_after c x rest
  end.

Definition stable_sort (c : Note -> Note -> Z) (l : list Note) : list Note :=
  fold_left (fun sorted x => insert_after c x sorted) l [].

Definition stable : ArraySort := {| sort := stable_sort |}.

Section DataLayer.
Context {E : ArraySort}.

Definition Math_random_hex : M string :=
  fun w => (Return (random_hex w (ticks w)), tick w).

Definition Date_now : M N :=
  fun w => (Return (date_now w (ticks w)), tick w).

Definition generateId : M string :=
  r <- Math_random_hex ;;
  t <- Date_now ;;
  ret ("note_" ++ r ++ "_" ++ NilEmpty.string_of_uint (N.to_uint t)).

Definition nowIso : M string :=
  fun w => (Return (now_iso w (ticks w)), tick w).

(** [raw.k1 ?? raw.k2 ?? nowIso()] *)
Definition stamp (raw : JSON) (k1 k2 : string) : M (option JSON) :=
  v1 <- lift (get raw k1) ;;
  if nullish v1 then
    v2 <- lift (get raw k2) ;;
    if nullish v2 then t <- nowIso ;; ret (Some (JStr t)) else ret v2
  else ret v1.

Definition normalizeNote (raw : JSON) : M Note :=
  raw_id <- lift (get raw "id") ;;
  id_ <- lift (ToStringV raw_id) ;;
  raw_title <- lift (get raw "title") ;;
  title_ <- lift (ToStringV (coalesce raw_title (Some (JStr "")))) ;;
  raw_content <- lift (get raw "content") ;;
  content_ <- lift (ToStringV (coalesce raw_content (Some (JStr "")))) ;;
  raw_updated <- stamp raw "updatedAt" "updated_at" ;;
  updated <- lift (ToStringV raw_updated) ;;
  raw_created <- stamp raw "createdAt" "created_at" ;;
  created <- lift (ToStringV raw_created) ;;
  ret (mkNote id_ title_ content_ updated created).

Definition loadLocalNotes : M (list Note) :=
  raw <- getItem ;;
  if no_text raw then ret []
  else
    parsed <- lift (JSON_parse raw) ;;
    match parsed with
    | JArr items =>
        normalized <- mapM normalizeNote items ;;
        ret (sort by_recency normalized)
    | _ => ret []
    end.

Definition saveLocalNotes (nextNotes : list Note) : M unit :=
  setItem (JsonText (notes_to_json nextNotes)).

(** Resolves to the parsed body, or to [null] on status 204. *)
Definition tryApiFetch (url : string) (method : Method)
    (headers : list (string * string)) (body : option JSON) : M JSON :=
  res <- fetch url method headers body ;;
  if negb (ok res) then
    let text := res_text res in
    throw (mkError PlainError
             (trim ("API error (" ++ decimal (res_status res) ++ ")"
                    ++ (if truthy text then ": " ++ text else ""))))
  else if (res_status res =? 204)%nat then ret JNull
  else
    let ct := or_empty (res_content_type res) in
    if negb (includes "application/json" ct) then
      let text := res_text res in
      throw (mkError PlainError
               ("API returned non-JSON response."
                ++ (if truthy text then " " ++ text else "")))
    else json res.

Definition draft_to_json (note : Draft) : JSON :=
  JObj [("title", JStr (draft_title note)); ("content", JStr (draft_content note))].

Definition json_headers : list (string * string) :=
  [("content-type", "application/json")].

Definition apiListNotes (apiBase : string) : M JSON :=
  tryApiFetch (apiBase ++ "/notes") GET [] None.

Definition apiCreateNote (apiBase : string) (note : Draft) : M JSON :=
  tryApiFetch (apiBase ++ "/notes") POST json_headers (Some (draft_to_json note)).

Definition apiUpdateNote (apiBase id : string) (patch : Draft) : M JSON :=
  try_catch
    (tryApiFetch (apiBase ++ "/notes/" ++ encodeURIComponent id) PATCH
       json_headers (Some (draft_to_json patch)))
    (fun _ =>
       tryApiFetch (apiBase ++ "/notes/" ++ encodeURIComponent id) PUT
         json_headers (Some (draft_to_json patch))).

Definition apiDeleteNote (apiBase id : string) : M JSON :=
  tryApiFetch (apiBase ++ "/notes/" ++ encodeURIComponent id) DELETE [] None.

Definition loadNotes (apiBase : string) : M (list Note) :=
  if truthy apiBase then
    try_catch
      (apiNotes <- apiListNotes apiBase ;;
       normalized <- match apiNotes with
                     | JArr items => mapM normalizeNote items
                     | _ => ret []
                     end ;;
       saveLocalNotes normalized ;;;
       ret (sort by_recency normalized))
      (fun _ => loadLocalNotes)
  else loadLocalNotes.

(** A [try] block that returns from the function when it completes and
    whose empty [catch] lets the function go on. *)
Definition attempt {A} (enabled : bool) (block : M A) : M (option A) :=
  if enabled then try_catch (a <- block ;; ret (Some a)) (fun _ => ret None)
  else ret None.

Definition createNote (apiBase : string) (note : Draft) : M Note :=
  viaApi <- attempt (truthy apiBase)
    (created <- apiCreateNote apiBase note ;;
     normalized <- normalizeNote created ;;
     existing <- loadLocalNotes ;;
     let next :=
       normalized
       :: filter (fun n => negb (String.eqb (id n) (id normalized))) existing in
     saveLocalNotes next ;;;
     ret normalized) ;;
  match viaApi with
  | Some normalized => ret normalized
  | None =>
      id_ <- generateId ;;
      created <- nowIso ;;
      updated <- nowIso ;;
      newNote <- normalizeNote
                   (JObj [("id", JStr id_); ("title", JStr (draft_title note));
                          ("content", JStr (draft_content note));
                          ("createdAt", JStr created); ("updatedAt", JStr updated)]) ;;
      existing <- loadLocalNotes ;;
      let next := newNote :: existing in
      saveLocalNotes next ;;;
      ret newNote
  end.

Definition replace_note (id_ : string) (by_ : Note) (l : list Note) : list Note :=
  map (fun n => if String.eqb (id n) id_ then by_ else n) l.

Definition updateNote (apiBase id_ : string) (patch : Draft) : M Note :=
  viaApi <- attempt (truthy apiBase)
    (updated <- apiUpdateNote apiBase id_ patch ;;
     normalized <- normalizeNote updated ;;
     existing <- loadLocalNotes ;;
     let next := replace_note id_ normalized existing in
     saveLocalNotes next ;;;
     ret normalized) ;;
  match viaApi with
  | Some normalized => ret normalized
  | None =>
      existing <- loadLocalNotes ;;
      match find (fun n => String.eqb (id n) id_) existing with
      | None => throw (mkError PlainError "Note not found.")
      | Some found =>
          now <- nowIso ;;
          updatedLocal <- normalizeNote
                            (JObj [("id", JStr (id found));
                                   ("title", JStr (draft_title patch));
                                   ("content", JStr (draft_content patch));
                                   ("updatedAt", JStr now);
                                   ("createdAt", JStr (createdAt found))]) ;;
          let next := replace_note id_ updatedLocal existing in
          saveLocalNotes next ;;;
          ret updatedLocal
      end
  end.

Definition deleteNote (apiBase id_ : string) : M unit :=
  viaApi <- attempt (truthy apiBase)
    (apiDeleteNote apiBase id_ ;;;
     existing <- loadLocalNotes ;;
     let next := filter (fun n => negb (String.eqb (id n) id_)) existing in
     saveLocalNotes next) ;;
  match viaApi with
  | Some _ => ret tt
  | None =>
      existing <- loadLocalNotes ;;
      let next := filter (fun n => negb (String.eqb (id n) id_)) existing in
      saveLocalNotes next
  end.

(** ** The component state and its handlers *)

Record Status := mkStatus { loading : bool; error : string }.

Record AppState := mkApp {
  notes : list Note;
  status : Status;
  isEditorOpen : bool;
  editingId : option string;
  draft : Draft;
  confirmDeleteId : option string
}.

Definition set_error (msg : string) (s : AppState) : AppState :=
  mkApp (notes s) (mkStatus (loading (status s)) msg)
    (isEditorOpen s) (editingId s) (draft s) (confirmDeleteId s).

Definition validateDraft (nextDraft : Draft) : string :=
  let title := trim (draft_title nextDraft) in
  let content := trim (draft_content nextDraft) in
  if negb (truthy title) && negb (truthy content) then
    "Please add a title or some content."
  else if (120 <? String.length title)%nat then
    "Title is too long (max 120 characters)."
  else "".

(** The state once the promise of [handleSave] has settled. *)
Definition handleSave (apiBase : string) (s : AppState) (w : World)
    : AppState * World :=
  let validationError := validateDraft (draft s) in
  if truthy validationError then (set_error validationError s, w)
  else
    let patch := mkDraft (draft_title (draft s)) (draft_content (draft s)) in
    let saved :=
      match editingId s with
      | Some editing =>
          if truthy editing then
            updated <- updateNote apiBase editing patch ;;
            ret (replace_note (id updated) updated (notes s))
          else
            created <- createNote apiBase patch ;; ret (created :: notes s)
      | None =>
          created <- createNote apiBase patch ;; ret (created :: notes s)
      end in
    match saved w with
    | (Return notes', w') =>
        (mkApp notes' (mkStatus false "") false None (mkDraft "" "")
           (confirmDeleteId s), w')
    | (Throw e2, w') =>
        (mkApp (notes s) (mkStatus false (message e2))
           (isEditorOpen s) (editingId s) (draft s) (confirmDeleteId s), w')
    end.

Definition handleDeleteConfirmed (apiBase id_ : string) (s : AppState) (w : World)
    : AppState * World :=
  match deleteNote apiBase id_ w with
  | (Return _, w') =>
      (mkApp (filter (fun n => negb (String.eqb (id n) id_)) (notes s))
         (mkStatus false "") (isEditorOpen s) (editingId s) (draft s) None, w')
  | (Throw e, w') =>
      (mkApp (notes s) (mkStatus false (message e))
         (isEditorOpen s) (editingId s) (draft s) (confirmDeleteId s), w')
  end.

(** The state once the effect that loads the notes has settled. *)
Definition load (apiBase : string) (s : AppState) (w : World) : AppState * World :=
  match loadNotes apiBase w with
  | (Return loaded, w') =>
      (mkApp loaded (mkStatus false "")
         (isEditorOpen s) (editingId s) (draft s) (confirmDeleteId s), w')
  | (Throw e, w') =>
      (mkApp [] (mkStatus false (message e))
         (isEditorOpen s) (editingId s) (draft s) (confirmDeleteId s), w')
  end.

End DataLayer.

End VariantA.

(** * Vocabulary of the statements *)

(** The request [fetch(url, { method: "GET" })]. *)
Definition get_request (url : string) : Request := mkRequest url GET [] None.

(** The request a create sends: the same in both variants. *)
Definition post_request (url title content : string) : Request :=
  mkRequest url POST [("content-type", "application/json")]
    (Some (JObj [("title", JStr title); ("content", JStr content)])).

(** The network does not carry [req] in world [w]. *)
Definition unreachable (req : Request) (w : World) : Prop :=
  remote w (net_log w) req = NetworkFailure.

(** The server answers [req] with [r] in world [w]. *)
Definition answers (req : Request) (r : Response) (w : World) : Prop :=
  remote w (net_log w) req = Responded r.

Definition encoded_B (ns : list VariantB.Note) : option StoredText :=
  Some (JsonText (VariantB.notes_to_json ns)).

Definition encoded_A (ns : list VariantA.Note) : option StoredText :=
  Some (JsonText (VariantA.notes_to_json ns)).

(** Notes of variant B ordered by recency: no note before a more recent one. *)
Definition most_recent_first_B (l : list VariantB.Note) : Prop :=
  StronglySorted
    (fun a b => String.ltb (VariantB.createdAt a) (VariantB.createdAt b) = false) l.

(** What the fallback of variant B shows for the cache of [w]. *)
Definition cached_B (w : World) : list VariantB.Note :=
  match fst (VariantB.loadLocalNotesReadOnly w) with
  | Return ns => ns
  | Throw _ => []
  end.

Definition blank (d : Draft) : Prop :=
  trim (draft_title d) = "" /\ trim (draft_content d) = "".

Definition title_too_long (d : Draft) : Prop :=
  120 < String.length (trim (draft_title d)).

Definition set_ticks (n : nat) (w : World) : World :=
  mkWorld (storage w) (net_log w) n (remote w) (now_iso w) (random_hex w) (date_now w).

(** A computation that changes nothing but the count of clock readings. *)
Definition clock_only {A} (m : M A) : Prop :=
  forall w, exists n, snd (m w) = set_ticks n w.

(** A computation that does not look at the log of requests. *)
Definition log_blind {A} (m : M A) : Prop :=
  forall r w, m (log_request r w) = (fst (m w), log_request r (snd (m w))).

(** A computation that issues no [fetch]. *)
Definition sends_nothing {A} (m : M A) : Prop :=
  forall w, net_log (snd (m w)) = net_log w.

(** The record [createNote] of variant A makes up when it creates locally,
    in a world where so far [ticks w] readings of clock and random source were
    made: the id from [Math.random] and [Date.now], then [createdAt] and
    [updatedAt] from two readings of the clock. *)
Definition local_record (note : Draft) (w : World) : VariantA.Note :=
  VariantA.mkNote
    ("note_" ++ random_hex w (ticks w) ++ "_"
     ++ NilEmpty.string_of_uint (N.to_uint (date_now w (S (ticks w)))))
    (draft_title note) (draft_content note)
    (now_iso w (S (S (S (ticks w))))) (now_iso w (S (S (ticks w)))).

(** A note object as the data model has it: an object all of whose fields
    are texts. *)
Definition is_text (v : JSON) : bool :=
  match v with JStr _ => true | _ => false end.

Definition note_object (j : JSON) : bool :=
  match j with
  | JObj fields => forallb (fun kv => is_text (snd kv)) fields
  | _ => false
  end.

(** The states of the cache the data model knows: no item, the empty text,
    or a JSON array of note objects. *)
Definition holds_note_objects (cache : option StoredText) : Prop :=
  match cache with
  | None => True
  | Some (Unparsable text) => text = ""
  | Some (JsonText (JArr items)) => forallb note_object items = true
  | Some (JsonText _) => False
  end.

(** A property read that gave a text or [undefined]. *)
Definition text_or_absent (v : option JSON) : Prop :=
  match v with
  | None | Some (JStr _) => True
  | Some _ => False
  end.

(** ** Sample worlds *)

Definition sample_clock (n : nat) : string :=
  nth n ["2024-05-01T10:00:00.000Z"; "2024-05-01T10:00:00.001Z";
         "2024-05-01T10:00:00.002Z"; "2024-05-01T10:00:00.003Z"]
    "2024-05-01T10:00:01.000Z".

Definition sample_world (cache : option StoredText)
    (net : list Request -> Request -> FetchOutcome) : World :=
  mkWorld cache [] 0 net sample_clock (fun _ => "9f3c2a")
    (fun _ => 1714557600000%N).

Definition network_down : list Request -> Request -> FetchOutcome :=
  fun _ _ => NetworkFailure.

Definition server (status : nat) (text : string) (body : option JSON)
    : list Request -> Request -> FetchOutcome :=
  fun _ _ => Responded (mkResponse status (Some "application/json") text body).

Definition padded_title : string :=
  String "a" (string_of_list_ascii (repeat " "%char 129)).

Definition groceries_json : JSON :=
  JObj [("id", JStr "1"); ("title", JStr "Groceries"); ("content", JStr "milk");
        ("updatedAt", JStr "2024-04-01T08:00:00.000Z");
        ("createdAt", JStr "2024-04-01T08:00:00.000Z")].

Definition taxes_json : JSON :=
  JObj [("id", JStr "2"); ("title", JStr "Taxes"); ("content", JStr "due");
        ("updatedAt", JStr "2024-04-20T08:00:00.000Z");
        ("createdAt", JStr "2024-04-20T08:00:00.000Z")].

Definition groceries_B : VariantB.Note :=
  VariantB.mkNote "1" "Groceries" "milk" "2024-04-01T08:00:00.000Z".

Definition taxes_B : VariantB.Note :=
  VariantB.mkNote "2" "Taxes" "due" "2024-04-20T08:00:00.000Z".

Definition groceries_A : VariantA.Note :=
  VariantA.mkNote "1" "Groceries" "milk" "2024-04-01T08:00:00.000Z"
    "2024-04-01T08:00:00.000Z".

Definition taxes_A : VariantA.Note :=
  VariantA.mkNote "2" "Taxes" "due" "2024-04-20T08:00:00.000Z"
    "2024-04-20T08:00:00.000Z".

(** ** Further vocabulary *)

(** The requests of an update and of a delete in variant A. *)
Definition patch_request (apiBase id_ : string) (patch : Draft) : Request :=
  mkRequest (apiBase ++ "/notes/" ++ encodeURIComponent id_) PATCH
    [("content-type", "application/json")]
    (Some (JObj [("title", JStr (draft_title patch));
                 ("content", JStr (draft_content patch))])).

Definition put_request (apiBase id_ : string) (patch : Draft) : Request :=
  mkRequest (apiBase ++ "/notes/" ++ encodeURIComponent id_) PUT
    [("content-type", "application/json")]
    (Some (JObj [("title", JStr (draft_title patch));
                 ("content", JStr (draft_content patch))])).

Definition delete_request (apiBase id_ : string) : Request :=
  mkRequest (apiBase ++ "/notes/" ++ encodeURIComponent id_) DELETE [] None.

(** The note [updateNote] of variant A writes when it updates [found]
    locally in world [w]: title and content of the patch, [updatedAt] from
    the clock, id and [createdAt] kept. *)
Definition updated_locally (found : VariantA.Note) (patch : Draft) (w : World)
    : VariantA.Note :=
  VariantA.mkNote (VariantA.id found) (draft_title patch) (draft_content patch)
    (now_iso w (ticks w)) (VariantA.createdAt found).

(** A note that the cache reader of variant B keeps. *)
Definition has_id (n : VariantB.Note) : bool := truthy (VariantB.id n).

(** The validation passes a draft. *)
Definition acceptable (d : Draft) : Prop :=
  ~ blank d /\ String.length (trim (draft_title d)) <= 120.

(** The events of the page of variant B: its buttons, the two fields of the
    editor, the form, and the effect that loads the notes. *)
Inductive EventB :=
| ClickNewNote
| ClickEdit (note : VariantB.Note)
| ClickClose
| TypeTitle (text : string)
| TypeContent (text : string)
| SubmitForm
| ClickDelete (note : VariantB.Note)
| CancelDelete
| ConfirmDelete
| LoadNotes.

(** The handler the page binds to each event, run until its promise has
    settled. *)
Definition dispatch_B (cfg : VariantB.Config) (ev : EventB)
    (sw : VariantB.AppState * World) : VariantB.AppState * World :=
  let (s, w) := sw in
  match ev with
  | ClickNewNote => (VariantB.openNewNote s, w)
  | ClickEdit note => (VariantB.openEdit cfg note s, w)
  | ClickClose => (VariantB.closeEditor s, w)
  | TypeTitle text =>
      (VariantB.setDraft (mkDraft text (draft_content (VariantB.draft s))) s, w)
  | TypeContent text =>
      (VariantB.setDraft (mkDraft (draft_title (VariantB.draft s)) text) s, w)
  | SubmitForm => VariantB.handleSave cfg s w
  | ClickDelete note =>
      (VariantB.setConfirmDeleteId (Some (VariantB.id note)) s, w)
  | CancelDelete => (VariantB.setConfirmDeleteId None s, w)
  | ConfirmDelete => (VariantB.handleDeleteConfirmed s, w)
  | LoadNotes => VariantB.load cfg s w
  end.

(** Events handled one after the other. *)
Definition events_B (cfg : VariantB.Config) (evs : list EventB)
    (sw : VariantB.AppState * World) : VariantB.AppState * World :=
  fold_left (fun sw ev => dispatch_B cfg ev sw) evs sw.

(** * Laws of the computations *)

Section MonadLaws.
Context {A B : Type}.
Implicit Types (m : M A) (k : A -> M B) (w : World).

Lemma bind_Return m k w a w' :
  m w = (Return a, w') -> bind m k w = k a w'.
Proof. intros H. unfold bind. now rewrite H. Qed.

Lemma bind_Throw m k w e w' :
  m w = (Throw e, w') -> bind m k w = (Throw e, w').
Proof. intros H. unfold bind. now rewrite H. Qed.

Lemma try_catch_Return m (h : JsError -> M A) w a w' :
  m w = (Return a, w') -> try_catch m h w = (Return a, w').
Proof. intros H. unfold try_catch. now rewrite H. Qed.

Lemma try_catch_Throw m (h : JsError -> M A) w e w' :
  m w = (Throw e, w') -> try_catch m h w = h e w'.
Proof. intros H. unfold try_catch. now rewrite H. Qed.

End MonadLaws.

Lemma truthy_true s : truthy s = true -> negb (truthy s) = false.
Proof. now intros ->. Qed.

Lemma fetch_unreachable url method headers body w :
  unreachable (mkRequest url method headers body) w ->
  fetch url method headers body w
  = (Throw (mkError TypeError "Failed to fetch"),
     log_request (mkRequest url method headers body) w).
Proof. unfold unreachable, fetch. now intros ->. Qed.

Lemma fetch_answers url method headers body r w :
  answers (mkRequest url method headers body) r w ->
  fetch url method headers body w
  = (Return r, log_request (mkRequest url method headers body) w).
Proof. unfold answers, fetch. now intros ->. Qed.

(** * Variant B *)

Section FactsB.
Import VariantB.

(** Reading the cache never throws and leaves the world as it is. *)
Lemma loadLocalNotesReadOnly_total w :
  loadLocalNotesReadOnly w = (Return (cached_B w), w).
Proof.
  unfold cached_B, loadLocalNotesReadOnly, try_catch, bind, getItem, lift, ret.
  destruct (no_text (storage w)); [reflexivity|].
  destruct (JSON_parse (storage w)) as [[]|]; try reflexivity.
  destruct (omap readEntry items); reflexivity.
Qed.

(** The notes read depend on the stored text alone. *)
Lemma cached_B_storage w1 w2 : storage w1 = storage w2 -> cached_B w1 = cached_B w2.
Proof.
  intros H.
  unfold cached_B, loadLocalNotesReadOnly, try_catch, bind, getItem, lift, ret.
  rewrite H.
  destruct (no_text (storage w2)); [reflexivity|].
  destruct (JSON_parse (storage w2)) as [[]|]; try reflexivity.
  destruct (omap readEntry items); reflexivity.
Qed.

(** An absent item, an empty text, a text that is not JSON and a JSON value
    that is not an array all read as no notes. *)
Lemma cached_B_unreadable w :
  match storage w with
  | None | Some (Unparsable _) => True
  | Some (JsonText v) => isArray v = false
  end ->
  cached_B w = [].
Proof.
  unfold cached_B, loadLocalNotesReadOnly, try_catch, bind, getItem, lift, ret.
  destruct (storage w) as [[text|v]|]; simpl.
  - destruct (negb (truthy text)); reflexivity.
  - destruct v; simpl; intros H; try reflexivity; discriminate.
  - reflexivity.
Qed.

(** Every entry that is read has a non-empty id text. *)
Lemma cached_B_ids w n : In n (cached_B w) -> id n <> "".
Proof.
  unfold cached_B, loadLocalNotesReadOnly, try_catch, bind, getItem, lift, ret.
  destruct (no_text (storage w)); [intros []|].
  destruct (JSON_parse (storage w)) as [[]|]; try (intros []).
  destruct (omap readEntry items); simpl; try (intros []).
  rewrite filter_In. intros [_ H] Heq. rewrite Heq in H. discriminate.
Qed.

Lemma listNotesFromBackend_world url w :
  snd (listNotesFromBackend url w) = log_request (get_request url) w.
Proof.
  unfold listNotesFromBackend, bind, fetch, get_request.
  destruct (remote w (net_log w) _) as [|r]; [reflexivity|].
  destruct (negb (ok r)); [reflexivity|].
  unfold json. destruct (res_json r) as [[]|]; reflexivity.
Qed.

Lemma createNoteOnBackend_world url note w :
  snd (createNoteOnBackend url note w)
  = log_request (post_request url (draft_title note) (draft_content note)) w.
Proof.
  unfold createNoteOnBackend, bind, fetch, post_request.
  destruct (remote w (net_log w) _) as [|r]; [reflexivity|].
  destruct (negb (ok r)); [reflexivity|].
  unfold json. destruct (res_json r); reflexivity.
Qed.

(** The handler of [loadNotesFromApiOrFallback]. *)
Lemma list_error_policy url w e w' :
  truthy url = true ->
  listNotesFromBackend url w = (Throw e, w') ->
  loadNotesFromApiOrFallback url w
  = if isNetworkUnreachableError e
    then (Return (mkLoaded (cached_B w') true), w')
    else (Throw e, w').
Proof.
  intros Hurl H. unfold loadNotesFromApiOrFallback.
  rewrite (truthy_true _ Hurl).
  erewrite try_catch_Throw by (erewrite bind_Throw by exact H; reflexivity).
  destruct (isNetworkUnreachableError e); [|reflexivity].
  erewrite bind_Return by apply loadLocalNotesReadOnly_total. reflexivity.
Qed.

Lemma list_success url w ns w' :
  truthy url = true ->
  listNotesFromBackend url w = (Return ns, w') ->
  loadNotesFromApiOrFallback url w
  = (Return (mkLoaded ns false), set_storage (encoded_B ns) w').
Proof.
  intros Hurl H. unfold loadNotesFromApiOrFallback.
  rewrite (truthy_true _ Hurl).
  apply try_catch_Return.
  erewrite bind_Return by exact H.
  reflexivity.
Qed.

End FactsB.

(** * Variant A *)

(** ** The order of texts *)

Lemma ltb_false_trans a b c :
  String.ltb a b = false -> String.ltb b c = false -> String.ltb a c = false.
Proof.
  unfold String.ltb. intros Hab Hbc.
  destruct (String.compare a c) eqn:Hac; try reflexivity.
  apply String_as_OT.cmp_lt in Hac.
  destruct (String.compare a b) eqn:Eab; try discriminate.
  - apply String_as_OT.cmp_eq in Eab. subst b.
    apply String_as_OT.cmp_lt in Hac. unfold String_as_OT.cmp in Hac.
    now rewrite Hac in Hbc.
  - assert (Hba : String_as_OT.lt b a).
    { apply String_as_OT.cmp_lt. rewrite String_as_OT.cmp_antisym.
      unfold String_as_OT.cmp. now rewrite Eab. }
    pose proof (String_as_OT.lt_trans _ _ _ Hba Hac) as Hlt.
    apply String_as_OT.cmp_lt in Hlt. unfold String_as_OT.cmp in Hlt.
    now rewrite Hlt in Hbc.
Qed.

Lemma ltb_false_antisym a b :
  String.ltb a b = false -> String.ltb b a = false -> a = b.
Proof.
  unfold String.ltb. intros Hab Hba.
  apply String_as_OT.cmp_eq. unfold String_as_OT.cmp.
  pose proof (String_as_OT.cmp_antisym a b) as H. unfold String_as_OT.cmp in H.
  destruct (String.compare a b), (String.compare b a); try reflexivity; discriminate.
Qed.

Lemma ltb_asym a b : String.ltb a b = true -> String.ltb b a = false.
Proof.
  unfold String.ltb.
  pose proof (String_as_OT.cmp_antisym a b) as H. unfold String_as_OT.cmp in H.
  destruct (String.compare a b), (String.compare b a); try reflexivity; discriminate.
Qed.

(** ** Frames: what a computation looks at and what it changes *)

Section Frames.
Context {A B : Type}.

Lemma set_ticks_ticks w : w = set_ticks (ticks w) w.
Proof. now destruct w. Qed.

Lemma clock_only_ret (a : A) : clock_only (ret a).
Proof. intros w. exists (ticks w). apply set_ticks_ticks. Qed.

Lemma clock_only_throw e : clock_only (@throw A e).
Proof. intros w. exists (ticks w). apply set_ticks_ticks. Qed.

Lemma clock_only_lift (o : Outcome A) : clock_only (lift o).
Proof. intros w. exists (ticks w). apply set_ticks_ticks. Qed.

Lemma clock_only_bind (m : M A) (k : A -> M B) :
  clock_only m -> (forall a, clock_only (k a)) -> clock_only (bind m k).
Proof.
  intros Hm Hk w. unfold bind.
  destruct (Hm w) as [n Hn].
  destruct (m w) as [[a|e] w1]; simpl in Hn; subst w1.
  - destruct (Hk a (set_ticks n w)) as [n2 H2]. exists n2. now rewrite H2.
  - now exists n.
Qed.

Lemma clock_only_if (b : bool) (m1 m2 : M A) :
  clock_only m1 -> clock_only m2 -> clock_only (if b then m1 else m2).
Proof. now destruct b. Qed.

Lemma log_blind_ret (a : A) : log_blind (ret a).
Proof. now intros r w. Qed.

Lemma log_blind_throw e : log_blind (@throw A e).
Proof. now intros r w. Qed.

Lemma log_blind_lift (o : Outcome A) : log_blind (lift o).
Proof. now intros r w. Qed.

Lemma log_blind_bind (m : M A) (k : A -> M B) :
  log_blind m -> (forall a, log_blind (k a)) -> log_blind (bind m k).
Proof.
  intros Hm Hk r w. unfold bind. rewrite Hm.
  destruct (m w) as [[a|e] w1]; simpl; [apply Hk | reflexivity].
Qed.

Lemma log_blind_if (b : bool) (m1 m2 : M A) :
  log_blind m1 -> log_blind m2 -> log_blind (if b then m1 else m2).
Proof. now destruct b. Qed.

End Frames.

Lemma clock_only_getItem : clock_only getItem.
Proof. intros w. exists (ticks w). apply set_ticks_ticks. Qed.

Lemma log_blind_getItem : log_blind getItem.
Proof. now intros r w. Qed.

Lemma clock_only_nowIso : clock_only VariantA.nowIso.
Proof. intros w. now exists (S (ticks w)). Qed.

Lemma log_blind_nowIso : log_blind VariantA.nowIso.
Proof. now intros r w. Qed.

Ltac frame :=
  repeat first
    [ apply clock_only_bind | apply clock_only_ret | apply clock_only_lift
    | apply clock_only_throw | apply clock_only_if | apply clock_only_getItem
    | apply clock_only_nowIso
    | apply log_blind_bind | apply log_blind_ret | apply log_blind_lift
    | apply log_blind_throw | apply log_blind_if | apply log_blind_getItem
    | apply log_blind_nowIso
    | match goal with |- forall _, _ => intro end ].

Section FactsA.
Import VariantA.
Context {E : ArraySort}.

Lemma clock_only_normalizeNote raw : clock_only (normalizeNote raw).
Proof. unfold normalizeNote, stamp. frame. Qed.

Lemma log_blind_normalizeNote raw : log_blind (normalizeNote raw).
Proof. unfold normalizeNote, stamp. frame. Qed.

Lemma clock_only_mapM items : clock_only (mapM normalizeNote items).
Proof.
  induction items as [|x rest IH]; simpl; frame; auto using clock_only_normalizeNote.
Qed.

Lemma log_blind_mapM items : log_blind (mapM normalizeNote items).
Proof.
  induction items as [|x rest IH]; simpl; frame; auto using log_blind_normalizeNote.
Qed.

Lemma clock_only_loadLocalNotes : clock_only loadLocalNotes.
Proof.
  unfold loadLocalNotes. frame.
  match goal with |- clock_only (match ?p with _ => _ end) => destruct p end;
    frame; apply clock_only_mapM.
Qed.

Lemma log_blind_loadLocalNotes : log_blind loadLocalNotes.
Proof.
  unfold loadLocalNotes. frame.
  match goal with |- log_blind (match ?p with _ => _ end) => destruct p end;
    frame; apply log_blind_mapM.
Qed.

(** Reading the cache writes nothing and sends nothing. *)
Lemma loadLocalNotes_reads_only w :
  storage (snd (loadLocalNotes w)) = storage w
  /\ net_log (snd (loadLocalNotes w)) = net_log w.
Proof.
  destruct (clock_only_loadLocalNotes w) as [n ->]. now split.
Qed.

(** What is read does not depend on the requests sent before. *)
Lemma loadLocalNotes_after_request r w :
  fst (loadLocalNotes (log_request r w)) = fst (loadLocalNotes w).
Proof. now rewrite log_blind_loadLocalNotes. Qed.

(** A note the adapter wrote is read back as it is, without a look at the
    clock. *)
Lemma normalizeNote_written n w :
  normalizeNote (note_to_json n) w = (Return n, w).
Proof. now destruct n. Qed.

Lemma mapM_written l w :
  mapM normalizeNote (map note_to_json l) w = (Return l, w).
Proof.
  induction l as [|n rest IH]; [reflexivity|].
  simpl map. simpl mapM.
  erewrite bind_Return by apply normalizeNote_written.
  erewrite bind_Return by apply IH.
  reflexivity.
Qed.

Lemma loadLocalNotes_written l w :
  storage w = encoded_A l ->
  loadLocalNotes w = (Return (sort by_recency l), w).
Proof.
  intros H. unfold loadLocalNotes, bind at 1, getItem. rewrite H. simpl.
  erewrite bind_Return by reflexivity. unfold notes_to_json.
  erewrite bind_Return by apply mapM_written.
  reflexivity.
Qed.

Lemma loadLocalNotes_absent w :
  storage w = None -> loadLocalNotes w = (Return [], w).
Proof.
  intros H. unfold loadLocalNotes, bind, getItem. now rewrite H.
Qed.

End FactsA.

(** ** Sorting by recency *)

Section SortFacts.
Import VariantA.

Lemma by_recency_negative x y :
  (by_recency x y <? 0)%Z = negb (String.ltb (updatedAt x) (updatedAt y)).
Proof. unfold by_recency. now destruct (String.ltb _ _). Qed.

Lemma insert_before_perm c x l : Permutation (insert_before c x l) (x :: l).
Proof.
  induction l as [|y rest IH]; simpl; [reflexivity|].
  destruct (c x y <? 0)%Z; [reflexivity|].
  apply perm_trans with (y :: x :: rest); [now apply perm_skip | apply perm_swap].
Qed.

Lemma v8_sort_perm c l : Permutation (v8_sort c l) l.
Proof.
  unfold v8_sort.
  enough (H : forall acc,
             Permutation (fold_left (fun s x => insert_before c x s) l acc) (l ++ acc)).
  { rewrite H. now rewrite app_nil_r. }
  induction l as [|x rest IH]; intros acc; simpl; [reflexivity|].
  rewrite IH. rewrite insert_before_perm. symmetry. apply Permutation_middle.
Qed.

Lemma insert_before_sorted x l :
  most_recent_first l -> most_recent_first (insert_before by_recency x l).
Proof.
  unfold most_recent_first.
  induction 1 as [|y rest Hrest IH Hy]; simpl.
  - repeat constructor.
  - rewrite by_recency_negative.
    destruct (String.ltb (updatedAt x) (updatedAt y)) eqn:Hxy; simpl.
    + constructor; [exact IH|].
      apply Forall_forall. intros z Hz.
      apply (Permutation_in _ (insert_before_perm _ _ _)) in Hz.
      destruct Hz as [<- | Hz]; [now apply ltb_asym|].
      rewrite Forall_forall in Hy. now apply Hy.
    + constructor; [now constructor|].
      constructor; [exact Hxy|].
      apply Forall_forall. intros z Hz.
      rewrite Forall_forall in Hy.
      eapply ltb_false_trans; [exact Hxy | now apply Hy].
Qed.

Lemma v8_sort_sorted l : most_recent_first (v8_sort by_recency l).
Proof.
  unfold v8_sort.
  enough (H : forall acc, most_recent_first acc ->
             most_recent_first
               (fold_left (fun s x => insert_before by_recency x s) l acc)).
  { apply H. constructor. }
  induction l as [|x rest IH]; intros acc Hacc; simpl; [exact Hacc|].
  apply IH. now apply insert_before_sorted.
Qed.

Lemma v8_sorts_by_recency : sorts_by_recency v8.
Proof. intros l. split; [apply v8_sort_perm | apply v8_sort_sorted]. Qed.

(** Two orderings by recency of the same notes agree when no two notes
    share their [updatedAt]. *)
Lemma most_recent_first_unique l1 l2 :
  Permutation l1 l2 ->
  most_recent_first l1 -> most_recent_first l2 ->
  NoDup (map updatedAt l1) ->
  l1 = l2.
Proof.
  unfold most_recent_first.
  revert l2. induction l1 as [|x t1 IH]; intros l2 Hp H1 H2 Hnd.
  - now apply Permutation_nil in Hp.
  - destruct l2 as [|y t2].
    { symmetry in Hp. now apply Permutation_nil in Hp. }
    inversion H1 as [|? ? Ht1 Hx]; subst.
    inversion H2 as [|? ? Ht2 Hy]; subst.
    inversion Hnd as [|? ? Hnotin Hnd']; subst.
    rewrite Forall_forall in Hx, Hy.
    assert (Hxy : x = y).
    { assert (Hin_y : In y (x :: t1)).
      { apply (Permutation_in _ (Permutation_sym Hp)). now left. }
      assert (Hin_x : In x (y :: t2)).
      { apply (Permutation_in _ Hp). now left. }
      destruct Hin_y as [Heq | Hin_y]; [exact Heq|].
      destruct Hin_x as [Heq | Hin_x]; [now symmetry|].
      exfalso. apply Hnotin.
      rewrite (ltb_false_antisym _ _ (Hx _ Hin_y) (Hy _ Hin_x)).
      now apply in_map. }
    subst y. f_equal.
    apply IH; trivial. now apply Permutation_cons_inv in Hp.
Qed.

End SortFacts.

(** ** The operations of variant A *)

Section OperationsA.
Import VariantA.
Context {E : ArraySort}.

Lemma attempt_Return {A} (block : M A) enabled w a w' :
  enabled = true -> block w = (Return a, w') ->
  attempt enabled block w = (Return (Some a), w').
Proof.
  intros -> H. unfold attempt. apply try_catch_Return.
  erewrite bind_Return by exact H. reflexivity.
Qed.

Lemma attempt_Throw {A} (block : M A) enabled w e w' :
  enabled = true -> block w = (Throw e, w') ->
  attempt enabled block w = (Return None, w').
Proof.
  intros -> H. unfold attempt.
  erewrite try_catch_Throw by (erewrite bind_Throw by exact H; reflexivity).
  reflexivity.
Qed.

Lemma saveLocalNotes_run l w :
  saveLocalNotes l w = (Return tt, set_storage (encoded_A l) w).
Proof. reflexivity. Qed.

(** [loadNotes] once the remote read and the normalisation went through. *)
Lemma loadNotes_success apiBase w apiNotes w1 normalized w2 :
  truthy apiBase = true ->
  apiListNotes apiBase w = (Return apiNotes, w1) ->
  match apiNotes with
  | JArr items => mapM normalizeNote items
  | _ => ret []
  end w1 = (Return normalized, w2) ->
  loadNotes apiBase w
  = (Return (sort by_recency normalized), set_storage (encoded_A normalized) w2).
Proof.
  intros Hbase Hlist Hnorm. unfold loadNotes. rewrite Hbase.
  apply try_catch_Return.
  erewrite bind_Return by exact Hlist.
  erewrite bind_Return by exact Hnorm.
  reflexivity.
Qed.

(** [loadNotes] once the remote read threw. *)
Lemma loadNotes_failure apiBase w e w' :
  truthy apiBase = true ->
  apiListNotes apiBase w = (Throw e, w') ->
  loadNotes apiBase w = loadLocalNotes w'.
Proof.
  intros Hbase Hlist. unfold loadNotes. rewrite Hbase.
  erewrite try_catch_Throw by (erewrite bind_Throw by exact Hlist; reflexivity).
  reflexivity.
Qed.

Lemma tryApiFetch_unreachable url method headers body w :
  unreachable (mkRequest url method headers body) w ->
  tryApiFetch url method headers body w
  = (Throw (mkError TypeError "Failed to fetch"),
     log_request (mkRequest url method headers body) w).
Proof.
  intros H. unfold tryApiFetch.
  erewrite bind_Throw by (apply fetch_unreachable; exact H). reflexivity.
Qed.

Lemma tryApiFetch_rejected url method headers body r w :
  answers (mkRequest url method headers body) r w ->
  ok r = false ->
  exists msg,
    tryApiFetch url method headers body w
    = (Throw (mkError PlainError msg),
       log_request (mkRequest url method headers body) w).
Proof.
  intros H Hok. unfold tryApiFetch.
  erewrite bind_Return by (apply fetch_answers; exact H).
  rewrite Hok. simpl. eexists. reflexivity.
Qed.

(** [createNote] once the block that talks to the API completed. *)
Lemma createNote_via_api apiBase note w created w1 normalized w2 existing w3 :
  truthy apiBase = true ->
  apiCreateNote apiBase note w = (Return created, w1) ->
  normalizeNote created w1 = (Return normalized, w2) ->
  loadLocalNotes w2 = (Return existing, w3) ->
  createNote apiBase note w
  = (Return normalized,
     set_storage
       (encoded_A
          (normalized
           :: filter (fun n => negb (String.eqb (id n) (id normalized))) existing))
       w3).
Proof.
  intros Hbase Hc Hn Hl. unfold createNote.
  erewrite bind_Return
    by (apply attempt_Return;
        [ exact Hbase
        | erewrite bind_Return by exact Hc;
          erewrite bind_Return by exact Hn;
          erewrite bind_Return by exact Hl;
          reflexivity ]).
  reflexivity.
Qed.

(** [createNote] once the API was not used or the block threw: the world
    [w0] is the one the block left, [w'] the one after the cache was read. *)
Lemma createNote_locally apiBase note w w0 existing w' :
  attempt (truthy apiBase)
    (created <- apiCreateNote apiBase note ;;
     normalized <- normalizeNote created ;;
     existing <- loadLocalNotes ;;
     let next :=
       normalized
       :: filter (fun n => negb (String.eqb (id n) (id normalized))) existing in
     saveLocalNotes next ;;;
     ret normalized) w = (Return None, w0) ->
  loadLocalNotes (tick (tick (tick (tick w0)))) = (Return existing, w') ->
  createNote apiBase note w
  = (Return (local_record note w0),
     set_storage (encoded_A (local_record note w0 :: existing)) w').
Proof.
  intros Hattempt Hl. unfold createNote.
  erewrite bind_Return by exact Hattempt.
  unfold generateId, Math_random_hex, Date_now, nowIso, bind at 1 2 3 4 5.
  cbn [tick ticks random_hex date_now now_iso ret].
  erewrite bind_Return by reflexivity.
  erewrite bind_Return by exact Hl.
  reflexivity.
Qed.

(** [deleteNote] without an API base. *)
Lemma deleteNote_local id_ w existing w' :
  loadLocalNotes w = (Return existing, w') ->
  deleteNote "" id_ w
  = (Return tt,
     set_storage
       (encoded_A (filter (fun n => negb (String.eqb (id n) id_)) existing)) w').
Proof.
  intros Hl. unfold deleteNote.
  erewrite bind_Return by reflexivity. cbv beta iota.
  erewrite bind_Return by exact Hl.
  reflexivity.
Qed.

End OperationsA.

(** ** Operations that stay off the network *)

Section Offline.
Import VariantA.
Context {E : ArraySort}.

Lemma sends_nothing_clock_only {A} (m : M A) : clock_only m -> sends_nothing m.
Proof. intros H w. now destruct (H w) as [n ->]. Qed.

Lemma sends_nothing_bind {A B} (m : M A) (k : A -> M B) :
  sends_nothing m -> (forall a, sends_nothing (k a)) -> sends_nothing (bind m k).
Proof.
  intros Hm Hk w. unfold bind. specialize (Hm w).
  destruct (m w) as [[a|e] w1]; simpl in Hm; [|exact Hm].
  now rewrite Hk.
Qed.

Lemma sends_nothing_saveLocalNotes l : sends_nothing (saveLocalNotes l).
Proof. now intros w. Qed.

Lemma sends_nothing_loadLocalNotes : sends_nothing loadLocalNotes.
Proof. apply sends_nothing_clock_only, clock_only_loadLocalNotes. Qed.

Lemma sends_nothing_normalizeNote raw : sends_nothing (normalizeNote raw).
Proof. apply sends_nothing_clock_only, clock_only_normalizeNote. Qed.

Lemma sends_nothing_nowIso : sends_nothing nowIso.
Proof. now intros w. Qed.

Lemma sends_nothing_generateId : sends_nothing generateId.
Proof. now intros w. Qed.

Lemma sends_nothing_ret {A} (a : A) : sends_nothing (ret a).
Proof. now intros w. Qed.

Lemma sends_nothing_throw {A} e : sends_nothing (@throw A e).
Proof. now intros w. Qed.

Ltac offline :=
  repeat first
    [ apply sends_nothing_saveLocalNotes | apply sends_nothing_loadLocalNotes
    | apply sends_nothing_normalizeNote | apply sends_nothing_nowIso
    | apply sends_nothing_generateId
    | apply sends_nothing_bind | apply sends_nothing_ret | apply sends_nothing_throw
    | match goal with |- forall _, _ => intro end
    | progress cbv zeta ].

Lemma loadNotes_offline : sends_nothing (loadNotes "").
Proof. apply sends_nothing_loadLocalNotes. Qed.

Lemma createNote_offline note : sends_nothing (createNote "" note).
Proof.
  unfold createNote, attempt. simpl truthy. cbv iota. offline.
  destruct a; offline.
Qed.

Lemma updateNote_offline id_ patch : sends_nothing (updateNote "" id_ patch).
Proof.
  unfold updateNote, attempt. simpl truthy. cbv iota. offline.
  destruct a; offline.
  destruct (find _ _); offline.
Qed.

Lemma deleteNote_offline id_ : sends_nothing (deleteNote "" id_).
Proof.
  unfold deleteNote, attempt. simpl truthy. cbv iota. offline.
  destruct a; offline.
Qed.

End Offline.

(** ** What the backend calls of variant B make of an answer *)

Section ResponsesB.
Import VariantB.

Lemma listNotesFromBackend_unreachable url w :
  unreachable (get_request url) w ->
  listNotesFromBackend url w
  = (Throw (mkError TypeError "Failed to fetch"), log_request (get_request url) w).
Proof.
  intros H. unfold listNotesFromBackend.
  erewrite bind_Throw by (apply fetch_unreachable; exact H). reflexivity.
Qed.

Lemma listNotesFromBackend_rejected url r w :
  answers (get_request url) r w -> ok r = false ->
  listNotesFromBackend url w
  = (Throw (mkError PlainError
              ("Failed to load notes (" ++ decimal (res_status r) ++ ")"
               ++ (if truthy (res_text r) then ": " ++ res_text r else ""))),
     log_request (get_request url) w).
Proof.
  intros H Hok. unfold listNotesFromBackend.
  erewrite bind_Return by (apply fetch_answers; exact H).
  now rewrite Hok.
Qed.

Lemma listNotesFromBackend_not_json url r w :
  answers (get_request url) r w -> ok r = true -> res_json r = None ->
  listNotesFromBackend url w
  = (Throw (mkError SyntaxError "Unexpected token in JSON"),
     log_request (get_request url) w).
Proof.
  intros H Hok Hjson. unfold listNotesFromBackend.
  erewrite bind_Return by (apply fetch_answers; exact H).
  rewrite Hok. cbn [negb]. unfold json. now rewrite Hjson.
Qed.

Lemma listNotesFromBackend_array url r items ns w :
  answers (get_request url) r w -> ok r = true ->
  res_json r = Some (JArr items) ->
  omap normalizeNote items = Return ns ->
  listNotesFromBackend url w = (Return ns, log_request (get_request url) w).
Proof.
  intros H Hok Hjson Hns. unfold listNotesFromBackend.
  erewrite bind_Return by (apply fetch_answers; exact H).
  rewrite Hok. cbn [negb]. unfold json. rewrite Hjson.
  erewrite bind_Return by reflexivity. cbv iota. unfold lift. now rewrite Hns.
Qed.

Lemma createNoteOnBackend_unreachable url note w :
  unreachable (post_request url (draft_title note) (draft_content note)) w ->
  createNoteOnBackend url note w
  = (Throw (mkError TypeError "Failed to fetch"),
     log_request (post_request url (draft_title note) (draft_content note)) w).
Proof.
  intros H. unfold createNoteOnBackend.
  erewrite bind_Throw by (apply fetch_unreachable; exact H). reflexivity.
Qed.

Lemma createNoteOnBackend_created url note r body created w :
  answers (post_request url (draft_title note) (draft_content note)) r w ->
  ok r = true -> res_json r = Some body ->
  normalizeNote body = Return created ->
  createNoteOnBackend url note w
  = (Return created,
     log_request (post_request url (draft_title note) (draft_content note)) w).
Proof.
  intros H Hok Hjson Hn. unfold createNoteOnBackend.
  erewrite bind_Return by (apply fetch_answers; exact H).
  rewrite Hok. cbn [negb]. unfold json. rewrite Hjson.
  erewrite bind_Return by reflexivity. unfold lift. now rewrite Hn.
Qed.

Lemma fallback_when_unreachable url w :
  truthy url = true -> unreachable (get_request url) w ->
  loadNotesFromApiOrFallback url w
  = (Return (mkLoaded (cached_B w) true), log_request (get_request url) w).
Proof.
  intros Hurl H.
  rewrite (list_error_policy _ _ _ _ Hurl (listNotesFromBackend_unreachable _ _ H)).
  simpl. now rewrite (cached_B_storage (log_request (get_request url) w) w).
Qed.

Lemma no_remote_listing w :
  loadNotesFromApiOrFallback "" w = (Return (mkLoaded (cached_B w) true), w).
Proof.
  change (loadNotesFromApiOrFallback "" w)
    with ((local <- loadLocalNotesReadOnly ;; ret (mkLoaded local true)) w).
  erewrite bind_Return by apply loadLocalNotesReadOnly_total. reflexivity.
Qed.

(** The test for an unreachable backend is [err instanceof TypeError], and
    normalising a [null] entry of a 2xx answer raises a [TypeError] too: such
    an answer takes the fallback as well. *)
Lemma fallback_on_null_entry :
  let w := sample_world (encoded_B [groceries_B])
             (server 200 "" (Some (JArr [JNull]))) in
  fst (listNotesFromBackend "http://api/notes" w)
  = Throw (mkError TypeError "Cannot read properties of null (reading 'id')")
  /\ fst (loadNotesFromApiOrFallback "http://api/notes" w)
     = Return (mkLoaded [groceries_B] true).
Proof. split; reflexivity. Qed.

End ResponsesB.

(** ** What the API calls of variant A make of an answer *)

Section ResponsesA.
Import VariantA.
Context {E : ArraySort}.

Lemma tryApiFetch_json url method headers body r v w :
  answers (mkRequest url method headers body) r w ->
  ok r = true -> res_status r <> 204 ->
  includes "application/json" (or_empty (res_content_type r)) = true ->
  res_json r = Some v ->
  tryApiFetch url method headers body w
  = (Return v, log_request (mkRequest url method headers body) w).
Proof.
  intros H Hok H204 Hct Hjson. unfold tryApiFetch.
  erewrite bind_Return by (apply fetch_answers; exact H).
  rewrite Hok. cbn [negb].
  apply Nat.eqb_neq in H204. rewrite H204.
  rewrite Hct. cbn [negb].
  unfold json. now rewrite Hjson.
Qed.

Lemma fallback_of_loadNotes apiBase w :
  truthy apiBase = true ->
  unreachable (get_request (apiBase ++ "/notes")) w ->
  loadNotes apiBase w
  = loadLocalNotes (log_request (get_request (apiBase ++ "/notes")) w).
Proof.
  intros Hbase H. eapply loadNotes_failure; [exact Hbase|].
  apply tryApiFetch_unreachable. exact H.
Qed.

End ResponsesA.

(** ** Caches that hold note objects can be read *)

Section Readable.
Import VariantA.
Context {E : ArraySort}.

Lemma lookup_text k fields :
  forallb (fun kv => is_text (snd kv)) fields = true ->
  text_or_absent (lookup k fields).
Proof.
  induction fields as [|[k' v] rest IH]; simpl; [trivial|].
  intros H. apply andb_prop in H as [Hv Hrest].
  destruct (String.eqb k k'); [|now apply IH].
  now destruct v.
Qed.

Lemma get_note_object raw k :
  note_object raw = true ->
  exists v, get raw k = Return v /\ text_or_absent v.
Proof.
  destruct raw; try discriminate. simpl. intros H.
  eexists. split; [reflexivity | now apply lookup_text].
Qed.

Lemma ToStringV_text v : text_or_absent v -> exists s, ToStringV v = Return s.
Proof. destruct v as [[]|]; simpl; intros H; try contradiction; eauto. Qed.

Lemma coalesce_text a b :
  text_or_absent a -> text_or_absent b -> text_or_absent (coalesce a b).
Proof. destruct a as [[]|]; simpl; intros Ha Hb; try contradiction; trivial. Qed.

Lemma stamp_note_object raw k1 k2 w :
  note_object raw = true ->
  exists v w', stamp raw k1 k2 w = (Return v, w') /\ text_or_absent v.
Proof.
  intros H. unfold stamp.
  destruct (get_note_object raw k1 H) as (v1 & Hg1 & Ht1).
  destruct (get_note_object raw k2 H) as (v2 & Hg2 & Ht2).
  erewrite bind_Return by (unfold lift; rewrite Hg1; reflexivity).
  destruct (nullish v1); [|exists v1, w; now split].
  erewrite bind_Return by (unfold lift; rewrite Hg2; reflexivity).
  destruct (nullish v2); [|exists v2, w; now split].
  erewrite bind_Return by reflexivity. eexists. eexists. split; [reflexivity|exact I].
Qed.

Lemma normalizeNote_note_object raw w :
  note_object raw = true ->
  exists n w', normalizeNote raw w = (Return n, w').
Proof.
  intros H. unfold normalizeNote.
  destruct (get_note_object raw "id" H) as (v_id & Hid & Tid).
  destruct (get_note_object raw "title" H) as (v_title & Htitle & Ttitle).
  destruct (get_note_object raw "content" H) as (v_content & Hcontent & Tcontent).
  destruct (ToStringV_text _ Tid) as [s_id Sid].
  destruct (ToStringV_text _ (coalesce_text _ (Some (JStr "")) Ttitle I))
    as [s_title Stitle].
  destruct (ToStringV_text _ (coalesce_text _ (Some (JStr "")) Tcontent I))
    as [s_content Scontent].
  erewrite bind_Return by (unfold lift; rewrite Hid; reflexivity).
  erewrite bind_Return by (unfold lift; rewrite Sid; reflexivity).
  erewrite bind_Return by (unfold lift; rewrite Htitle; reflexivity).
  erewrite bind_Return by (unfold lift; rewrite Stitle; reflexivity).
  erewrite bind_Return by (unfold lift; rewrite Hcontent; reflexivity).
  erewrite bind_Return by (unfold lift; rewrite Scontent; reflexivity).
  destruct (stamp_note_object raw "updatedAt" "updated_at" w H)
    as (v_u & w1 & Hu & Tu).
  destruct (ToStringV_text _ Tu) as [s_u Su].
  erewrite bind_Return by exact Hu.
  erewrite bind_Return by (unfold lift; rewrite Su; reflexivity).
  destruct (stamp_note_object raw "createdAt" "created_at" w1 H)
    as (v_c & w2 & Hc & Tc).
  destruct (ToStringV_text _ Tc) as [s_c Sc].
  erewrite bind_Return by exact Hc.
  erewrite bind_Return by (unfold lift; rewrite Sc; reflexivity).
  eexists. eexists. reflexivity.
Qed.

Lemma mapM_note_objects items w :
  forallb note_object items = true ->
  exists ns w', mapM normalizeNote items w = (Return ns, w').
Proof.
  revert w. induction items as [|raw rest IH]; intros w; simpl.
  - intros _. eexists. eexists. reflexivity.
  - intros H. apply andb_prop in H as [Hraw Hrest].
    destruct (normalizeNote_note_object raw w Hraw) as (n & w1 & Hn).
    destruct (IH w1 Hrest) as (ns & w2 & Hns).
    erewrite bind_Return by exact Hn.
    erewrite bind_Return by exact Hns.
    eexists. eexists. reflexivity.
Qed.

(** The read of the cache returns for an absent item, for the empty text
    and for every JSON array of note objects. *)
Lemma loadLocalNotes_returns w :
  holds_note_objects (storage w) ->
  exists ns w', loadLocalNotes w = (Return ns, w').
Proof.
  unfold holds_note_objects, loadLocalNotes, bind at 1, getItem.
  destruct (storage w) as [[text|v]|]; simpl.
  - intros ->. eexists. eexists. reflexivity.
  - destruct v; try contradiction. intros H.
    erewrite bind_Return by reflexivity.
    destruct (mapM_note_objects items w H) as (ns & w' & Hns).
    erewrite bind_Return by exact Hns.
    eexists. eexists. reflexivity.
  - intros _. eexists. eexists. reflexivity.
Qed.

End Readable.

(** ** Deleting once and twice *)

Section DeleteTwice.
Import VariantA.

Lemma most_recent_first_filter p l :
  most_recent_first l -> most_recent_first (filter p l).
Proof.
  unfold most_recent_first. induction 1 as [|x rest Hrest IH Hx]; simpl.
  - constructor.
  - destruct (p x); [|exact IH]. constructor; [exact IH|].
    rewrite Forall_forall in *. intros z Hz.
    apply filter_In in Hz as [Hz _]. now apply Hx.
Qed.

Lemma loadLocalNotes_sorted (E : ArraySort) w existing w' :
  sorts_by_recency E ->
  loadLocalNotes w = (Return existing, w') ->
  most_recent_first existing.
Proof.
  intros Hsort. unfold loadLocalNotes, bind at 1, getItem.
  destruct (no_text (storage w)).
  - intros H. inversion H. constructor.
  - unfold bind at 1, lift.
    destruct (JSON_parse (storage w)) as [[]|]; try discriminate;
      try (intros H; inversion H; constructor).
    unfold bind.
    destruct (mapM normalizeNote items w) as [[ns|e] w2]; [|discriminate].
    intros H. inversion H. apply Hsort.
Qed.

Lemma filter_twice {A} (p : A -> bool) l : filter p (filter p l) = filter p l.
Proof. apply forallb_filter_id, forallb_filter. Qed.

Lemma filter_none_to_drop l id_ :
  ~ In id_ (map id l) ->
  filter (fun n => negb (String.eqb (id n) id_)) l = l.
Proof.
  intros H. apply forallb_filter_id. apply forallb_forall. intros n Hn.
  destruct (String.eqb_spec (id n) id_) as [Heq|]; [|reflexivity].
  exfalso. apply H. rewrite <- Heq. now apply in_map.
Qed.

(** Deleting an id that no cached note has writes back the notes as they
    were read. *)
Lemma deleteNote_absent_id (E : ArraySort) id_ w existing w' :
  loadLocalNotes w = (Return existing, w') ->
  ~ In id_ (map id existing) ->
  deleteNote "" id_ w = (Return tt, set_storage (encoded_A existing) w').
Proof.
  intros Hl Hid. rewrite (deleteNote_local _ _ _ _ Hl).
  now rewrite filter_none_to_drop.
Qed.

(** On every engine: when the notes left by a delete have pairwise distinct
    [updatedAt], a second delete of the same id changes nothing. *)
Lemma deleteNote_twice_distinct_stamps (E : ArraySort) id_ w existing w' :
  sorts_by_recency E ->
  loadLocalNotes w = (Return existing, w') ->
  let kept := filter (fun n => negb (String.eqb (id n) id_)) existing in
  let once := set_storage (encoded_A kept) w' in
  NoDup (map updatedAt kept) ->
  deleteNote "" id_ w = (Return tt, once)
  /\ deleteNote "" id_ once = (Return tt, once).
Proof.
  intros Hsort Hl kept once Hnd. split; [now apply deleteNote_local|].
  assert (Hread : loadLocalNotes once = (Return (sort by_recency kept), once))
    by now apply loadLocalNotes_written.
  rewrite (deleteNote_local _ _ _ _ Hread).
  assert (Hsame : sort by_recency kept = kept).
  { destruct (Hsort kept) as [Hperm Hsorted].
    apply most_recent_first_unique; trivial.
    - apply most_recent_first_filter.
      now apply (loadLocalNotes_sorted E w existing w').
    - apply (Permutation_NoDup (l := map updatedAt kept)); [|exact Hnd].
      apply Permutation_map. now symmetry. }
  rewrite Hsame. unfold kept at 1. now rewrite filter_twice.
Qed.

Lemma by_recency_positive x y :
  (0 <? by_recency x y)%Z = String.ltb (updatedAt x) (updatedAt y).
Proof. unfold by_recency. now destruct (String.ltb _ _). Qed.

Lemma insert_after_perm c x l : Permutation (insert_after c x l) (x :: l).
Proof.
  induction l as [|y rest IH]; simpl; [reflexivity|].
  destruct (0 <? c y x)%Z; [reflexivity|].
  apply perm_trans with (y :: x :: rest); [now apply perm_skip | apply perm_swap].
Qed.

Lemma insert_after_sorted x l :
  most_recent_first l -> most_recent_first (insert_after by_recency x l).
Proof.
  unfold most_recent_first.
  induction 1 as [|y rest Hrest IH Hy]; simpl.
  - repeat constructor.
  - rewrite by_recency_positive.
    destruct (String.ltb (updatedAt y) (updatedAt x)) eqn:Hyx.
    + constructor; [now constructor|].
      constructor; [now apply ltb_asym|].
      rewrite Forall_forall in *. intros z Hz.
      eapply ltb_false_trans; [now apply ltb_asym; exact Hyx | now apply Hy].
    + constructor; [exact IH|].
      apply Forall_forall. intros z Hz.
      apply (Permutation_in _ (insert_after_perm _ _ _)) in Hz.
      destruct Hz as [<- | Hz]; [exact Hyx|].
      rewrite Forall_forall in Hy. now apply Hy.
Qed.

Lemma stable_sorts_by_recency : sorts_by_recency stable.
Proof.
  intros l. unfold sort, stable, stable_sort. split.
  - enough (H : forall acc,
               Permutation
                 (fold_left (fun s x => insert_after by_recency x s) l acc)
                 (l ++ acc)).
    { rewrite H. now rewrite app_nil_r. }
    induction l as [|x rest IH]; intros acc; simpl; [reflexivity|].
    rewrite IH, insert_after_perm. symmetry. apply Permutation_middle.
  - enough (H : forall acc, most_recent_first acc ->
               most_recent_first
                 (fold_left (fun s x => insert_after by_recency x s) l acc)).
    { apply H. constructor. }
    induction l as [|x rest IH]; intros acc Hacc; simpl; [exact Hacc|].
    apply IH. now apply insert_after_sorted.
Qed.

Lemma insert_after_end x acc :
  Forall (fun y => String.ltb (updatedAt y) (updatedAt x) = false) acc ->
  insert_after by_recency x acc = (acc ++ [x])%list.
Proof.
  induction 1 as [|y rest Hy Hrest IH]; simpl; [reflexivity|].
  rewrite by_recency_positive, Hy. now rewrite IH.
Qed.

Lemma sorted_prefix_before x acc rest :
  most_recent_first (acc ++ x :: rest) ->
  Forall (fun y => String.ltb (updatedAt y) (updatedAt x) = false) acc.
Proof.
  unfold most_recent_first.
  induction acc as [|y acc IH]; simpl; intros H; [constructor|].
  inversion H as [|? ? Htail Hall]; subst. constructor; [|now apply IH].
  rewrite Forall_forall in Hall. apply Hall. apply in_elt.
Qed.

(** The stable engine leaves a list that is ordered by recency as it is. *)
Lemma stable_sort_ordered l :
  most_recent_first l -> stable_sort by_recency l = l.
Proof.
  unfold stable_sort.
  enough (H : forall acc, most_recent_first (acc ++ l) ->
             fold_left (fun s x => insert_after by_recency x s) l acc
             = (acc ++ l)%list).
  { intros Hl. now apply (H []). }
  induction l as [|x rest IH]; intros acc Hacc; simpl.
  - now rewrite app_nil_r.
  - rewrite (insert_after_end x acc) by now apply (sorted_prefix_before x acc rest).
    rewrite IH; rewrite <- app_assoc; [reflexivity | exact Hacc].
Qed.

(** On an engine that keeps notes with equal [updatedAt] in place, a second
    delete of the same id changes nothing, whatever the cache held. *)
Lemma deleteNote_twice_stable id_ w existing w' :
  loadLocalNotes (E := stable) w = (Return existing, w') ->
  let kept := filter (fun n => negb (String.eqb (id n) id_)) existing in
  let once := set_storage (encoded_A kept) w' in
  deleteNote (E := stable) "" id_ w = (Return tt, once)
  /\ deleteNote (E := stable) "" id_ once = (Return tt, once).
Proof.
  intros Hl kept once. split; [now apply deleteNote_local|].
  assert (Hread : loadLocalNotes (E := stable) once
                  = (Return (sort (ArraySort := stable) by_recency kept), once))
    by now apply loadLocalNotes_written.
  rewrite (deleteNote_local _ _ _ _ Hread).
  assert (Hsame : sort (ArraySort := stable) by_recency kept = kept).
  { apply stable_sort_ordered, most_recent_first_filter.
    now apply (loadLocalNotes_sorted stable w existing w' stable_sorts_by_recency). }
  rewrite Hsame. unfold kept at 1. now rewrite filter_twice.
Qed.

End DeleteTwice.

(** ** What the cache reader of variant B yields *)

Section CacheB.
Import VariantB.

Lemma readEntry_written n : readEntry (note_to_json n) = Return n.
Proof. now destruct n. Qed.

Lemma normalizeNote_B_written n : normalizeNote (note_to_json n) = Return n.
Proof. now destruct n. Qed.

Lemma omap_readEntry_written ns : omap readEntry (map note_to_json ns) = Return ns.
Proof.
  induction ns as [|n rest IH]; [reflexivity|].
  cbn [map omap]. now rewrite readEntry_written, IH.
Qed.

Lemma no_text_encoded ns : no_text (encoded_B ns) = false.
Proof. reflexivity. Qed.

Lemma cached_B_encoded w ns :
  storage w = encoded_B ns -> cached_B w = filter has_id ns.
Proof.
  intros H.
  unfold cached_B, loadLocalNotesReadOnly, try_catch, bind, getItem, lift, ret.
  rewrite H. simpl. unfold notes_to_json. now rewrite omap_readEntry_written.
Qed.

Lemma omap_readEntry_null items :
  In JNull items -> exists e, omap readEntry items = Throw e.
Proof.
  induction items as [|x rest IH]; [intros []|].
  intros [-> | Hin].
  - eexists. reflexivity.
  - simpl. destruct (readEntry x); simpl; [|eauto].
    destruct (IH Hin) as [e ->]. simpl. eauto.
Qed.

Lemma cached_B_null_entry w items :
  storage w = Some (JsonText (JArr items)) -> In JNull items -> cached_B w = [].
Proof.
  intros H Hin.
  unfold cached_B, loadLocalNotesReadOnly, try_catch, bind, getItem, lift, ret.
  rewrite H. simpl. now destruct (omap_readEntry_null items Hin) as [e ->].
Qed.

End CacheB.

(** * The claims *)

(** ** Listing *)

(** C1, as stated, fails on variant A: the server answers 500, which is
    not a transport failure, and [loadNotes] does not hand the error to its
    caller but returns the cached note. *)
Lemma C1_lenient_variant_falls_back_on_http_500 :
  let w := sample_world (encoded_A [groceries_A]) (server 500 "boom" None) in
  exists e w',
    VariantA.apiListNotes "http://api" w = (Throw e, w')
    /\ instanceof_TypeError e = false
    /\ fst (VariantA.loadNotes (E := VariantA.v8) "http://api" w)
       = Return [groceries_A].
Proof.
  cbv zeta. eexists. eexists. split; [|split].
  - vm_compute. reflexivity.
  - reflexivity.
  - vm_compute. reflexivity.
Qed.

(** C1, amended.  Variant B ([loadNotesFromApiOrFallback]): when [fetch]
    fails at the transport the listing returns the cached notes, marked as a
    fallback; when the server answers with a status outside 200..299 or with
    a body that is not JSON, the error [listNotesFromBackend] raised is not a
    [TypeError] and reaches the caller unchanged.  Variant A ([loadNotes]):
    whatever error the remote read raises, a rejected status included, the
    listing falls back to reading the local cache. *)
Theorem C1_fallback_policy :
  (forall url w,
      truthy url = true -> unreachable (get_request url) w ->
      VariantB.loadNotesFromApiOrFallback url w
      = (Return (VariantB.mkLoaded (cached_B w) true),
         log_request (get_request url) w))
  /\ (forall url w r,
        truthy url = true -> answers (get_request url) r w ->
        ok r = false \/ res_json r = None ->
        exists e,
          VariantB.listNotesFromBackend url w
          = (Throw e, log_request (get_request url) w)
          /\ instanceof_TypeError e = false
          /\ VariantB.loadNotesFromApiOrFallback url w
             = (Throw e, log_request (get_request url) w))
  /\ (forall (E : VariantA.ArraySort) apiBase w e w',
        truthy apiBase = true ->
        VariantA.apiListNotes apiBase w = (Throw e, w') ->
        VariantA.loadNotes apiBase w = VariantA.loadLocalNotes w')
  /\ (forall (E : VariantA.ArraySort) apiBase w r,
        truthy apiBase = true ->
        answers (get_request (apiBase ++ "/notes")) r w -> ok r = false ->
        VariantA.loadNotes apiBase w
        = VariantA.loadLocalNotes
            (log_request (get_request (apiBase ++ "/notes")) w)).
Proof.
  split; [|split; [|split]].
  - apply fallback_when_unreachable.
  - intros url w r Hurl Hans Hbad.
    assert (Hthrow : exists e,
               VariantB.listNotesFromBackend url w
               = (Throw e, log_request (get_request url) w)
               /\ instanceof_TypeError e = false).
    { destruct (ok r) eqn:Hok.
      - destruct Hbad as [Hbad | Hjson]; [discriminate|].
        eexists. split;
          [apply (listNotesFromBackend_not_json _ _ _ Hans Hok Hjson) | reflexivity].
      - eexists. split;
          [apply (listNotesFromBackend_rejected _ _ _ Hans Hok) | reflexivity]. }
    destruct Hthrow as (e & Hthrow & Hclass).
    exists e. repeat split; trivial.
    rewrite (list_error_policy _ _ _ _ Hurl Hthrow).
    unfold VariantB.isNetworkUnreachableError. now rewrite Hclass.
  - intros E apiBase w e w'. apply loadNotes_failure.
  - intros E apiBase w r Hbase Hans Hok.
    destruct (tryApiFetch_rejected _ _ _ _ _ _ Hans Hok) as [msg Hmsg].
    eapply loadNotes_failure; [exact Hbase | exact Hmsg].
Qed.

Lemma C1_fallback_policy_witness :
  let down := sample_world (encoded_B [groceries_B]) network_down in
  let broken := sample_world (encoded_B [groceries_B]) (server 500 "boom" None) in
  VariantB.loadNotesFromApiOrFallback "http://api/notes" down
  = (Return (VariantB.mkLoaded (cached_B down) true),
     log_request (get_request "http://api/notes") down)
  /\ (exists e,
        VariantB.listNotesFromBackend "http://api/notes" broken
        = (Throw e, log_request (get_request "http://api/notes") broken)
        /\ instanceof_TypeError e = false
        /\ VariantB.loadNotesFromApiOrFallback "http://api/notes" broken
           = (Throw e, log_request (get_request "http://api/notes") broken))
  /\ VariantA.loadNotes (E := VariantA.v8) "http://api" broken
     = VariantA.loadLocalNotes (E := VariantA.v8)
         (log_request (get_request "http://api/notes") broken).
Proof.
  cbv zeta. destruct C1_fallback_policy as (H1 & H2 & _ & H4).
  split; [|split].
  - apply H1; reflexivity.
  - apply (H2 _ _ (mkResponse 500 (Some "application/json") "boom" None));
      [reflexivity | reflexivity | left; reflexivity].
  - apply (H4 VariantA.v8 "http://api" _
             (mkResponse 500 (Some "application/json") "boom" None));
      reflexivity.
Defined.

(** C2, as stated, fails on variant A: the cache holds a text that is not
    JSON, and the listing without a remote endpoint does not return the
    contents of the cache but raises the error of [JSON.parse]. *)
Lemma C2_lenient_listing_throws_on_text_that_is_not_json :
  let w := sample_world (Some (Unparsable "not json")) network_down in
  exists e,
    VariantA.loadNotes (E := VariantA.v8) "" w = (Throw e, w)
    /\ err_class e = SyntaxError.
Proof. cbv zeta. eexists. split; reflexivity. Qed.

(** C2, amended.  Without a remote endpoint neither variant sends a request
    or writes the cache, whatever the cache holds.  Variant B returns, for
    every state of the cache, the notes its reader yields, marked as a
    fallback; for a cache the adapter wrote these are the notes written, in
    their order, minus those whose id is the empty text.  Variant A returns
    the contents of the cache for every state its reader can read: no notes
    for an absent item, the notes of an array of note objects, and for a cache
    the adapter wrote the notes written, ordered by recency. *)
Theorem C2_listing_without_remote :
  (forall w,
      VariantB.loadNotesFromApiOrFallback "" w
      = (Return (VariantB.mkLoaded (cached_B w) true), w))
  /\ (forall w ns,
        storage w = encoded_B ns ->
        VariantB.loadNotesFromApiOrFallback "" w
        = (Return (VariantB.mkLoaded (filter has_id ns) true), w))
  /\ (forall (E : VariantA.ArraySort) w,
        VariantA.loadNotes "" w = VariantA.loadLocalNotes w
        /\ net_log (snd (VariantA.loadNotes "" w)) = net_log w
        /\ storage (snd (VariantA.loadNotes "" w)) = storage w)
  /\ (forall (E : VariantA.ArraySort) w,
        holds_note_objects (storage w) ->
        exists ns, fst (VariantA.loadNotes "" w) = Return ns)
  /\ (forall (E : VariantA.ArraySort) w,
        storage w = None -> VariantA.loadNotes "" w = (Return [], w))
  /\ (forall (E : VariantA.ArraySort) w l,
        storage w = encoded_A l ->
        VariantA.loadNotes "" w = (Return (VariantA.sort VariantA.by_recency l), w))
  /\ (forall (E : VariantA.ArraySort) l,
        VariantA.sorts_by_recency E ->
        Permutation (VariantA.sort VariantA.by_recency l) l
        /\ VariantA.most_recent_first (VariantA.sort VariantA.by_recency l)).
Proof.
  repeat apply conj.
  - apply no_remote_listing.
  - intros w ns Hs. rewrite no_remote_listing. now rewrite (cached_B_encoded w ns).
  - intros E w. split; [reflexivity|].
    destruct (loadLocalNotes_reads_only w) as [Hs Hl]. now split.
  - intros E w H. destruct (loadLocalNotes_returns w H) as (ns & w' & Hns).
    exists ns.
    change (VariantA.loadNotes "" w) with (VariantA.loadLocalNotes w).
    now rewrite Hns.
  - intros E w. apply loadLocalNotes_absent.
  - intros E w l. apply loadLocalNotes_written.
  - intros E l Hsort. apply Hsort.
Qed.

Lemma C2_listing_without_remote_witness :
  let w_B := sample_world (encoded_B [groceries_B; taxes_B]) network_down in
  let w := sample_world (encoded_A [groceries_A; taxes_A]) network_down in
  let bare := sample_world
                (Some (JsonText (JArr [JObj [("id", JStr "7"); ("title", JStr "Call")]])))
                network_down in
  VariantB.loadNotesFromApiOrFallback "" w_B
  = (Return (VariantB.mkLoaded [groceries_B; taxes_B] true), w_B)
  /\ (exists ns, fst (VariantA.loadNotes (E := VariantA.v8) "" bare) = Return ns)
  /\ VariantA.loadNotes (E := VariantA.v8) "" w = (Return [taxes_A; groceries_A], w)
  /\ VariantA.most_recent_first
       (VariantA.sort (ArraySort := VariantA.v8) VariantA.by_recency
          [groceries_A; taxes_A]).
Proof.
  cbv zeta.
  destruct C2_listing_without_remote as (_ & H2 & _ & H4 & _ & H6 & H7).
  split; [|split; [|split]].
  - apply (H2 _ [groceries_B; taxes_B]). reflexivity.
  - apply (H4 VariantA.v8). reflexivity.
  - apply (H6 VariantA.v8 _ [groceries_A; taxes_A]). reflexivity.
  - apply (H7 VariantA.v8 [groceries_A; taxes_A] v8_sorts_by_recency).
Defined.

(** C3, as stated, fails on variant B: the server sends the older note
    first, and the listing returns the notes in that order, the older one
    before the more recent one. *)
Lemma C3_strict_variant_keeps_server_order :
  let w := sample_world None
             (server 200 "" (Some (JArr [groceries_json; taxes_json]))) in
  fst (VariantB.loadNotesFromApiOrFallback "http://api/notes" w)
  = Return (VariantB.mkLoaded [groceries_B; taxes_B] false)
  /\ ~ most_recent_first_B [groceries_B; taxes_B].
Proof.
  cbv zeta. split; [vm_compute; reflexivity|].
  intros H. inversion H as [|? ? _ Hall]; subst.
  inversion Hall as [|? ? Hlt _]; subst.
  vm_compute in Hlt. discriminate.
Qed.

(** C3, amended.  When the server answers the read with an array of notes,
    both variants overwrite the local cache with exactly the normalised
    notes of the answer.  Variant A returns them ordered by [updatedAt], most
    recent first; variant B returns them in the order the server sent them. *)
Theorem C3_successful_listing_overwrites_cache :
  (forall url w r items ns,
      truthy url = true -> answers (get_request url) r w ->
      ok r = true -> res_json r = Some (JArr items) ->
      omap VariantB.normalizeNote items = Return ns ->
      VariantB.loadNotesFromApiOrFallback url w
      = (Return (VariantB.mkLoaded ns false),
         set_storage (encoded_B ns) (log_request (get_request url) w)))
  /\ (forall (E : VariantA.ArraySort),
        VariantA.sorts_by_recency E ->
        forall apiBase w r items normalized w',
          truthy apiBase = true ->
          answers (get_request (apiBase ++ "/notes")) r w ->
          ok r = true -> res_status r <> 204 ->
          includes "application/json" (or_empty (res_content_type r)) = true ->
          res_json r = Some (JArr items) ->
          mapM VariantA.normalizeNote items
            (log_request (get_request (apiBase ++ "/notes")) w)
          = (Return normalized, w') ->
          VariantA.loadNotes apiBase w
          = (Return (VariantA.sort VariantA.by_recency normalized),
             set_storage (encoded_A normalized) w')
          /\ Permutation (VariantA.sort VariantA.by_recency normalized) normalized
          /\ VariantA.most_recent_first
               (VariantA.sort VariantA.by_recency normalized)).
Proof.
  split.
  - intros url w r items ns Hurl Hans Hok Hjson Hns.
    apply list_success; [exact Hurl|].
    now apply (listNotesFromBackend_array _ r items).
  - intros E Hsort apiBase w r items normalized w' Hbase Hans Hok H204 Hct Hjson Hn.
    split; [|apply Hsort].
    apply (loadNotes_success apiBase w (JArr items)
             (log_request (get_request (apiBase ++ "/notes")) w));
      [exact Hbase | | exact Hn].
    now apply (tryApiFetch_json _ _ _ _ r).
Qed.

Lemma C3_successful_listing_overwrites_cache_witness :
  let answer := mkResponse 200 (Some "application/json") ""
                  (Some (JArr [groceries_json; taxes_json])) in
  let w := sample_world None (fun _ _ => Responded answer) in
  VariantB.loadNotesFromApiOrFallback "http://api/notes" w
  = (Return (VariantB.mkLoaded [groceries_B; taxes_B] false),
     set_storage (encoded_B [groceries_B; taxes_B])
       (log_request (get_request "http://api/notes") w))
  /\ VariantA.loadNotes (E := VariantA.v8) "http://api" w
     = (Return [taxes_A; groceries_A],
        set_storage (encoded_A [groceries_A; taxes_A])
          (log_request (get_request "http://api/notes") w)).
Proof.
  intros answer w. destruct C3_successful_listing_overwrites_cache as [HB HA].
  split.
  - apply (HB _ w answer [groceries_json; taxes_json]); reflexivity.
  - destruct (HA VariantA.v8 v8_sorts_by_recency "http://api" w answer
                [groceries_json; taxes_json] [groceries_A; taxes_A]
                (log_request (get_request "http://api/notes") w)) as [H _];
      [ reflexivity | reflexivity | reflexivity | discriminate
      | reflexivity | reflexivity | reflexivity | exact H ].
Defined.

(** C4, as stated, fails on variant A in two ways.  What [loadNotes]
    returns when the network is down and the cache holds a note is what it
    returns when the server is up and sends that note, a bare list with no
    mark of a fallback.  And when the network is down and the cache holds a
    text that is not JSON, it does not return the contents of the cache but
    raises the error of [JSON.parse]. *)
Lemma C4_lenient_fallback_carries_no_mark :
  let down := sample_world (encoded_A [groceries_A]) network_down in
  let up := sample_world None (server 200 "" (Some (JArr [groceries_json]))) in
  let unread := sample_world (Some (Unparsable "not json")) network_down in
  unreachable (get_request "http://api/notes") down
  /\ answers (get_request "http://api/notes")
       (mkResponse 200 (Some "application/json") ""
          (Some (JArr [groceries_json]))) up
  /\ fst (VariantA.loadNotes (E := VariantA.v8) "http://api" down)
     = Return [groceries_A]
  /\ fst (VariantA.loadNotes (E := VariantA.v8) "http://api" up)
     = Return [groceries_A]
  /\ unreachable (get_request "http://api/notes") unread
  /\ exists e,
       fst (VariantA.loadNotes (E := VariantA.v8) "http://api" unread) = Throw e
       /\ err_class e = SyntaxError.
Proof.
  cbv zeta. repeat split; try (vm_compute; reflexivity).
  eexists. split; vm_compute; reflexivity.
Qed.

(** C4, amended.  When the read fails at the transport, neither variant
    changes the cache.  Variant B returns, for every prior state of the
    cache, the notes its reader yields, marked as a fallback; for a cache the
    adapter wrote these are the notes written minus those whose id is the
    empty text.  Variant A returns what the read of the local cache gives, as
    a bare list: for every state its reader can read it returns notes, none
    for an absent item, and for a cache the adapter wrote the notes written,
    ordered by recency. *)
Theorem C4_unreachable_listing_serves_cache :
  (forall url w,
      truthy url = true -> unreachable (get_request url) w ->
      VariantB.loadNotesFromApiOrFallback url w
      = (Return (VariantB.mkLoaded (cached_B w) true),
         log_request (get_request url) w)
      /\ storage (snd (VariantB.loadNotesFromApiOrFallback url w)) = storage w)
  /\ (forall url w ns,
        truthy url = true -> unreachable (get_request url) w ->
        storage w = encoded_B ns ->
        VariantB.loadNotesFromApiOrFallback url w
        = (Return (VariantB.mkLoaded (filter has_id ns) true),
           log_request (get_request url) w))
  /\ (forall (E : VariantA.ArraySort) apiBase w,
        truthy apiBase = true ->
        unreachable (get_request (apiBase ++ "/notes")) w ->
        fst (VariantA.loadNotes apiBase w) = fst (VariantA.loadLocalNotes w)
        /\ storage (snd (VariantA.loadNotes apiBase w)) = storage w)
  /\ (forall (E : VariantA.ArraySort) apiBase w,
        truthy apiBase = true ->
        unreachable (get_request (apiBase ++ "/notes")) w ->
        holds_note_objects (storage w) ->
        exists ns, fst (VariantA.loadNotes apiBase w) = Return ns)
  /\ (forall (E : VariantA.ArraySort) apiBase w,
        truthy apiBase = true ->
        unreachable (get_request (apiBase ++ "/notes")) w ->
        storage w = None ->
        VariantA.loadNotes apiBase w
        = (Return [], log_request (get_request (apiBase ++ "/notes")) w))
  /\ (forall (E : VariantA.ArraySort) apiBase w l,
        truthy apiBase = true ->
        unreachable (get_request (apiBase ++ "/notes")) w ->
        storage w = encoded_A l ->
        VariantA.loadNotes apiBase w
        = (Return (VariantA.sort VariantA.by_recency l),
           log_request (get_request (apiBase ++ "/notes")) w))
  /\ (forall (E : VariantA.ArraySort) l,
        VariantA.sorts_by_recency E ->
        Permutation (VariantA.sort VariantA.by_recency l) l
        /\ VariantA.most_recent_first (VariantA.sort VariantA.by_recency l)).
Proof.
  repeat apply conj.
  - intros url w Hurl H.
    rewrite (fallback_when_unreachable _ _ Hurl H). now split.
  - intros url w ns Hurl H Hs.
    rewrite (fallback_when_unreachable _ _ Hurl H).
    now rewrite (cached_B_encoded w ns).
  - intros E apiBase w Hbase H.
    rewrite (fallback_of_loadNotes _ _ Hbase H). split.
    + apply loadLocalNotes_after_request.
    + now destruct (loadLocalNotes_reads_only
                      (log_request (get_request (apiBase ++ "/notes")) w)) as [-> _].
  - intros E apiBase w Hbase H Hcache.
    rewrite (fallback_of_loadNotes _ _ Hbase H).
    destruct (loadLocalNotes_returns
                (log_request (get_request (apiBase ++ "/notes")) w) Hcache)
      as (ns & w' & Hns).
    exists ns. now rewrite Hns.
  - intros E apiBase w Hbase H Hs.
    rewrite (fallback_of_loadNotes _ _ Hbase H).
    now apply loadLocalNotes_absent.
  - intros E apiBase w l Hbase H Hs.
    rewrite (fallback_of_loadNotes _ _ Hbase H).
    now apply loadLocalNotes_written.
  - intros E l Hsort. apply Hsort.
Qed.

Lemma C4_unreachable_listing_serves_cache_witness :
  let w_B := sample_world (encoded_B [groceries_B; taxes_B]) network_down in
  let w_A := sample_world (encoded_A [groceries_A; taxes_A]) network_down in
  (VariantB.loadNotesFromApiOrFallback "http://api/notes" w_B
   = (Return (VariantB.mkLoaded [groceries_B; taxes_B] true),
      log_request (get_request "http://api/notes") w_B)
   /\ storage (snd (VariantB.loadNotesFromApiOrFallback "http://api/notes" w_B))
      = storage w_B)
  /\ (VariantA.loadNotes (E := VariantA.v8) "http://api" w_A
      = (Return [taxes_A; groceries_A],
         log_request (get_request "http://api/notes") w_A)
      /\ storage (snd (VariantA.loadNotes (E := VariantA.v8) "http://api" w_A))
         = storage w_A).
Proof.
  cbv zeta.
  destruct C4_unreachable_listing_serves_cache as (H1 & H2 & H3 & _ & _ & H6 & _).
  split; split.
  - apply (H2 _ _ [groceries_B; taxes_B]); reflexivity.
  - apply H1; reflexivity.
  - apply (H6 VariantA.v8 "http://api" _ [groceries_A; taxes_A]); reflexivity.
  - apply (H3 VariantA.v8 "http://api"); reflexivity.
Defined.

(** ** Saving *)

Lemma validateDraft_B_rejects d :
  blank d \/ title_too_long d -> VariantB.validateDraft d <> "".
Proof.
  unfold blank, title_too_long, VariantB.validateDraft. intros [[Ht Hc] | Hlong].
  - rewrite Ht, Hc. discriminate.
  - apply Nat.ltb_lt in Hlong. rewrite Hlong.
    destruct (negb (truthy (trim (draft_title d)))
              && negb (truthy (trim (draft_content d)))); discriminate.
Qed.

Lemma validateDraft_A_rejects d :
  blank d \/ title_too_long d -> VariantA.validateDraft d <> "".
Proof.
  unfold blank, title_too_long, VariantA.validateDraft. intros [[Ht Hc] | Hlong].
  - rewrite Ht, Hc. discriminate.
  - apply Nat.ltb_lt in Hlong. rewrite Hlong.
    destruct (negb (truthy (trim (draft_title d)))
              && negb (truthy (trim (draft_content d)))); discriminate.
Qed.

Lemma truthy_iff s : truthy s = true <-> s <> "".
Proof.
  unfold truthy. destruct (String.eqb_spec s ""); simpl; split; congruence.
Qed.

(** C5, as stated, fails: a title of 130 characters, one letter followed by
    129 spaces, passes the validation, which measures the trimmed title, and
    [handleSave] goes on to send the create request. *)
Lemma C5_padded_title_of_130_characters_is_sent :
  let s := VariantB.mkApp [] (VariantB.mkStatus false "" false) true None
             (mkDraft padded_title "") None in
  let cfg := VariantB.mkConfig "http://api/notes" true in
  let w := sample_world None (server 201 "" (Some taxes_json)) in
  String.length padded_title = 130
  /\ VariantB.validateDraft (mkDraft padded_title "") = ""
  /\ net_log (snd (VariantB.handleSave cfg s w))
     = [post_request "http://api/notes" padded_title ""]
  /\ VariantB.error (VariantB.status (fst (VariantB.handleSave cfg s w))) = "".
Proof.
  cbv zeta. repeat split; vm_compute; reflexivity.
Qed.

(** C5, amended.  In both variants [handleSave] rejects a draft with a
    validation message, and leaves the world untouched (no request, no write),
    when the trimmed title and the trimmed content are both empty, and
    likewise when the trimmed title is longer than 120 characters; in
    particular a title of 130 characters with no white space at either end is
    rejected. *)
Theorem C5_invalid_draft_is_rejected_before_io :
  (forall cfg s w,
      blank (VariantB.draft s) \/ title_too_long (VariantB.draft s) ->
      exists msg,
        msg <> ""
        /\ VariantB.handleSave cfg s w = (VariantB.set_error msg s, w))
  /\ (forall (E : VariantA.ArraySort) apiBase s w,
        blank (VariantA.draft s) \/ title_too_long (VariantA.draft s) ->
        exists msg,
          msg <> ""
          /\ VariantA.handleSave apiBase s w = (VariantA.set_error msg s, w))
  /\ (forall d,
        String.length (draft_title d) = 130 ->
        trim (draft_title d) = draft_title d ->
        title_too_long d).
Proof.
  split; [|split].
  - intros cfg s w H. exists (VariantB.validateDraft (VariantB.draft s)).
    pose proof (validateDraft_B_rejects _ H) as Hmsg. split; [exact Hmsg|].
    unfold VariantB.handleSave. apply truthy_iff in Hmsg. now rewrite Hmsg.
  - intros E apiBase s w H. exists (VariantA.validateDraft (VariantA.draft s)).
    pose proof (validateDraft_A_rejects _ H) as Hmsg. split; [exact Hmsg|].
    unfold VariantA.handleSave. apply truthy_iff in Hmsg. now rewrite Hmsg.
  - intros d Hlen Htrim. unfold title_too_long. rewrite Htrim, Hlen. lia.
Qed.

Lemma C5_invalid_draft_is_rejected_before_io_witness :
  let long_title := string_of_list_ascii (repeat "x"%char 130) in
  let empty_B := VariantB.mkApp [] (VariantB.mkStatus false "" false) true None
                   (mkDraft "  " "") None in
  let long_A := VariantA.mkApp [] (VariantA.mkStatus false "") true None
                  (mkDraft long_title "body") None in
  let w := sample_world None (server 201 "" (Some taxes_json)) in
  (exists msg,
      msg <> ""
      /\ VariantB.handleSave (VariantB.mkConfig "http://api/notes" true) empty_B w
         = (VariantB.set_error msg empty_B, w))
  /\ (exists msg,
        msg <> ""
        /\ VariantA.handleSave (E := VariantA.v8) "http://api" long_A w
           = (VariantA.set_error msg long_A, w))
  /\ title_too_long (mkDraft long_title "body").
Proof.
  cbv zeta. destruct C5_invalid_draft_is_rejected_before_io as (HB & HA & H130).
  split; [|split].
  - apply HB. left. split; reflexivity.
  - apply HA. right. apply H130; reflexivity.
  - apply H130; reflexivity.
Defined.

Section Merge.
Context {A : Type} (key : A -> string).

Lemma merged_once (x : A) (l : list A) :
  filter (fun n => String.eqb (key n) (key x))
    (x :: filter (fun n => negb (String.eqb (key n) (key x))) l)
  = [x].
Proof.
  simpl. rewrite String.eqb_refl. f_equal.
  induction l as [|y rest IH]; [reflexivity|].
  simpl. destruct (String.eqb (key y) (key x)) eqn:Hy; simpl; [exact IH|].
  now rewrite Hy.
Qed.

Lemma merged_keeps_others (x n : A) (l : list A) :
  In n l -> key n <> key x ->
  In n (x :: filter (fun n => negb (String.eqb (key n) (key x))) l).
Proof.
  intros Hin Hne. right. apply filter_In. split; [exact Hin|].
  apply String.eqb_neq in Hne. now rewrite Hne.
Qed.

End Merge.

(** C6, as stated, fails on variant A: the cache holds a text that is not
    JSON and the server accepts the create and answers with the created
    note.  [createNote] then raises the error of [JSON.parse] after the POST
    was sent, and the cache is left as it was, without the created note. *)
Lemma C6_lenient_create_on_text_that_is_not_json :
  let answer := mkResponse 201 (Some "application/json") "" (Some taxes_json) in
  let w := sample_world (Some (Unparsable "not json"))
             (fun _ _ => Responded answer) in
  fst (VariantA.apiCreateNote "http://api" (mkDraft "Taxes" "due") w)
  = Return taxes_json
  /\ exists e w',
       VariantA.createNote (E := VariantA.v8) "http://api" (mkDraft "Taxes" "due") w
       = (Throw e, w')
       /\ err_class e = SyntaxError
       /\ storage w' = Some (Unparsable "not json")
       /\ net_log w' = [post_request "http://api/notes" "Taxes" "due"].
Proof.
  cbv zeta. split; [vm_compute; reflexivity|].
  eexists. eexists. split; [vm_compute; reflexivity|].
  split; [|split]; reflexivity.
Qed.

(** C6, amended.  After a create the server accepted, the local cache holds
    the created note followed by the notes read from the prior cache whose id
    differs from its id; so the created note is in the cache, it is the one
    entry with its id, and every prior note with another id is still there.
    Variant B does so for every prior state of the cache.  Variant A does so
    whenever [loadLocalNotes] reads the prior cache, which it does for every
    cache that holds no item, the empty text or an array of note objects; for
    a cache the adapter wrote, the notes read are the notes written, ordered
    by recency. *)
Theorem C6_created_note_is_merged_into_cache :
  (forall url note w r body created,
      truthy url = true ->
      answers (post_request url (draft_title note) (draft_content note)) r w ->
      ok r = true -> res_json r = Some body ->
      VariantB.normalizeNote body = Return created ->
      let next :=
        created
        :: filter (fun n => negb (String.eqb (VariantB.id n) (VariantB.id created)))
             (cached_B w) in
      VariantB.createNoteViaApi url note w
      = (Return created,
         set_storage (encoded_B next)
           (log_request
              (post_request url (draft_title note) (draft_content note)) w))
      /\ In created next
      /\ filter (fun n => String.eqb (VariantB.id n) (VariantB.id created)) next
         = [created]
      /\ (forall n, In n (cached_B w) -> VariantB.id n <> VariantB.id created ->
                    In n next))
  /\ (forall (E : VariantA.ArraySort) apiBase note w r body normalized w2
             existing w3,
        truthy apiBase = true ->
        answers (post_request (apiBase ++ "/notes")
                   (draft_title note) (draft_content note)) r w ->
        ok r = true -> res_status r <> 204 ->
        includes "application/json" (or_empty (res_content_type r)) = true ->
        res_json r = Some body ->
        VariantA.normalizeNote body
          (log_request (post_request (apiBase ++ "/notes")
                          (draft_title note) (draft_content note)) w)
        = (Return normalized, w2) ->
        VariantA.loadLocalNotes w2 = (Return existing, w3) ->
        let next :=
          normalized
          :: filter (fun n => negb (String.eqb (VariantA.id n) (VariantA.id normalized)))
               existing in
        VariantA.createNote apiBase note w
        = (Return normalized, set_storage (encoded_A next) w3)
        /\ In normalized next
        /\ filter (fun n => String.eqb (VariantA.id n) (VariantA.id normalized)) next
           = [normalized]
        /\ (forall n, In n existing -> VariantA.id n <> VariantA.id normalized ->
                      In n next))
  /\ (forall url note w r body created ns,
        truthy url = true ->
        answers (post_request url (draft_title note) (draft_content note)) r w ->
        ok r = true -> res_json r = Some body ->
        VariantB.normalizeNote body = Return created ->
        storage w = encoded_B ns ->
        VariantB.createNoteViaApi url note w
        = (Return created,
           set_storage
             (encoded_B
                (created
                 :: filter (fun n => negb (String.eqb (VariantB.id n)
                                                      (VariantB.id created)))
                      (filter has_id ns)))
             (log_request
                (post_request url (draft_title note) (draft_content note)) w)))
  /\ (forall (E : VariantA.ArraySort) apiBase note w r body normalized w2,
        truthy apiBase = true ->
        answers (post_request (apiBase ++ "/notes")
                   (draft_title note) (draft_content note)) r w ->
        ok r = true -> res_status r <> 204 ->
        includes "application/json" (or_empty (res_content_type r)) = true ->
        res_json r = Some body ->
        VariantA.normalizeNote body
          (log_request (post_request (apiBase ++ "/notes")
                          (draft_title note) (draft_content note)) w)
        = (Return normalized, w2) ->
        holds_note_objects (storage w) ->
        exists existing w3,
          VariantA.loadLocalNotes w2 = (Return existing, w3)
          /\ VariantA.createNote apiBase note w
             = (Return normalized,
                set_storage
                  (encoded_A
                     (normalized
                      :: filter (fun n => negb (String.eqb (VariantA.id n)
                                                           (VariantA.id normalized)))
                           existing))
                  w3))
  /\ (forall (E : VariantA.ArraySort) apiBase note w r body normalized w2 l,
        truthy apiBase = true ->
        answers (post_request (apiBase ++ "/notes")
                   (draft_title note) (draft_content note)) r w ->
        ok r = true -> res_status r <> 204 ->
        includes "application/json" (or_empty (res_content_type r)) = true ->
        res_json r = Some body ->
        VariantA.normalizeNote body
          (log_request (post_request (apiBase ++ "/notes")
                          (draft_title note) (draft_content note)) w)
        = (Return normalized, w2) ->
        storage w = encoded_A l ->
        VariantA.createNote apiBase note w
        = (Return normalized,
           set_storage
             (encoded_A
                (normalized
                 :: filter (fun n => negb (String.eqb (VariantA.id n)
                                                      (VariantA.id normalized)))
                      (VariantA.sort VariantA.by_recency l)))
             w2)).
Proof.
  repeat apply conj.
  - intros url note w r body created Hurl Hans Hok Hjson Hn next.
    split; [|split; [now left | split]].
    + unfold VariantB.createNoteViaApi. rewrite (truthy_true _ Hurl).
      apply try_catch_Return.
      erewrite bind_Return
        by (apply (createNoteOnBackend_created _ _ r body); eassumption).
      erewrite bind_Return by apply loadLocalNotesReadOnly_total.
      rewrite (cached_B_storage _ w) by reflexivity.
      reflexivity.
    + apply (merged_once VariantB.id).
    + intros n. apply (merged_keeps_others VariantB.id).
  - intros E apiBase note w r body normalized w2 existing w3
           Hbase Hans Hok H204 Hct Hjson Hn Hl next.
    split; [|split; [now left | split]].
    + eapply createNote_via_api; [exact Hbase | | exact Hn | exact Hl].
      now apply (tryApiFetch_json _ _ _ _ r).
    + apply (merged_once VariantA.id).
    + intros n. apply (merged_keeps_others VariantA.id).
  - intros url note w r body created ns Hurl Hans Hok Hjson Hn Hs.
    rewrite <- (cached_B_encoded w ns Hs).
    unfold VariantB.createNoteViaApi. rewrite (truthy_true _ Hurl).
    apply try_catch_Return.
    erewrite bind_Return
      by (apply (createNoteOnBackend_created _ _ r body); eassumption).
    erewrite bind_Return by apply loadLocalNotesReadOnly_total.
    rewrite (cached_B_storage _ w) by reflexivity.
    reflexivity.
  - intros E apiBase note w r body normalized w2
           Hbase Hans Hok H204 Hct Hjson Hn Hcache.
    assert (Hs : storage w2 = storage w).
    { destruct (clock_only_normalizeNote body
                  (log_request (post_request (apiBase ++ "/notes")
                                  (draft_title note) (draft_content note)) w))
        as [k Hk].
      rewrite Hn in Hk. simpl in Hk. now rewrite Hk. }
    destruct (loadLocalNotes_returns w2) as (existing & w3 & Hl);
      [now rewrite Hs|].
    exists existing, w3. split; [exact Hl|].
    eapply createNote_via_api; [exact Hbase | | exact Hn | exact Hl].
    now apply (tryApiFetch_json _ _ _ _ r).
  - intros E apiBase note w r body normalized w2 l
           Hbase Hans Hok H204 Hct Hjson Hn Hcache.
    assert (Hs : storage w2 = storage w).
    { destruct (clock_only_normalizeNote body
                  (log_request (post_request (apiBase ++ "/notes")
                                  (draft_title note) (draft_content note)) w))
        as [k Hk].
      rewrite Hn in Hk. simpl in Hk. now rewrite Hk. }
    eapply createNote_via_api; [exact Hbase | | exact Hn | ].
    + now apply (tryApiFetch_json _ _ _ _ r).
    + apply loadLocalNotes_written. now rewrite Hs.
Qed.

Lemma C6_created_note_is_merged_into_cache_witness :
  let answer := mkResponse 201 (Some "application/json") "" (Some taxes_json) in
  let stale_B := VariantB.mkNote "2" "Taxes (draft)" "" "2024-04-19T08:00:00.000Z" in
  let stale_A := VariantA.mkNote "2" "Taxes (draft)" "" "2024-04-19T08:00:00.000Z"
                   "2024-04-19T08:00:00.000Z" in
  let w_B := sample_world (encoded_B [groceries_B; stale_B])
               (fun _ _ => Responded answer) in
  let w_A := sample_world (encoded_A [groceries_A; stale_A])
               (fun _ _ => Responded answer) in
  VariantB.createNoteViaApi "http://api/notes" (mkDraft "Taxes" "due") w_B
  = (Return taxes_B,
     set_storage (encoded_B [taxes_B; groceries_B])
       (log_request (post_request "http://api/notes" "Taxes" "due") w_B))
  /\ VariantA.createNote (E := VariantA.v8) "http://api" (mkDraft "Taxes" "due") w_A
     = (Return taxes_A,
        set_storage (encoded_A [taxes_A; groceries_A])
          (log_request (post_request "http://api/notes" "Taxes" "due") w_A)).
Proof.
  intros answer stale_B stale_A w_B w_A.
  destruct C6_created_note_is_merged_into_cache as (_ & _ & HB & _ & HA).
  split.
  - exact (HB "http://api/notes" (mkDraft "Taxes" "due") w_B answer taxes_json
             taxes_B [groceries_B; stale_B]
             eq_refl eq_refl eq_refl eq_refl eq_refl eq_refl).
  - apply (HA VariantA.v8 "http://api" (mkDraft "Taxes" "due") w_A answer
             taxes_json taxes_A
             (log_request (post_request "http://api/notes" "Taxes" "due") w_A)
             [groceries_A; stale_A]);
      [ reflexivity | reflexivity | reflexivity | discriminate
      | reflexivity | reflexivity | reflexivity | reflexivity ].
Defined.

(** ** Configuration *)

Lemma or_empty_Some s : or_empty (Some s) = s.
Proof.
  unfold or_empty, or_else, truthy.
  destruct (String.eqb_spec s ""); simpl; congruence.
Qed.


(** C7, as stated, fails on variant A: with the host set and the path
    prefix absent the API base is the host, and the listing sends a request
    to it. *)
Lemma C7_lenient_variant_needs_one_value_only :
  VariantA.App_apiBase None (Some "http://localhost:8000") = "http://localhost:8000"
  /\ net_log (snd (VariantA.loadNotes (E := VariantA.v8)
                     (VariantA.App_apiBase None (Some "http://localhost:8000"))
                     (sample_world None network_down)))
     = [get_request "http://localhost:8000/notes"].
Proof. split; vm_compute; reflexivity. Qed.

(** C7, amended.  Variant B: the remote mode is on only when the host
    (after one trailing slash is dropped) and the path prefix are both
    non-empty, the URL is then host, prefix (with a leading slash) and
    "/notes"; when either is absent or empty the URL is empty, the listing
    reads the cache only and a create is refused, neither touching network or
    storage.  Variant A: the API base is the path prefix when it is set,
    otherwise the host, one trailing slash dropped; it is empty when both are
    absent or empty, and then no operation sends a request. *)
Theorem C7_remote_mode_configuration :
  (forall host prefix,
      VariantB.apiConfigured (VariantB.App_config host prefix) = true ->
      dropTrailingSlash (or_empty host) <> "" /\ or_empty prefix <> ""
      /\ VariantB.notesUrl (VariantB.App_config host prefix)
         = dropTrailingSlash (or_empty host)
           ++ (if startsWith "/" (or_empty prefix) then or_empty prefix
               else "/" ++ or_empty prefix)
           ++ "/notes")
  /\ (forall host prefix,
        or_empty host = "" \/ or_empty prefix = "" ->
        VariantB.App_config host prefix = VariantB.mkConfig "" false)
  /\ (forall w note,
        VariantB.loadNotesFromApiOrFallback "" w
        = (Return (VariantB.mkLoaded (cached_B w) true), w)
        /\ VariantB.createNoteViaApi "" note w
           = (Throw (mkError PlainError "Backend API is not configured."), w))
  /\ (forall prefix host,
        VariantA.App_apiBase prefix host
        = dropTrailingSlash (or_else prefix (or_empty host)))
  /\ (forall prefix host,
        or_empty prefix = "" -> or_empty host = "" ->
        VariantA.App_apiBase prefix host = "")
  /\ (forall (E : VariantA.ArraySort),
        sends_nothing (VariantA.loadNotes "")
        /\ (forall note, sends_nothing (VariantA.createNote "" note))
        /\ (forall id patch, sends_nothing (VariantA.updateNote "" id patch))
        /\ (forall id, sends_nothing (VariantA.deleteNote "" id))).
Proof.
  repeat apply conj.
  - intros host prefix. unfold VariantB.App_config.
    cbn [VariantB.apiConfigured VariantB.notesUrl].
    set (backend := dropTrailingSlash (or_empty host)).
    set (p := or_empty prefix).
    destruct (truthy backend) eqn:Hh; [|discriminate].
    destruct (truthy p) eqn:Hp; [|discriminate].
    apply truthy_iff in Hh. apply truthy_iff in Hp.
    destruct (startsWith "/" p) eqn:Hs; intros Hc; cbn [andb] in Hc; rewrite Hc;
      now repeat split.
  - intros host prefix [H | H]; unfold VariantB.App_config; rewrite H; simpl.
    + reflexivity.
    + now rewrite andb_false_r.
  - intros w note. split; [apply no_remote_listing | reflexivity].
  - intros prefix host. unfold VariantA.App_apiBase.
    now rewrite or_empty_Some.
  - intros prefix host Hp Hh. unfold VariantA.App_apiBase.
    rewrite or_empty_Some. unfold or_empty in Hp, Hh. now rewrite Hh, Hp.
  - intros E. repeat split.
    + apply loadNotes_offline.
    + apply createNote_offline.
    + apply updateNote_offline.
    + apply deleteNote_offline.
Qed.

Lemma C7_remote_mode_configuration_witness :
  (dropTrailingSlash (or_empty (Some "http://localhost:8000/")) <> ""
   /\ or_empty (Some "api") <> ""
   /\ VariantB.notesUrl
        (VariantB.App_config (Some "http://localhost:8000/") (Some "api"))
      = "http://localhost:8000/api/notes")
  /\ VariantB.App_config (Some "http://localhost:8000") None
     = VariantB.mkConfig "" false
  /\ VariantA.App_apiBase None (Some "") = "".
Proof.
  destruct C7_remote_mode_configuration as (H1 & H2 & _ & _ & H5 & _).
  split; [|split].
  - apply (H1 (Some "http://localhost:8000/") (Some "api")). reflexivity.
  - apply H2. right. reflexivity.
  - apply H5; reflexivity.
Defined.

(** ** Creating and deleting without the backend *)

(** C8, as stated, fails on variant A: the network is down and the cache
    holds a text that is not JSON.  [createNote] then does neither of the two
    things: it makes no local record, it raises the error of [JSON.parse],
    which is not the offline error, and it leaves the cache as it was. *)
Lemma C8_lenient_create_on_text_that_is_not_json :
  let w := sample_world (Some (Unparsable "not json")) network_down in
  unreachable (post_request "http://api/notes" "Taxes" "due") w
  /\ exists e w',
       VariantA.createNote (E := VariantA.v8) "http://api" (mkDraft "Taxes" "due") w
       = (Throw e, w')
       /\ err_class e = SyntaxError
       /\ err_class VariantB.offline_error = PlainError
       /\ storage w' = Some (Unparsable "not json").
Proof.
  cbv zeta. split; [vm_compute; reflexivity|].
  eexists. eexists. split; [vm_compute; reflexivity|].
  split; [|split]; reflexivity.
Qed.

(** C8, amended.  When the create request fails at the transport, variant B
    throws the offline error and leaves the cache as it was, whatever the
    cache holds.  Variant A, whenever [loadLocalNotes] reads the cache, which
    it does for every cache that holds no item, the empty text or an array of
    note objects, makes up a record from the draft, clock and random source,
    puts it in front of the notes read, writes that list and returns the
    record.  Neither variant does part of the other's policy: B never writes,
    and A, when it reads the cache, never throws. *)
Theorem C8_create_while_unreachable :
  (forall url note w,
      truthy url = true ->
      unreachable (post_request url (draft_title note) (draft_content note)) w ->
      VariantB.createNoteViaApi url note w
      = (Throw VariantB.offline_error,
         log_request (post_request url (draft_title note) (draft_content note)) w)
      /\ storage (snd (VariantB.createNoteViaApi url note w)) = storage w)
  /\ (forall (E : VariantA.ArraySort) apiBase note w existing w',
        truthy apiBase = true ->
        unreachable (post_request (apiBase ++ "/notes")
                       (draft_title note) (draft_content note)) w ->
        let w0 := log_request (post_request (apiBase ++ "/notes")
                                 (draft_title note) (draft_content note)) w in
        VariantA.loadLocalNotes (tick (tick (tick (tick w0))))
        = (Return existing, w') ->
        VariantA.createNote apiBase note w
        = (Return (local_record note w0),
           set_storage (encoded_A (local_record note w0 :: existing)) w')
        /\ VariantA.title (local_record note w0) = draft_title note
        /\ VariantA.content (local_record note w0) = draft_content note)
  /\ (forall (E : VariantA.ArraySort) apiBase note w,
        truthy apiBase = true ->
        unreachable (post_request (apiBase ++ "/notes")
                       (draft_title note) (draft_content note)) w ->
        holds_note_objects (storage w) ->
        let w0 := log_request (post_request (apiBase ++ "/notes")
                                 (draft_title note) (draft_content note)) w in
        exists existing w',
          VariantA.loadLocalNotes (tick (tick (tick (tick w0))))
          = (Return existing, w')
          /\ VariantA.createNote apiBase note w
             = (Return (local_record note w0),
                set_storage (encoded_A (local_record note w0 :: existing)) w'))
  /\ (forall (E : VariantA.ArraySort) apiBase note w l,
        truthy apiBase = true ->
        unreachable (post_request (apiBase ++ "/notes")
                       (draft_title note) (draft_content note)) w ->
        storage w = encoded_A l ->
        let w0 := log_request (post_request (apiBase ++ "/notes")
                                 (draft_title note) (draft_content note)) w in
        VariantA.createNote apiBase note w
        = (Return (local_record note w0),
           set_storage
             (encoded_A (local_record note w0 :: VariantA.sort VariantA.by_recency l))
             (tick (tick (tick (tick w0)))))).
Proof.
  assert (Hlocal : forall (E : VariantA.ArraySort) apiBase note w existing w',
             truthy apiBase = true ->
             unreachable (post_request (apiBase ++ "/notes")
                            (draft_title note) (draft_content note)) w ->
             VariantA.loadLocalNotes
               (tick (tick (tick (tick
                  (log_request (post_request (apiBase ++ "/notes")
                                  (draft_title note) (draft_content note)) w)))))
             = (Return existing, w') ->
             VariantA.createNote apiBase note w
             = (Return
                  (local_record note
                     (log_request (post_request (apiBase ++ "/notes")
                                     (draft_title note) (draft_content note)) w)),
                set_storage
                  (encoded_A
                     (local_record note
                        (log_request (post_request (apiBase ++ "/notes")
                                        (draft_title note) (draft_content note)) w)
                      :: existing))
                  w')).
  { intros E apiBase note w existing w' Hbase H Hl.
    apply createNote_locally; [|exact Hl].
    eapply attempt_Throw; [exact Hbase|].
    erewrite bind_Throw by (apply tryApiFetch_unreachable; exact H).
    reflexivity. }
  repeat apply conj.
  - intros url note w Hurl H.
    assert (Hrun : VariantB.createNoteViaApi url note w
                   = (Throw VariantB.offline_error,
                      log_request (post_request url (draft_title note)
                                     (draft_content note)) w)).
    { unfold VariantB.createNoteViaApi. rewrite (truthy_true _ Hurl).
      erewrite try_catch_Throw
        by (erewrite bind_Throw
              by (apply createNoteOnBackend_unreachable; exact H);
            reflexivity).
      reflexivity. }
    rewrite Hrun. now split.
  - intros E apiBase note w existing w' Hbase H w0 Hl.
    split; [|now split]. now apply Hlocal.
  - intros E apiBase note w Hbase H Hcache w0.
    destruct (loadLocalNotes_returns (tick (tick (tick (tick w0)))) Hcache)
      as (existing & w' & Hl).
    exists existing, w'. split; [exact Hl|]. now apply Hlocal.
  - intros E apiBase note w l Hbase H Hs w0.
    apply Hlocal; [exact Hbase | exact H|].
    now apply loadLocalNotes_written.
Qed.

Lemma C8_create_while_unreachable_witness :
  let w_B := sample_world (encoded_B [groceries_B]) network_down in
  let w_A := sample_world (encoded_A [groceries_A]) network_down in
  let made := VariantA.mkNote "note_9f3c2a_1714557600000" "Taxes" "due"
                "2024-05-01T10:00:00.003Z" "2024-05-01T10:00:00.002Z" in
  (VariantB.createNoteViaApi "http://api/notes" (mkDraft "Taxes" "due") w_B
   = (Throw VariantB.offline_error,
      log_request (post_request "http://api/notes" "Taxes" "due") w_B)
   /\ storage (snd (VariantB.createNoteViaApi "http://api/notes"
                      (mkDraft "Taxes" "due") w_B))
      = storage w_B)
  /\ VariantA.createNote (E := VariantA.v8) "http://api" (mkDraft "Taxes" "due") w_A
     = (Return made,
        set_storage (encoded_A [made; groceries_A])
          (tick (tick (tick (tick
             (log_request (post_request "http://api/notes" "Taxes" "due") w_A)))))).
Proof.
  intros w_B w_A made.
  destruct C8_create_while_unreachable as (HB & _ & _ & HA). split.
  - apply (HB "http://api/notes" (mkDraft "Taxes" "due")); reflexivity.
  - exact (HA VariantA.v8 "http://api" (mkDraft "Taxes" "due") w_A [groceries_A]
             eq_refl eq_refl eq_refl).
Defined.

(** Variant A, engine-independent part of C9: a delete without an API base
    succeeds whenever the cache can be read, and writes the notes read minus
    those with the given id. *)
Lemma deleteNote_local_writes_filtered (E : VariantA.ArraySort) id_ w existing w' :
  VariantA.loadLocalNotes w = (Return existing, w') ->
  VariantA.deleteNote "" id_ w
  = (Return tt,
     set_storage
       (encoded_A
          (filter (fun n => negb (String.eqb (VariantA.id n) id_)) existing)) w').
Proof. apply deleteNote_local. Qed.

(** Notes with equal [updatedAt] on V8.  The cache holds two such notes;
    deleting an id that is not there rewrites the cache with the two notes
    swapped, and deleting it once more swaps them back. *)
Lemma delete_reorders_equal_stamps_on_v8 :
  let lunch := VariantA.mkNote "a" "Lunch" "" "2024-05-01T09:00:00.000Z"
                 "2024-05-01T09:00:00.000Z" in
  let dinner := VariantA.mkNote "b" "Dinner" "" "2024-05-01T09:00:00.000Z"
                  "2024-05-01T09:00:00.000Z" in
  let w := sample_world (encoded_A [lunch; dinner]) network_down in
  let once := snd (VariantA.deleteNote (E := VariantA.v8) "" "zzz" w) in
  let twice := snd (VariantA.deleteNote (E := VariantA.v8) "" "zzz" once) in
  fst (VariantA.deleteNote (E := VariantA.v8) "" "zzz" w) = Return tt
  /\ storage once = encoded_A [dinner; lunch]
  /\ storage twice = encoded_A [lunch; dinner]
  /\ storage once <> storage w
  /\ storage twice <> storage once.
Proof.
  cbv zeta. repeat split; try (vm_compute; reflexivity); vm_compute; discriminate.
Qed.

(** C9, as stated, fails in two ways.  The cache holds two notes with
    different [updatedAt], the older one first, as a listing the server
    answered in that order leaves it: deleting an id that is not there
    succeeds but rewrites the cache most recent first, on V8 and on the stable
    engine alike.  And when the cache holds a text that is not JSON, the
    delete does not succeed: it raises the error of [JSON.parse]. *)
Lemma C9_delete_of_absent_id_rewrites_the_cache :
  let w := sample_world (encoded_A [groceries_A; taxes_A]) network_down in
  let unread := sample_world (Some (Unparsable "not json")) network_down in
  VariantA.deleteNote (E := VariantA.v8) "" "zzz" w
  = (Return tt, set_storage (encoded_A [taxes_A; groceries_A]) w)
  /\ VariantA.deleteNote (E := VariantA.stable) "" "zzz" w
     = (Return tt, set_storage (encoded_A [taxes_A; groceries_A]) w)
  /\ encoded_A [taxes_A; groceries_A] <> storage w
  /\ exists e,
       VariantA.deleteNote (E := VariantA.v8) "" "zzz" unread = (Throw e, unread)
       /\ err_class e = SyntaxError.
Proof.
  cbv zeta. split; [vm_compute; reflexivity|].
  split; [vm_compute; reflexivity|].
  split; [vm_compute; discriminate|].
  eexists. split; vm_compute; reflexivity.
Qed.

(** C9, amended.  On an engine that orders by recency, a delete in
    local-only mode succeeds for every cache its reader can read (no item,
    the empty text, an array of note objects) and stores the notes read, in
    the order the reader gives them, minus those with the id.  For a cache
    the adapter wrote, the notes stored are exactly the cached notes with
    another id, most recent first.  So deleting an id that is not there keeps
    the same notes and may reorder them; it leaves the cache unchanged when
    the cache was most recent first with pairwise different [updatedAt].
    Deleting the id once more changes nothing when the notes left have
    pairwise different [updatedAt]. *)
Theorem C9_local_delete :
  forall (E : VariantA.ArraySort),
    VariantA.sorts_by_recency E ->
    (forall id_ w,
        holds_note_objects (storage w) ->
        exists existing w',
          VariantA.loadLocalNotes w = (Return existing, w')
          /\ VariantA.deleteNote "" id_ w
             = (Return tt,
                set_storage
                  (encoded_A
                     (filter (fun n => negb (String.eqb (VariantA.id n) id_))
                        existing))
                  w'))
    /\ (forall id_ w l,
          storage w = encoded_A l ->
          let kept :=
            filter (fun n => negb (String.eqb (VariantA.id n) id_))
              (VariantA.sort VariantA.by_recency l) in
          let once := set_storage (encoded_A kept) w in
          VariantA.deleteNote "" id_ w = (Return tt, once)
          /\ (forall n, In n kept <-> In n l /\ VariantA.id n <> id_)
          /\ VariantA.most_recent_first kept
          /\ (~ In id_ (map VariantA.id l) -> Permutation kept l)
          /\ (~ In id_ (map VariantA.id l) ->
              VariantA.most_recent_first l ->
              NoDup (map VariantA.updatedAt l) ->
              storage once = storage w)
          /\ (NoDup (map VariantA.updatedAt kept) ->
              VariantA.deleteNote "" id_ once = (Return tt, once))).
Proof.
  intros E Hsort. split.
  - intros id_ w Hcache.
    destruct (loadLocalNotes_returns w Hcache) as (existing & w' & Hl).
    exists existing, w'. split; [exact Hl | now apply deleteNote_local].
  - intros id_ w l Hs kept once.
    pose proof (loadLocalNotes_written l w Hs) as Hread.
    destruct (Hsort l) as [Hperm Hordered].
    assert (Habsent : ~ In id_ (map VariantA.id l) ->
                      kept = VariantA.sort VariantA.by_recency l).
    { intros Hid. apply filter_none_to_drop. intros Hin. apply Hid.
      apply (Permutation_in _ (Permutation_map VariantA.id Hperm) Hin). }
    repeat apply conj.
    + now apply deleteNote_local.
    + intros n. split.
      * intros Hin. apply filter_In in Hin as [Hin Hid].
        split; [apply (Permutation_in _ Hperm Hin)|].
        intros Heq. rewrite Heq, String.eqb_refl in Hid. discriminate.
      * intros [Hin Hid]. apply filter_In.
        split; [apply (Permutation_in _ (Permutation_sym Hperm) Hin)|].
        apply String.eqb_neq in Hid. now rewrite Hid.
    + now apply most_recent_first_filter.
    + intros Hid. now rewrite (Habsent Hid).
    + intros Hid Hl Hnd. unfold once. cbn [storage set_storage].
      rewrite Hs, (Habsent Hid). f_equal. symmetry.
      apply most_recent_first_unique; trivial. now symmetry.
    + intros Hnd.
      now destruct (deleteNote_twice_distinct_stamps E id_ w _ w Hsort Hread Hnd).
Qed.

Lemma C9_local_delete_witness :
  let w := sample_world (encoded_A [groceries_A; taxes_A]) network_down in
  let once := set_storage (encoded_A [taxes_A]) w in
  VariantA.deleteNote (E := VariantA.v8) "" "1" w = (Return tt, once)
  /\ VariantA.deleteNote (E := VariantA.v8) "" "1" once = (Return tt, once)
  /\ (forall n, In n [taxes_A] <->
                In n [groceries_A; taxes_A] /\ VariantA.id n <> "1").
Proof.
  intros w once.
  destruct (proj2 (C9_local_delete VariantA.v8 v8_sorts_by_recency)
              "1" w [groceries_A; taxes_A] eq_refl)
    as (H1 & H2 & _ & _ & _ & H6).
  split; [exact H1|]. split; [|exact H2].
  apply H6. repeat constructor. intros [].
Defined.

(** The code at the input that breaks C10: the cached array holds an entry
    with no [id]; [String(undefined)] is the text "undefined", which the
    filter keeps, so the entry is returned with that id instead of being
    dropped. *)
Lemma C10_entry_without_id_is_kept :
  let w := sample_world
             (Some (JsonText (JArr [JObj [("title", JStr "Groceries")]])))
             network_down in
  VariantB.loadLocalNotesReadOnly w
  = (Return [VariantB.mkNote "undefined" "Groceries" "" ""], w).
Proof. reflexivity. Qed.

(** * Further properties of the code *)

(** ** Variant B: the cache *)

(** X1: the read of the cache in variant B never throws and changes nothing.
    Every note it returns has a non-empty id.  It returns no note when the
    item is absent, when the text is not JSON, when the JSON value is not an
    array, and also when the array has a [null] entry, whatever else the array
    holds. *)
Theorem cache_read_never_throws :
  forall w, exists ns,
    VariantB.loadLocalNotesReadOnly w = (Return ns, w)
    /\ (forall n, In n ns -> VariantB.id n <> "")
    /\ match storage w with
       | None | Some (Unparsable _) => ns = []
       | Some (JsonText (JArr items)) => In JNull items -> ns = []
       | Some (JsonText _) => ns = []
       end.
Proof.
  intros w. exists (cached_B w). split; [apply loadLocalNotesReadOnly_total|].
  split; [apply cached_B_ids|].
  destruct (storage w) as [[text|v]|] eqn:Hs.
  - apply cached_B_unreadable. now rewrite Hs.
  - destruct v; try (apply cached_B_unreadable; now rewrite Hs).
    now apply cached_B_null_entry.
  - apply cached_B_unreadable. now rewrite Hs.
Qed.

(** X2: what [saveLocalNotesCache] writes, [loadLocalNotesReadOnly] reads
    back: the same notes in the same order, except that the notes whose id is
    the empty text are left out. *)
Theorem cache_round_trip_B :
  forall ns w,
    (VariantB.saveLocalNotesCache ns ;;; VariantB.loadLocalNotesReadOnly) w
    = (Return (filter has_id ns), set_storage (encoded_B ns) w).
Proof.
  intros ns w.
  erewrite bind_Return by reflexivity.
  rewrite loadLocalNotesReadOnly_total.
  now rewrite (cached_B_encoded _ ns).
Qed.

(** X3: after a listing that the backend answered with the notes [ns], a
    listing that finds the backend unreachable returns those notes, marked as
    a fallback, minus the notes whose id is the empty text. *)
Theorem fallback_shows_last_listing :
  forall url w ns w1,
    truthy url = true ->
    VariantB.listNotesFromBackend url w = (Return ns, w1) ->
    let w2 := snd (VariantB.loadNotesFromApiOrFallback url w) in
    unreachable (get_request url) w2 ->
    VariantB.loadNotesFromApiOrFallback url w2
    = (Return (VariantB.mkLoaded (filter has_id ns) true),
       log_request (get_request url) w2).
Proof.
  intros url w ns w1 Hurl Hlist w2 Hdown.
  rewrite (fallback_when_unreachable _ _ Hurl Hdown).
  rewrite (cached_B_encoded w2 ns); [reflexivity|].
  unfold w2. now rewrite (list_success _ _ _ _ Hurl Hlist).
Qed.

Lemma fallback_shows_last_listing_witness :
  let answer := mkResponse 200 (Some "application/json") ""
                  (Some (JArr [groceries_json; taxes_json])) in
  let once := fun (log : list Request) (_ : Request) =>
                match log with
                | [] => Responded answer
                | _ :: _ => NetworkFailure
                end in
  let w := sample_world None once in
  let w2 := snd (VariantB.loadNotesFromApiOrFallback "http://api/notes" w) in
  VariantB.loadNotesFromApiOrFallback "http://api/notes" w2
  = (Return (VariantB.mkLoaded [groceries_B; taxes_B] true),
     log_request (get_request "http://api/notes") w2).
Proof.
  intros answer once w w2.
  apply (fallback_shows_last_listing "http://api/notes" w [groceries_B; taxes_B]
           (log_request (get_request "http://api/notes") w));
    reflexivity.
Defined.

(** X4: when the backend answers the listing with a JSON value that is not
    an array, variant B returns no notes and overwrites the cache with the
    empty list: the notes cached before are lost. *)
Theorem non_array_answer_empties_cache_B :
  forall url w r v,
    truthy url = true -> answers (get_request url) r w ->
    ok r = true -> res_json r = Some v -> isArray v = false ->
    VariantB.loadNotesFromApiOrFallback url w
    = (Return (VariantB.mkLoaded [] false),
       set_storage (encoded_B []) (log_request (get_request url) w)).
Proof.
  intros url w r v Hurl Hans Hok Hjson Harr.
  apply list_success; [exact Hurl|].
  unfold VariantB.listNotesFromBackend.
  erewrite bind_Return by (apply fetch_answers; exact Hans).
  rewrite Hok. cbn [negb]. unfold json. rewrite Hjson.
  erewrite bind_Return by reflexivity.
  destruct v; try reflexivity. discriminate.
Qed.

Lemma non_array_answer_empties_cache_B_witness :
  let wrapped := JObj [("notes", JArr [groceries_json])] in
  let w := sample_world (encoded_B [groceries_B; taxes_B])
             (server 200 "" (Some wrapped)) in
  VariantB.loadNotesFromApiOrFallback "http://api/notes" w
  = (Return (VariantB.mkLoaded [] false),
     set_storage (encoded_B []) (log_request (get_request "http://api/notes") w)).
Proof.
  intros wrapped w.
  apply (non_array_answer_empties_cache_B "http://api/notes" w
           (mkResponse 200 (Some "application/json") "" (Some wrapped)) wrapped);
    reflexivity.
Defined.

(** ** Variant B: creating and loading *)

Section CreateB.
Import VariantB.

Lemma createNoteViaApi_failure url note w e w' :
  truthy url = true ->
  createNoteOnBackend url note w = (Throw e, w') ->
  createNoteViaApi url note w
  = (Throw (if instanceof_TypeError e then offline_error else e), w').
Proof.
  intros Hurl H. unfold createNoteViaApi. rewrite (truthy_true _ Hurl).
  erewrite try_catch_Throw by (erewrite bind_Throw by exact H; reflexivity).
  unfold isNetworkUnreachableError. now destruct (instanceof_TypeError e).
Qed.

Lemma createNoteOnBackend_rejected url note r w :
  answers (post_request url (draft_title note) (draft_content note)) r w ->
  ok r = false ->
  createNoteOnBackend url note w
  = (Throw (mkError PlainError
              ("Failed to create note (" ++ decimal (res_status r) ++ ")"
               ++ (if truthy (res_text r) then ": " ++ res_text r else ""))),
     log_request (post_request url (draft_title note) (draft_content note)) w).
Proof.
  intros H Hok. unfold createNoteOnBackend.
  erewrite bind_Return by (apply fetch_answers; exact H).
  now rewrite Hok.
Qed.

Lemma createNoteOnBackend_null_body url note r w :
  answers (post_request url (draft_title note) (draft_content note)) r w ->
  ok r = true -> res_json r = Some JNull ->
  createNoteOnBackend url note w
  = (Throw (mkError TypeError "Cannot read properties of null (reading 'id')"),
     log_request (post_request url (draft_title note) (draft_content note)) w).
Proof.
  intros H Hok Hjson. unfold createNoteOnBackend.
  erewrite bind_Return by (apply fetch_answers; exact H).
  rewrite Hok. cbn [negb]. unfold json. rewrite Hjson.
  erewrite bind_Return by reflexivity. reflexivity.
Qed.

Lemma createNoteViaApi_created url note w r body created :
  truthy url = true ->
  answers (post_request url (draft_title note) (draft_content note)) r w ->
  ok r = true -> res_json r = Some body ->
  normalizeNote body = Return created ->
  createNoteViaApi url note w
  = (Return created,
     set_storage
       (encoded_B
          (created
           :: filter (fun n => negb (String.eqb (id n) (id created))) (cached_B w)))
       (log_request (post_request url (draft_title note) (draft_content note)) w)).
Proof.
  intros Hurl Hans Hok Hjson Hn.
  unfold createNoteViaApi. rewrite (truthy_true _ Hurl).
  apply try_catch_Return.
  erewrite bind_Return
    by (apply (createNoteOnBackend_created _ _ r body); eassumption).
  erewrite bind_Return by apply loadLocalNotesReadOnly_total.
  rewrite (cached_B_storage _ w) by reflexivity.
  reflexivity.
Qed.

End CreateB.

(** X5: a create of variant B that fails leaves the cache as it was.  The
    error of the backend call reaches the caller unchanged unless it is a
    [TypeError], which is replaced by the offline error; a status outside
    200..299 is reported with the status and the text of the answer; an
    answer 2xx whose body is [null] is reported as the backend being
    unreachable. *)
Theorem create_failure_policy_B :
  (forall url note w e w',
      truthy url = true ->
      VariantB.createNoteOnBackend url note w = (Throw e, w') ->
      VariantB.createNoteViaApi url note w
      = (Throw (if instanceof_TypeError e then VariantB.offline_error else e), w')
      /\ storage w' = storage w)
  /\ (forall url note w r,
        truthy url = true ->
        answers (post_request url (draft_title note) (draft_content note)) r w ->
        ok r = false ->
        VariantB.createNoteViaApi url note w
        = (Throw (mkError PlainError
                    ("Failed to create note (" ++ decimal (res_status r) ++ ")"
                     ++ (if truthy (res_text r) then ": " ++ res_text r else ""))),
           log_request
             (post_request url (draft_title note) (draft_content note)) w))
  /\ (forall url note w r,
        truthy url = true ->
        answers (post_request url (draft_title note) (draft_content note)) r w ->
        ok r = true -> res_json r = Some JNull ->
        VariantB.createNoteViaApi url note w
        = (Throw VariantB.offline_error,
           log_request
             (post_request url (draft_title note) (draft_content note)) w)).
Proof.
  split; [|split].
  - intros url note w e w' Hurl H. split; [now apply createNoteViaApi_failure|].
    pose proof (createNoteOnBackend_world url note w) as Hw.
    rewrite H in Hw. simpl in Hw. now rewrite Hw.
  - intros url note w r Hurl Hans Hok.
    now rewrite (createNoteViaApi_failure _ _ _ _ _ Hurl
                   (createNoteOnBackend_rejected _ _ _ _ Hans Hok)).
  - intros url note w r Hurl Hans Hok Hjson.
    now rewrite (createNoteViaApi_failure _ _ _ _ _ Hurl
                   (createNoteOnBackend_null_body _ _ _ _ Hans Hok Hjson)).
Qed.

Lemma create_failure_policy_B_witness :
  let conflict := sample_world (encoded_B [groceries_B])
                    (server 409 "duplicate" None) in
  let empty_body := sample_world (encoded_B [groceries_B])
                      (server 200 "null" (Some JNull)) in
  VariantB.createNoteViaApi "http://api/notes" (mkDraft "Taxes" "due") conflict
  = (Throw (mkError PlainError "Failed to create note (409): duplicate"),
     log_request (post_request "http://api/notes" "Taxes" "due") conflict)
  /\ VariantB.createNoteViaApi "http://api/notes" (mkDraft "Taxes" "due") empty_body
     = (Throw VariantB.offline_error,
        log_request (post_request "http://api/notes" "Taxes" "due") empty_body).
Proof.
  intros conflict empty_body.
  destruct create_failure_policy_B as (_ & H2 & H3). split.
  - apply (H2 "http://api/notes" (mkDraft "Taxes" "due") conflict
              (mkResponse 409 (Some "application/json") "duplicate" None));
      reflexivity.
  - apply (H3 "http://api/notes" (mkDraft "Taxes" "due") empty_body
              (mkResponse 200 (Some "application/json") "null" (Some JNull)));
      reflexivity.
Defined.

(** X6: [handleSave] of variant B with a draft that passes the validation.
    While a note is being edited it only shows that editing is unsupported
    and touches nothing.  Otherwise, when the backend is unreachable, the
    notes shown, the draft and the open editor stay as they are, the offline
    message is shown and the cache is not written; when the backend answers
    with the created note, that note is put first in the notes shown and in
    the cache, the editor is closed and the draft is cleared. *)
Theorem handleSave_B_outcomes :
  (forall cfg s w,
      VariantB.validateDraft (VariantB.draft s) = "" ->
      VariantB.is_editing (VariantB.editingId s) = true ->
      VariantB.handleSave cfg s w
      = (VariantB.set_error VariantB.editing_unsupported s, w))
  /\ (forall cfg s w,
        VariantB.validateDraft (VariantB.draft s) = "" ->
        VariantB.is_editing (VariantB.editingId s) = false ->
        truthy (VariantB.notesUrl cfg) = true ->
        let req := post_request (VariantB.notesUrl cfg)
                     (draft_title (VariantB.draft s))
                     (draft_content (VariantB.draft s)) in
        unreachable req w ->
        VariantB.handleSave cfg s w
        = (VariantB.mkApp (VariantB.app_notes s)
             (VariantB.mkStatus false (message VariantB.offline_error)
                (VariantB.status_usingFallback (VariantB.status s)))
             (VariantB.isEditorOpen s) (VariantB.editingId s) (VariantB.draft s)
             (VariantB.confirmDeleteId s),
           log_request req w))
  /\ (forall cfg s w r body created,
        VariantB.validateDraft (VariantB.draft s) = "" ->
        VariantB.is_editing (VariantB.editingId s) = false ->
        truthy (VariantB.notesUrl cfg) = true ->
        let req := post_request (VariantB.notesUrl cfg)
                     (draft_title (VariantB.draft s))
                     (draft_content (VariantB.draft s)) in
        answers req r w -> ok r = true -> res_json r = Some body ->
        VariantB.normalizeNote body = Return created ->
        VariantB.handleSave cfg s w
        = (VariantB.mkApp (created :: VariantB.app_notes s)
             (VariantB.mkStatus false "" false) false None (mkDraft "" "")
             (VariantB.confirmDeleteId s),
           set_storage
             (encoded_B
                (created
                 :: filter (fun n => negb (String.eqb (VariantB.id n)
                                                      (VariantB.id created)))
                      (cached_B w)))
             (log_request req w))).
Proof.
  split; [|split].
  - intros cfg s w Hv He. unfold VariantB.handleSave. now rewrite Hv, He.
  - intros cfg s w Hv He Hurl req Hdown.
    unfold VariantB.handleSave. rewrite Hv, He. cbn [truthy String.eqb negb].
    rewrite (createNoteViaApi_failure _ _ _ _ _ Hurl
               (createNoteOnBackend_unreachable _ (mkDraft _ _) _ Hdown)).
    reflexivity.
  - intros cfg s w r body created Hv He Hurl req Hans Hok Hjson Hn.
    unfold VariantB.handleSave. rewrite Hv, He. cbn [truthy String.eqb negb].
    now rewrite (createNoteViaApi_created _ (mkDraft _ _) _ r body created
                   Hurl Hans Hok Hjson Hn).
Qed.

Lemma handleSave_B_outcomes_witness :
  let cfg := VariantB.mkConfig "http://api/notes" true in
  let editing := VariantB.mkApp [groceries_B] (VariantB.mkStatus false "" false)
                   true (Some "1") (mkDraft "Groceries" "milk, eggs") None in
  let fresh := VariantB.mkApp [groceries_B] (VariantB.mkStatus false "" true)
                 true None (mkDraft "Taxes" "due") None in
  let down := sample_world (encoded_B [groceries_B]) network_down in
  let up := sample_world (encoded_B [groceries_B])
              (server 201 "" (Some taxes_json)) in
  VariantB.handleSave cfg editing up
  = (VariantB.set_error VariantB.editing_unsupported editing, up)
  /\ VariantB.handleSave cfg fresh down
     = (VariantB.mkApp [groceries_B]
          (VariantB.mkStatus false (message VariantB.offline_error) true)
          true None (mkDraft "Taxes" "due") None,
        log_request (post_request "http://api/notes" "Taxes" "due") down)
  /\ VariantB.handleSave cfg fresh up
     = (VariantB.mkApp [taxes_B; groceries_B] (VariantB.mkStatus false "" false)
          false None (mkDraft "" "") None,
        set_storage (encoded_B [taxes_B; groceries_B])
          (log_request (post_request "http://api/notes" "Taxes" "due") up)).
Proof.
  intros cfg editing fresh down up.
  destruct handleSave_B_outcomes as (H1 & H2 & H3). split; [|split].
  - apply H1; reflexivity.
  - apply (H2 cfg fresh down); reflexivity.
  - apply (H3 cfg fresh up (mkResponse 201 (Some "application/json") ""
                              (Some taxes_json)) taxes_json taxes_B);
      reflexivity.
Defined.

(** X7: the effect of variant B that loads the notes.  When the backend
    answers with a status outside 200..299 no note is shown, the message names
    the status, and the cache is left as it was; when the backend is
    unreachable the cached notes are shown with the fallback flag and no
    message; when no URL is configured the cached notes are shown with the
    flag and nothing is sent. *)
Theorem load_B_outcomes :
  (forall cfg s w r,
      truthy (VariantB.notesUrl cfg) = true ->
      answers (get_request (VariantB.notesUrl cfg)) r w -> ok r = false ->
      VariantB.load cfg s w
      = (VariantB.mkApp []
           (VariantB.mkStatus false
              ("Failed to load notes (" ++ decimal (res_status r) ++ ")"
               ++ (if truthy (res_text r) then ": " ++ res_text r else ""))
              false)
           (VariantB.isEditorOpen s) (VariantB.editingId s) (VariantB.draft s)
           (VariantB.confirmDeleteId s),
         log_request (get_request (VariantB.notesUrl cfg)) w))
  /\ (forall cfg s w,
        truthy (VariantB.notesUrl cfg) = true ->
        unreachable (get_request (VariantB.notesUrl cfg)) w ->
        VariantB.load cfg s w
        = (VariantB.mkApp (cached_B w) (VariantB.mkStatus false "" true)
             (VariantB.isEditorOpen s) (VariantB.editingId s) (VariantB.draft s)
             (VariantB.confirmDeleteId s),
           log_request (get_request (VariantB.notesUrl cfg)) w))
  /\ (forall cfg s w,
        VariantB.notesUrl cfg = "" ->
        VariantB.load cfg s w
        = (VariantB.mkApp (cached_B w) (VariantB.mkStatus false "" true)
             (VariantB.isEditorOpen s) (VariantB.editingId s) (VariantB.draft s)
             (VariantB.confirmDeleteId s),
           w)).
Proof.
  split; [|split].
  - intros cfg s w r Hurl Hans Hok. unfold VariantB.load.
    rewrite (list_error_policy _ _ _ _ Hurl
               (listNotesFromBackend_rejected _ _ _ Hans Hok)).
    reflexivity.
  - intros cfg s w Hurl Hdown. unfold VariantB.load.
    now rewrite (fallback_when_unreachable _ _ Hurl Hdown).
  - intros cfg s w Hurl. unfold VariantB.load.
    now rewrite Hurl, no_remote_listing.
Qed.

Lemma load_B_outcomes_witness :
  let cfg := VariantB.mkConfig "http://api/notes" true in
  let s := VariantB.mkApp [] (VariantB.mkStatus true "" false) false None
             (mkDraft "" "") None in
  let broken := sample_world (encoded_B [groceries_B]) (server 503 "" None) in
  let down := sample_world (encoded_B [groceries_B]) network_down in
  VariantB.load cfg s broken
  = (VariantB.mkApp [] (VariantB.mkStatus false "Failed to load notes (503)" false)
       false None (mkDraft "" "") None,
     log_request (get_request "http://api/notes") broken)
  /\ VariantB.load cfg s down
     = (VariantB.mkApp [groceries_B] (VariantB.mkStatus false "" true)
          false None (mkDraft "" "") None,
        log_request (get_request "http://api/notes") down)
  /\ VariantB.load (VariantB.mkConfig "" false) s down
     = (VariantB.mkApp [groceries_B] (VariantB.mkStatus false "" true)
          false None (mkDraft "" "") None,
        down).
Proof.
  intros cfg s broken down. destruct load_B_outcomes as (H1 & H2 & H3).
  split; [|split].
  - apply (H1 cfg s broken (mkResponse 503 (Some "application/json") "" None));
      reflexivity.
  - apply (H2 cfg s down); reflexivity.
  - apply (H3 (VariantB.mkConfig "" false) s down); reflexivity.
Defined.

(** ** Validation and configuration *)

Lemma length_trimStart s : String.length (trimStart s) <= String.length s.
Proof.
  induction s as [|c rest IH]; simpl; [lia|].
  destruct (is_space c); simpl; lia.
Qed.

Lemma length_trimEnd s : String.length (trimEnd s) <= String.length s.
Proof.
  induction s as [|c rest IH]; simpl; [lia|].
  destruct (trimEnd rest); [destruct (is_space c)|]; simpl in *; lia.
Qed.

Lemma length_trim s : String.length (trim s) <= String.length s.
Proof.
  unfold trim. pose proof (length_trimEnd (trimStart s)).
  pose proof (length_trimStart s). lia.
Qed.

Lemma truthy_false_iff s : truthy s = false <-> s = "".
Proof.
  unfold truthy. destruct (String.eqb_spec s ""); simpl; split; congruence.
Qed.

Lemma blank_test d :
  negb (truthy (trim (draft_title d))) && negb (truthy (trim (draft_content d)))
  = true <-> blank d.
Proof.
  unfold blank. rewrite andb_true_iff, !negb_true_iff, !truthy_false_iff.
  reflexivity.
Qed.

Lemma validateDraft_B_accepts d : VariantB.validateDraft d = "" <-> acceptable d.
Proof.
  unfold VariantB.validateDraft, acceptable.
  pose proof (blank_test d) as Hb.
  destruct (negb (truthy (trim (draft_title d)))
            && negb (truthy (trim (draft_content d)))).
  - split; [discriminate|]. intros [Hn _]. exfalso. now apply Hn, Hb.
  - destruct (Nat.ltb_spec 120 (String.length (trim (draft_title d))))
      as [Hlong | Hshort].
    + split; [discriminate | lia].
    + split; [|reflexivity]. intros _. split; [|lia].
      intros Hblank. apply Hb in Hblank. discriminate.
Qed.

Lemma validateDraft_A_accepts d : VariantA.validateDraft d = "" <-> acceptable d.
Proof.
  unfold VariantA.validateDraft, acceptable.
  pose proof (blank_test d) as Hb.
  destruct (negb (truthy (trim (draft_title d)))
            && negb (truthy (trim (draft_content d)))).
  - split; [discriminate|]. intros [Hn _]. exfalso. now apply Hn, Hb.
  - destruct (Nat.ltb_spec 120 (String.length (trim (draft_title d))))
      as [Hlong | Hshort].
    + split; [discriminate | lia].
    + split; [|reflexivity]. intros _. split; [|lia].
      intros Hblank. apply Hb in Hblank. discriminate.
Qed.

(** X8: in both variants [validateDraft] gives no message exactly when the
    trimmed title or the trimmed content is not empty and the trimmed title
    has at most 120 characters.  So a draft whose title has at most 120
    characters, which is all the title input lets through, is refused only
    for being blank. *)
Theorem validateDraft_accepts_iff :
  (forall d, VariantB.validateDraft d = "" <-> acceptable d)
  /\ (forall d, VariantA.validateDraft d = "" <-> acceptable d)
  /\ (forall d,
        String.length (draft_title d) <= 120 -> ~ blank d ->
        VariantB.validateDraft d = "" /\ VariantA.validateDraft d = "").
Proof.
  split; [apply validateDraft_B_accepts | split; [apply validateDraft_A_accepts|]].
  intros d Hlen Hnb.
  assert (Hacc : acceptable d).
  { split; [exact Hnb|]. pose proof (length_trim (draft_title d)). lia. }
  split; [now apply validateDraft_B_accepts | now apply validateDraft_A_accepts].
Qed.

Lemma validateDraft_accepts_iff_witness :
  VariantB.validateDraft (mkDraft "  Taxes " "") = ""
  /\ VariantA.validateDraft (mkDraft "  Taxes " "") = "".
Proof.
  destruct validateDraft_accepts_iff as (_ & _ & H).
  apply (H (mkDraft "  Taxes " "")).
  - simpl. lia.
  - intros [Ht _]. discriminate Ht.
Defined.

Lemma dropTrailingSlash_slash h : dropTrailingSlash (h ++ "/") = h.
Proof.
  induction h as [|c rest IH]; [reflexivity|].
  simpl. rewrite IH. now destruct rest.
Qed.

(** X9: the configuration of variant B does not depend on a slash that ends
    the host or on a slash that starts the path prefix: a host without a
    trailing slash gives the same URL as that host followed by a slash, and a
    non-empty prefix without a leading slash gives the same URL as that prefix
    after a slash. *)
Theorem App_config_ignores_joining_slashes :
  (forall h prefix,
      dropTrailingSlash h = h ->
      VariantB.App_config (Some (h ++ "/")) prefix
      = VariantB.App_config (Some h) prefix)
  /\ (forall host p,
        p <> "" -> startsWith "/" p = false ->
        VariantB.App_config host (Some ("/" ++ p))
        = VariantB.App_config host (Some p)).
Proof.
  split.
  - intros h prefix Hh. unfold VariantB.App_config.
    now rewrite !or_empty_Some, dropTrailingSlash_slash, Hh.
  - intros host p Hp Hs. unfold VariantB.App_config.
    rewrite !or_empty_Some, Hs.
    apply truthy_iff in Hp. rewrite Hp.
    assert (Hslash : startsWith "/" ("/" ++ p) = true) by now destruct p.
    rewrite Hslash. reflexivity.
Qed.

Lemma App_config_ignores_joining_slashes_witness :
  VariantB.App_config (Some "http://localhost:8000/") (Some "/api")
  = VariantB.App_config (Some "http://localhost:8000") (Some "api").
Proof.
  destruct App_config_ignores_joining_slashes as [H1 H2].
  transitivity (VariantB.App_config (Some "http://localhost:8000") (Some "/api")).
  - exact (H1 "http://localhost:8000" (Some "/api") eq_refl).
  - apply (H2 (Some "http://localhost:8000") "api"); [discriminate | reflexivity].
Defined.

(** ** Variant A: the cache and the API calls *)

Section ApiA.
Import VariantA.
Context {E : ArraySort}.

Lemma tryApiFetch_world url method headers body w :
  snd (tryApiFetch url method headers body w)
  = log_request (mkRequest url method headers body) w.
Proof.
  unfold tryApiFetch, bind, fetch.
  destruct (remote w (net_log w) _) as [|r]; [reflexivity|].
  destruct (negb (ok r)); [reflexivity|].
  destruct (res_status r =? 204)%nat; [reflexivity|].
  destruct (negb (includes "application/json" (or_empty (res_content_type r))));
    [reflexivity|].
  unfold json. now destruct (res_json r).
Qed.

Lemma tryApiFetch_no_content url method headers body r w :
  answers (mkRequest url method headers body) r w -> res_status r = 204 ->
  tryApiFetch url method headers body w
  = (Return JNull, log_request (mkRequest url method headers body) w).
Proof.
  intros H H204. unfold tryApiFetch.
  erewrite bind_Return by (apply fetch_answers; exact H).
  unfold ok. now rewrite H204.
Qed.

Lemma tryApiFetch_not_json_type url method headers body r w :
  answers (mkRequest url method headers body) r w ->
  ok r = true -> res_status r <> 204 ->
  includes "application/json" (or_empty (res_content_type r)) = false ->
  tryApiFetch url method headers body w
  = (Throw (mkError PlainError
              ("API returned non-JSON response."
               ++ (if truthy (res_text r) then " " ++ res_text r else ""))),
     log_request (mkRequest url method headers body) w).
Proof.
  intros H Hok H204 Hct. unfold tryApiFetch.
  erewrite bind_Return by (apply fetch_answers; exact H).
  rewrite Hok. cbn [negb]. apply Nat.eqb_neq in H204. rewrite H204.
  now rewrite Hct.
Qed.

Lemma sort_nil : sorts_by_recency E -> sort by_recency [] = [].
Proof. intros H. destruct (H []) as [Hp _]. now apply Permutation_nil. Qed.

Lemma loadNotes_not_an_array apiBase w v w1 :
  sorts_by_recency E ->
  truthy apiBase = true ->
  apiListNotes apiBase w = (Return v, w1) -> isArray v = false ->
  loadNotes apiBase w = (Return [], set_storage (encoded_A []) w1).
Proof.
  intros Hsort Hbase Hlist Harr.
  rewrite (loadNotes_success apiBase w v w1 [] w1 Hbase Hlist).
  - now rewrite sort_nil.
  - destruct v; try reflexivity. discriminate.
Qed.

End ApiA.

(** X10: what [saveLocalNotes] of variant A writes, [loadLocalNotes] reads
    back without a look at the clock: the notes written, in the order the
    engine's sort puts them; on an engine that orders by recency these are the
    same notes, most recent first. *)
Theorem cache_round_trip_A :
  forall (E : VariantA.ArraySort) l w,
    (VariantA.saveLocalNotes l ;;; VariantA.loadLocalNotes) w
    = (Return (VariantA.sort VariantA.by_recency l), set_storage (encoded_A l) w)
    /\ (VariantA.sorts_by_recency E ->
        Permutation (VariantA.sort VariantA.by_recency l) l
        /\ VariantA.most_recent_first (VariantA.sort VariantA.by_recency l)).
Proof.
  intros E l w. split; [|intros H; apply H].
  erewrite bind_Return by apply saveLocalNotes_run.
  now apply loadLocalNotes_written.
Qed.

Lemma cache_round_trip_A_witness :
  let w := sample_world None network_down in
  (VariantA.saveLocalNotes [groceries_A; taxes_A] ;;;
   VariantA.loadLocalNotes (E := VariantA.v8)) w
  = (Return [taxes_A; groceries_A],
     set_storage (encoded_A [groceries_A; taxes_A]) w)
  /\ Permutation [taxes_A; groceries_A] [groceries_A; taxes_A]
  /\ VariantA.most_recent_first [taxes_A; groceries_A].
Proof.
  intros w.
  destruct (cache_round_trip_A VariantA.v8 [groceries_A; taxes_A] w) as [H1 H2].
  split; [exact H1 | exact (H2 v8_sorts_by_recency)].
Defined.

(** X11: in variant A an answer 2xx to the listing that carries no array,
    be it status 204 or a JSON value that is not an array, makes [loadNotes]
    return no notes and overwrite the cache with the empty list. *)
Theorem non_array_answer_empties_cache_A :
  forall (E : VariantA.ArraySort) apiBase w r,
    VariantA.sorts_by_recency E ->
    truthy apiBase = true ->
    answers (get_request (apiBase ++ "/notes")) r w ->
    res_status r = 204
    \/ (ok r = true /\ res_status r <> 204
        /\ includes "application/json" (or_empty (res_content_type r)) = true
        /\ exists v, res_json r = Some v /\ isArray v = false) ->
    VariantA.loadNotes apiBase w
    = (Return [],
       set_storage (encoded_A [])
         (log_request (get_request (apiBase ++ "/notes")) w)).
Proof.
  intros E apiBase w r Hsort Hbase Hans [H204 | (Hok & H204 & Hct & v & Hjson & Harr)].
  - apply (loadNotes_not_an_array apiBase w JNull); trivial.
    now apply (tryApiFetch_no_content _ _ _ _ r).
  - apply (loadNotes_not_an_array apiBase w v); trivial.
    now apply (tryApiFetch_json _ _ _ _ r).
Qed.

Lemma non_array_answer_empties_cache_A_witness :
  let w := sample_world (encoded_A [groceries_A; taxes_A]) (server 204 "" None) in
  VariantA.loadNotes (E := VariantA.v8) "http://api" w
  = (Return [],
     set_storage (encoded_A []) (log_request (get_request "http://api/notes") w)).
Proof.
  intros w.
  apply (non_array_answer_empties_cache_A VariantA.v8 "http://api" w
           (mkResponse 204 (Some "application/json") "" None)
           v8_sorts_by_recency eq_refl eq_refl).
  left. reflexivity.
Defined.

(** X12: [tryApiFetch] sends exactly one request and touches nothing else,
    whatever the outcome.  An answer with status 204 gives [null] whatever
    its body; an answer 2xx whose content type does not name
    application/json is refused with an error that quotes the body, even when
    the body is JSON. *)
Theorem tryApiFetch_outcomes :
  (forall url method headers body w,
      snd (VariantA.tryApiFetch url method headers body w)
      = log_request (mkRequest url method headers body) w)
  /\ (forall url method headers body r w,
        answers (mkRequest url method headers body) r w -> res_status r = 204 ->
        fst (VariantA.tryApiFetch url method headers body w) = Return JNull)
  /\ (forall url method headers body r w,
        answers (mkRequest url method headers body) r w ->
        ok r = true -> res_status r <> 204 ->
        includes "application/json" (or_empty (res_content_type r)) = false ->
        fst (VariantA.tryApiFetch url method headers body w)
        = Throw (mkError PlainError
                   ("API returned non-JSON response."
                    ++ (if truthy (res_text r) then " " ++ res_text r else "")))).
Proof.
  split; [|split].
  - apply tryApiFetch_world.
  - intros url method headers body r w Hans H204.
    now rewrite (tryApiFetch_no_content _ _ _ _ _ _ Hans H204).
  - intros url method headers body r w Hans Hok H204 Hct.
    now rewrite (tryApiFetch_not_json_type _ _ _ _ _ _ Hans Hok H204 Hct).
Qed.

Lemma tryApiFetch_outcomes_witness :
  let plain := mkResponse 200 (Some "text/plain") "[]" (Some (JArr [])) in
  let gone := mkResponse 204 None "ignored" (Some (JArr [groceries_json])) in
  fst (VariantA.tryApiFetch "http://api/notes" GET [] None
         (sample_world None (fun _ _ => Responded gone)))
  = Return JNull
  /\ fst (VariantA.tryApiFetch "http://api/notes" GET [] None
            (sample_world None (fun _ _ => Responded plain)))
     = Throw (mkError PlainError "API returned non-JSON response. []").
Proof.
  intros plain gone. destruct tryApiFetch_outcomes as (_ & H2 & H3). split.
  - apply (H2 _ _ _ _ gone); reflexivity.
  - apply (H3 _ _ _ _ plain); [reflexivity | reflexivity | discriminate | reflexivity].
Defined.

(** X13: [apiUpdateNote] sends PATCH first.  When that call returns, its
    value is the result and nothing else is sent; when it throws, for
    whatever reason, the same body is sent once more with PUT, and the
    outcome of that second call is the outcome of the update. *)
Theorem apiUpdateNote_patch_then_put :
  forall apiBase id_ patch w,
    match fst (VariantA.tryApiFetch
                 (apiBase ++ "/notes/" ++ encodeURIComponent id_) PATCH
                 VariantA.json_headers (Some (VariantA.draft_to_json patch)) w) with
    | Return v =>
        VariantA.apiUpdateNote apiBase id_ patch w
        = (Return v, log_request (patch_request apiBase id_ patch) w)
    | Throw _ =>
        VariantA.apiUpdateNote apiBase id_ patch w
        = VariantA.tryApiFetch
            (apiBase ++ "/notes/" ++ encodeURIComponent id_) PUT
            VariantA.json_headers (Some (VariantA.draft_to_json patch))
            (log_request (patch_request apiBase id_ patch) w)
        /\ net_log (snd (VariantA.apiUpdateNote apiBase id_ patch w))
           = (net_log w
              ++ [patch_request apiBase id_ patch; put_request apiBase id_ patch])%list
    end.
Proof.
  intros apiBase id_ patch w. unfold VariantA.apiUpdateNote, try_catch.
  pose proof (tryApiFetch_world
                (apiBase ++ "/notes/" ++ encodeURIComponent id_) PATCH
                VariantA.json_headers (Some (VariantA.draft_to_json patch)) w) as Hw.
  destruct (VariantA.tryApiFetch _ PATCH _ _ w) as [[v|e] w1]; simpl in Hw; subst w1.
  - reflexivity.
  - split; [reflexivity|].
    rewrite tryApiFetch_world. simpl. now rewrite <- app_assoc.
Qed.

(** ** Variant A: deleting *)

Section DeleteA.
Import VariantA.
Context {E : ArraySort}.

Lemma loadLocalNotes_logged r w existing w1 :
  loadLocalNotes w = (Return existing, w1) ->
  loadLocalNotes (log_request r w) = (Return existing, log_request r w1).
Proof. intros H. rewrite log_blind_loadLocalNotes. now rewrite H. Qed.

Lemma loadLocalNotes_net_log w existing w1 :
  loadLocalNotes w = (Return existing, w1) -> net_log w1 = net_log w.
Proof.
  intros H. destruct (loadLocalNotes_reads_only w) as [_ Hlog].
  now rewrite H in Hlog.
Qed.

(** Whatever the server does with the DELETE, a cache that can be read
    ends up without the notes of the given id. *)
Lemma deleteNote_any_remote apiBase id_ w existing w1 :
  loadLocalNotes w = (Return existing, w1) ->
  let kept := filter (fun n => negb (String.eqb (id n) id_)) existing in
  deleteNote apiBase id_ w
  = (Return tt,
     set_storage (encoded_A kept)
       (if truthy apiBase then log_request (delete_request apiBase id_) w1 else w1)).
Proof.
  intros Hl kept. unfold deleteNote.
  destruct (truthy apiBase) eqn:Hbase.
  - pose proof (tryApiFetch_world (apiBase ++ "/notes/" ++ encodeURIComponent id_)
                  DELETE [] None w) as Hw.
    pose proof (loadLocalNotes_logged (delete_request apiBase id_) w existing w1 Hl)
      as Hl'.
    destruct (tryApiFetch (apiBase ++ "/notes/" ++ encodeURIComponent id_)
                DELETE [] None w) as [[v|e] w0] eqn:Hdel; simpl in Hw; subst w0.
    + erewrite bind_Return
        by (apply attempt_Return;
            [ reflexivity
            | unfold apiDeleteNote; erewrite bind_Return by exact Hdel;
              erewrite bind_Return by exact Hl'; reflexivity ]).
      reflexivity.
    + erewrite bind_Return
        by (eapply attempt_Throw;
            [ reflexivity
            | unfold apiDeleteNote; erewrite bind_Throw by exact Hdel;
              reflexivity ]).
      cbv beta iota. erewrite bind_Return by exact Hl'. reflexivity.
  - erewrite bind_Return by reflexivity. cbv beta iota.
    erewrite bind_Return by exact Hl. reflexivity.
Qed.

End DeleteA.

(** X14: [deleteNote] of variant A does not depend on the server.  When the
    cache can be read, the delete returns whether the DELETE call succeeded,
    was refused or could not be sent; the cache then holds the notes read
    minus those with the given id, and the only request sent is that one
    DELETE, none at all without an API base. *)
Theorem deleteNote_succeeds_whatever_the_server_does :
  forall (E : VariantA.ArraySort) apiBase id_ w existing w1,
    VariantA.loadLocalNotes w = (Return existing, w1) ->
    exists w',
      VariantA.deleteNote apiBase id_ w = (Return tt, w')
      /\ storage w'
         = encoded_A
             (filter (fun n => negb (String.eqb (VariantA.id n) id_)) existing)
      /\ net_log w'
         = (net_log w
            ++ (if truthy apiBase then [delete_request apiBase id_] else []))%list.
Proof.
  intros E apiBase id_ w existing w1 Hl.
  eexists. split; [apply (deleteNote_any_remote apiBase id_ w existing w1 Hl)|].
  split; [reflexivity|].
  pose proof (loadLocalNotes_net_log w existing w1 Hl) as Hlog.
  destruct (truthy apiBase); simpl; rewrite Hlog; [reflexivity|].
  now rewrite app_nil_r.
Qed.

Lemma deleteNote_succeeds_whatever_the_server_does_witness :
  let w := sample_world (encoded_A [groceries_A; taxes_A])
             (server 404 "no such note" None) in
  exists w',
    VariantA.deleteNote (E := VariantA.v8) "http://api" "1" w = (Return tt, w')
    /\ storage w' = encoded_A [taxes_A]
    /\ net_log w' = [delete_request "http://api" "1"].
Proof.
  intros w.
  apply (deleteNote_succeeds_whatever_the_server_does VariantA.v8 "http://api" "1"
           w [taxes_A; groceries_A] w).
  reflexivity.
Defined.

(** X15: [handleDeleteConfirmed] of variant A, when the cache can be read:
    whatever the server does, the notes with the given id leave the notes
    shown and the cache, the message is cleared and the confirmation is
    closed. *)
Theorem handleDeleteConfirmed_removes_the_note :
  forall (E : VariantA.ArraySort) apiBase id_ s w existing w1,
    VariantA.loadLocalNotes w = (Return existing, w1) ->
    exists w',
      VariantA.handleDeleteConfirmed apiBase id_ s w
      = (VariantA.mkApp
           (filter (fun n => negb (String.eqb (VariantA.id n) id_))
              (VariantA.notes s))
           (VariantA.mkStatus false "") (VariantA.isEditorOpen s)
           (VariantA.editingId s) (VariantA.draft s) None,
         w')
      /\ storage w'
         = encoded_A
             (filter (fun n => negb (String.eqb (VariantA.id n) id_)) existing).
Proof.
  intros E apiBase id_ s w existing w1 Hl.
  unfold VariantA.handleDeleteConfirmed.
  rewrite (deleteNote_any_remote apiBase id_ w existing w1 Hl).
  eexists. split; reflexivity.
Qed.

Lemma handleDeleteConfirmed_removes_the_note_witness :
  let s := VariantA.mkApp [taxes_A; groceries_A] (VariantA.mkStatus false "")
             false None (mkDraft "" "") (Some "2") in
  let w := sample_world (encoded_A [groceries_A; taxes_A]) network_down in
  exists w',
    VariantA.handleDeleteConfirmed (E := VariantA.v8) "http://api" "2" s w
    = (VariantA.mkApp [groceries_A] (VariantA.mkStatus false "")
         false None (mkDraft "" "") None,
       w')
    /\ storage w' = encoded_A [groceries_A].
Proof.
  intros s w.
  apply (handleDeleteConfirmed_removes_the_note VariantA.v8 "http://api" "2" s
           w [taxes_A; groceries_A] w).
  reflexivity.
Defined.

(** X16: after a delete without an API base on an engine that orders by
    recency, the next listing shows exactly the notes that were in the cache
    and have another id. *)
Theorem listing_after_delete :
  forall (E : VariantA.ArraySort) id_ w existing w1,
    VariantA.sorts_by_recency E ->
    VariantA.loadLocalNotes w = (Return existing, w1) ->
    let w2 := snd (VariantA.deleteNote "" id_ w) in
    exists listed,
      VariantA.loadNotes "" w2 = (Return listed, w2)
      /\ (forall n, In n listed <-> In n existing /\ VariantA.id n <> id_).
Proof.
  intros E id_ w existing w1 Hsort Hl w2.
  set (kept := filter (fun n => negb (String.eqb (VariantA.id n) id_)) existing).
  assert (Hw2 : w2 = set_storage (encoded_A kept) w1).
  { unfold w2. now rewrite (deleteNote_local id_ w existing w1 Hl). }
  exists (VariantA.sort VariantA.by_recency kept). split.
  - change (VariantA.loadNotes "" w2) with (VariantA.loadLocalNotes w2).
    apply loadLocalNotes_written. now rewrite Hw2.
  - intros n. destruct (Hsort kept) as [Hperm _]. split.
    + intros Hin. apply (Permutation_in _ Hperm) in Hin.
      apply filter_In in Hin as [Hin Hid]. split; [exact Hin|].
      intros Heq. rewrite Heq, String.eqb_refl in Hid. discriminate.
    + intros [Hin Hid]. apply (Permutation_in _ (Permutation_sym Hperm)).
      apply filter_In. split; [exact Hin|].
      apply String.eqb_neq in Hid. now rewrite Hid.
Qed.

Lemma listing_after_delete_witness :
  let w := sample_world (encoded_A [groceries_A; taxes_A]) network_down in
  let w2 := snd (VariantA.deleteNote (E := VariantA.v8) "" "1" w) in
  exists listed,
    VariantA.loadNotes (E := VariantA.v8) "" w2 = (Return listed, w2)
    /\ (forall n, In n listed <->
                  In n [taxes_A; groceries_A] /\ VariantA.id n <> "1").
Proof.
  intros w w2.
  apply (listing_after_delete VariantA.v8 "1" w [taxes_A; groceries_A] w
           v8_sorts_by_recency).
  reflexivity.
Defined.

(** ** Variant A: updating and creating *)

Section UpdateA.
Import VariantA.
Context {E : ArraySort}.

(** [updateNote] once the API was not used or the block threw: the world
    [w0] is the one the block left, [w1] the one after the cache was read. *)
Lemma updateNote_locally apiBase id_ patch w w0 existing w1 :
  attempt (truthy apiBase)
    (updated <- apiUpdateNote apiBase id_ patch ;;
     normalized <- normalizeNote updated ;;
     existing <- loadLocalNotes ;;
     let next := replace_note id_ normalized existing in
     saveLocalNotes next ;;;
     ret normalized) w = (Return None, w0) ->
  loadLocalNotes w0 = (Return existing, w1) ->
  updateNote apiBase id_ patch w
  = match find (fun n => String.eqb (id n) id_) existing with
    | None => (Throw (mkError PlainError "Note not found."), w1)
    | Some found =>
        (Return (updated_locally found patch w1),
         set_storage
           (encoded_A (replace_note id_ (updated_locally found patch w1) existing))
           (tick w1))
    end.
Proof.
  intros Hattempt Hl. unfold updateNote.
  erewrite bind_Return by exact Hattempt. cbv beta iota.
  erewrite bind_Return by exact Hl.
  destruct (find (fun n => String.eqb (id n) id_) existing) as [found|];
    [|reflexivity].
  erewrite bind_Return by reflexivity.
  erewrite bind_Return by reflexivity.
  reflexivity.
Qed.

(** The block of [createNote] that talks to the API writes the cache only
    as its last step. *)
Lemma create_block_storage apiBase note w :
  match (created <- apiCreateNote apiBase note ;;
         normalized <- normalizeNote created ;;
         existing <- loadLocalNotes ;;
         let next :=
           normalized
           :: filter (fun n => negb (String.eqb (id n) (id normalized))) existing in
         saveLocalNotes next ;;;
         ret normalized) w with
  | (Return n, w') => exists rest, storage w' = encoded_A (n :: rest)
  | (Throw _, w') => storage w' = storage w
  end.
Proof.
  unfold bind.
  pose proof (tryApiFetch_world (apiBase ++ "/notes") POST json_headers
                (Some (draft_to_json note)) w) as Hw.
  unfold apiCreateNote.
  destruct (tryApiFetch (apiBase ++ "/notes") POST json_headers
              (Some (draft_to_json note)) w) as [[created|e] wa];
    simpl in Hw; subst wa; [|reflexivity].
  destruct (clock_only_normalizeNote created
              (log_request (mkRequest (apiBase ++ "/notes") POST json_headers
                              (Some (draft_to_json note))) w)) as [k Hk].
  destruct (normalizeNote created _) as [[n|e] wb]; simpl in Hk; subst wb;
    [|reflexivity].
  match goal with
  | |- context [loadLocalNotes ?x] =>
      destruct (clock_only_loadLocalNotes x) as [k' Hk'];
      destruct (loadLocalNotes x) as [[existing|e] wc]; simpl in Hk'; subst wc
  end; [|reflexivity].
  simpl. eexists. reflexivity.
Qed.

End UpdateA.

(** X17: [updateNote] of variant A without an API base, when the cache can
    be read.  When no cached note has the id it throws "Note not found." and
    the cache stays as it was.  Otherwise the first cached note with the id
    gives the result: its id and [createdAt], the title and content of the
    patch, [updatedAt] read from the clock; that note replaces every cached
    note with the id, in place. *)
Theorem updateNote_without_api_base :
  forall (E : VariantA.ArraySort) id_ patch w existing w1,
    VariantA.loadLocalNotes w = (Return existing, w1) ->
    storage w1 = storage w
    /\ match find (fun n => String.eqb (VariantA.id n) id_) existing with
       | None =>
           VariantA.updateNote "" id_ patch w
           = (Throw (mkError PlainError "Note not found."), w1)
       | Some found =>
           VariantA.updateNote "" id_ patch w
           = (Return (updated_locally found patch w1),
              set_storage
                (encoded_A
                   (VariantA.replace_note id_ (updated_locally found patch w1)
                      existing))
                (tick w1))
       end.
Proof.
  intros E id_ patch w existing w1 Hl. split.
  - destruct (loadLocalNotes_reads_only w) as [Hs _]. now rewrite Hl in Hs.
  - pose proof (updateNote_locally "" id_ patch w w existing w1 eq_refl Hl) as H.
    now destruct (find _ existing).
Qed.

Lemma updateNote_without_api_base_witness :
  let w := sample_world (encoded_A [groceries_A; taxes_A]) network_down in
  let edited := VariantA.mkNote "1" "Groceries" "milk, eggs"
                  "2024-05-01T10:00:00.000Z" "2024-04-01T08:00:00.000Z" in
  VariantA.updateNote (E := VariantA.v8) "" "1" (mkDraft "Groceries" "milk, eggs") w
  = (Return edited, set_storage (encoded_A [taxes_A; edited]) (tick w))
  /\ VariantA.updateNote (E := VariantA.v8) "" "9" (mkDraft "Groceries" "milk") w
     = (Throw (mkError PlainError "Note not found."), w).
Proof.
  intros w edited. split.
  - exact (proj2 (updateNote_without_api_base VariantA.v8 "1"
                    (mkDraft "Groceries" "milk, eggs") w [taxes_A; groceries_A] w
                    eq_refl)).
  - exact (proj2 (updateNote_without_api_base VariantA.v8 "9"
                    (mkDraft "Groceries" "milk") w [taxes_A; groceries_A] w
                    eq_refl)).
Defined.

(** X18: [handleSave] of variant A while a note is edited, without an API
    base, with a draft that passes the validation and a cache that can be
    read.  When the note is no longer in the cache the message "Note not
    found." is shown and the notes, the draft and the open editor stay as
    they are.  Otherwise the notes shown with the id of the updated note are
    replaced by it, in place, the editor is closed and the draft cleared. *)
Theorem handleSave_A_saves_an_edit :
  forall (E : VariantA.ArraySort) s editing w existing w1,
    VariantA.validateDraft (VariantA.draft s) = "" ->
    VariantA.editingId s = Some editing -> truthy editing = true ->
    VariantA.loadLocalNotes w = (Return existing, w1) ->
    match find (fun n => String.eqb (VariantA.id n) editing) existing with
    | None =>
        VariantA.handleSave "" s w
        = (VariantA.mkApp (VariantA.notes s)
             (VariantA.mkStatus false "Note not found.")
             (VariantA.isEditorOpen s) (VariantA.editingId s) (VariantA.draft s)
             (VariantA.confirmDeleteId s),
           w1)
    | Some found =>
        let updated := updated_locally found (VariantA.draft s) w1 in
        VariantA.handleSave "" s w
        = (VariantA.mkApp
             (VariantA.replace_note (VariantA.id found) updated (VariantA.notes s))
             (VariantA.mkStatus false "") false None (mkDraft "" "")
             (VariantA.confirmDeleteId s),
           set_storage
             (encoded_A (VariantA.replace_note editing updated existing))
             (tick w1))
    end.
Proof.
  intros E s editing w existing w1 Hv He Ht Hl.
  pose proof (updateNote_locally "" editing
                (mkDraft (draft_title (VariantA.draft s))
                   (draft_content (VariantA.draft s)))
                w w existing w1 eq_refl Hl) as Hu.
  unfold VariantA.handleSave. rewrite Hv, He, Ht. cbn [truthy String.eqb negb].
  unfold bind. rewrite Hu.
  now destruct (find _ existing).
Qed.

Lemma handleSave_A_saves_an_edit_witness :
  let s := VariantA.mkApp [taxes_A; groceries_A] (VariantA.mkStatus false "")
             true (Some "1") (mkDraft "Groceries" "milk, eggs") None in
  let w := sample_world (encoded_A [groceries_A; taxes_A]) network_down in
  let edited := VariantA.mkNote "1" "Groceries" "milk, eggs"
                  "2024-05-01T10:00:00.000Z" "2024-04-01T08:00:00.000Z" in
  VariantA.handleSave (E := VariantA.v8) "" s w
  = (VariantA.mkApp [taxes_A; edited] (VariantA.mkStatus false "") false None
       (mkDraft "" "") None,
     set_storage (encoded_A [taxes_A; edited]) (tick w)).
Proof.
  intros s w edited.
  exact (handleSave_A_saves_an_edit VariantA.v8 s "1" w [taxes_A; groceries_A] w
           eq_refl eq_refl eq_refl eq_refl).
Defined.

Section CreateA.
Import VariantA.
Context {E : ArraySort}.

(** [createNote] returns for every answer of the server when the cache
    holds note objects, and the note it returns is then the first note of
    the cache. *)
Lemma createNote_returns apiBase note w :
  holds_note_objects (storage w) ->
  exists n w' rest,
    createNote apiBase note w = (Return n, w')
    /\ storage w' = encoded_A (n :: rest).
Proof.
  intros Hcache.
  assert (Hlocal : forall w0,
             attempt (truthy apiBase)
               (created <- apiCreateNote apiBase note ;;
                normalized <- normalizeNote created ;;
                existing <- loadLocalNotes ;;
                let next :=
                  normalized
                  :: filter (fun n => negb (String.eqb (id n) (id normalized)))
                       existing in
                saveLocalNotes next ;;;
                ret normalized) w = (Return None, w0) ->
             storage w0 = storage w ->
             exists n w' rest,
               createNote apiBase note w = (Return n, w')
               /\ storage w' = encoded_A (n :: rest)).
  { intros w0 Hattempt Hs.
    destruct (loadLocalNotes_returns (tick (tick (tick (tick w0)))))
      as (existing & w' & Hl); [simpl; rewrite Hs; exact Hcache|].
    exists (local_record note w0), (set_storage
                                      (encoded_A (local_record note w0 :: existing))
                                      w'), existing.
    split; [|reflexivity].
    now apply createNote_locally. }
  destruct (truthy apiBase) eqn:Hbase; [|now apply (Hlocal w)].
  pose proof (create_block_storage apiBase note w) as Hblock.
  match type of Hblock with
  | match ?b w with _ => _ end => destruct (b w) as [[n|e] w0] eqn:Hrun
  end.
  - destruct Hblock as [rest Hrest]. exists n, w0, rest. split; [|exact Hrest].
    unfold createNote. rewrite Hbase.
    erewrite bind_Return by (apply attempt_Return; [reflexivity | exact Hrun]).
    reflexivity.
  - apply (Hlocal w0); [|exact Hblock].
    eapply attempt_Throw; [reflexivity | exact Hrun].
Qed.

(** The remote part of [loadNotes] writes the cache only as its last
    step. *)
Lemma list_block_storage apiBase w :
  match (apiNotes <- apiListNotes apiBase ;;
         normalized <- match apiNotes with
                       | JArr items => mapM normalizeNote items
                       | _ => ret []
                       end ;;
         saveLocalNotes normalized ;;;
         ret (sort by_recency normalized)) w with
  | (Return _, _) => True
  | (Throw _, w') => storage w' = storage w
  end.
Proof.
  unfold bind, apiListNotes.
  pose proof (tryApiFetch_world (apiBase ++ "/notes") GET [] None w) as Hw.
  destruct (tryApiFetch (apiBase ++ "/notes") GET [] None w) as [[answer|e] wa];
    simpl in Hw; subst wa; [|reflexivity].
  destruct answer as [| | | |items|]; try exact I.
  destruct (clock_only_mapM items
              (log_request (mkRequest (apiBase ++ "/notes") GET [] None) w))
    as [k Hk].
  destruct (mapM normalizeNote items _) as [[ns|e] wb]; simpl in Hk; subst wb;
    [exact I | reflexivity].
Qed.

Lemma loadNotes_returns apiBase w :
  holds_note_objects (storage w) ->
  exists ns w', loadNotes apiBase w = (Return ns, w').
Proof.
  intros Hcache. unfold loadNotes.
  destruct (truthy apiBase); [|now apply loadLocalNotes_returns].
  pose proof (list_block_storage apiBase w) as Hblock.
  match type of Hblock with
  | match ?b w with _ => _ end => destruct (b w) as [[ns|e] w0] eqn:Hrun
  end.
  - exists ns, w0. now apply try_catch_Return.
  - erewrite try_catch_Throw by exact Hrun.
    apply loadLocalNotes_returns. now rewrite Hblock.
Qed.

End CreateA.

(** X19: [createNote] of variant A returns a note whatever the server does
    (no API base, transport failure, refusal, a body that is not a note),
    provided the cache holds nothing, the empty text or an array of note
    objects; after the call the returned note is the first note of the
    cache. *)
Theorem createNote_returns_whatever_the_server_does :
  forall (E : VariantA.ArraySort) apiBase note w,
    holds_note_objects (storage w) ->
    exists n w' rest,
      VariantA.createNote apiBase note w = (Return n, w')
      /\ storage w' = encoded_A (n :: rest).
Proof. intros E apiBase note w H. now apply createNote_returns. Qed.

Lemma createNote_returns_whatever_the_server_does_witness :
  let w := sample_world (encoded_A [groceries_A])
             (server 500 "out of order" None) in
  exists n w' rest,
    VariantA.createNote (E := VariantA.v8) "http://api" (mkDraft "Rent" "due") w
    = (Return n, w')
    /\ storage w' = encoded_A (n :: rest).
Proof.
  intros w.
  apply (createNote_returns_whatever_the_server_does VariantA.v8 "http://api"
           (mkDraft "Rent" "due") w).
  reflexivity.
Defined.

(** X20: [handleSave] of variant A for a new note: with a draft that passes
    the validation and a cache that holds nothing, the empty text or an
    array of note objects, the save never ends in an error message, whatever
    the server does.  One note is put in front of the notes shown, the
    editor is closed and the draft cleared. *)
Theorem handleSave_A_new_note_never_fails :
  forall (E : VariantA.ArraySort) apiBase s w,
    VariantA.validateDraft (VariantA.draft s) = "" ->
    VariantA.editingId s = None ->
    holds_note_objects (storage w) ->
    exists n w',
      VariantA.handleSave apiBase s w
      = (VariantA.mkApp (n :: VariantA.notes s) (VariantA.mkStatus false "")
           false None (mkDraft "" "") (VariantA.confirmDeleteId s),
         w').
Proof.
  intros E apiBase s w Hv He Hcache.
  destruct (createNote_returns apiBase
              (mkDraft (draft_title (VariantA.draft s))
                 (draft_content (VariantA.draft s))) w Hcache)
    as (n & w' & rest & Hrun & _).
  exists n, w'. unfold VariantA.handleSave. rewrite Hv, He. cbn [truthy].
  unfold bind. now rewrite Hrun.
Qed.

Lemma handleSave_A_new_note_never_fails_witness :
  let s := VariantA.mkApp [groceries_A] (VariantA.mkStatus false "")
             true None (mkDraft "Rent" "due") None in
  let w := sample_world (encoded_A [groceries_A]) network_down in
  exists n w',
    VariantA.handleSave (E := VariantA.v8) "http://api" s w
    = (VariantA.mkApp [n; groceries_A] (VariantA.mkStatus false "")
         false None (mkDraft "" "") None,
       w').
Proof.
  intros s w.
  apply (handleSave_A_new_note_never_fails VariantA.v8 "http://api" s w);
    reflexivity.
Defined.

(** X21: the listing of variant A never fails when the cache holds nothing,
    the empty text or an array of note objects: whatever the server does,
    [loadNotes] returns notes, and [load] shows them with an empty error
    message. *)
Theorem load_A_never_shows_an_error :
  forall (E : VariantA.ArraySort) apiBase s w,
    holds_note_objects (storage w) ->
    exists ns w',
      VariantA.loadNotes apiBase w = (Return ns, w')
      /\ VariantA.load apiBase s w
         = (VariantA.mkApp ns (VariantA.mkStatus false "")
              (VariantA.isEditorOpen s) (VariantA.editingId s) (VariantA.draft s)
              (VariantA.confirmDeleteId s),
            w').
Proof.
  intros E apiBase s w Hcache.
  destruct (loadNotes_returns apiBase w Hcache) as (ns & w' & Hrun).
  exists ns, w'. split; [exact Hrun|].
  unfold VariantA.load. now rewrite Hrun.
Qed.

Lemma load_A_never_shows_an_error_witness :
  let s := VariantA.mkApp [] (VariantA.mkStatus true "") false None
             (mkDraft "" "") None in
  let w := sample_world (encoded_A [groceries_A; taxes_A])
             (server 200 "" (Some (JArr [JNull]))) in
  exists ns w',
    VariantA.loadNotes (E := VariantA.v8) "http://api" w = (Return ns, w')
    /\ VariantA.load (E := VariantA.v8) "http://api" s w
       = (VariantA.mkApp ns (VariantA.mkStatus false "") false None
            (mkDraft "" "") None,
          w').
Proof.
  intros s w.
  apply (load_A_never_shows_an_error VariantA.v8 "http://api" s w).
  reflexivity.
Defined.

(** X22: creating without an API base and listing afterwards, on an engine
    that orders by recency and a cache the adapter wrote: the create sends
    nothing and returns the local record, and the next listing shows that
    record together with the notes that were cached, no note before a more
    recent one. *)
Theorem listing_after_local_create :
  forall (E : VariantA.ArraySort) note w stored,
    VariantA.sorts_by_recency E ->
    storage w = encoded_A stored ->
    let w2 := snd (VariantA.createNote "" note w) in
    fst (VariantA.createNote "" note w) = Return (local_record note w)
    /\ net_log w2 = net_log w
    /\ exists listed,
         VariantA.loadNotes "" w2 = (Return listed, w2)
         /\ Permutation listed (local_record note w :: stored)
         /\ VariantA.most_recent_first listed.
Proof.
  intros E note w stored Hsort Hs w2.
  assert (Hrun : VariantA.createNote "" note w
                 = (Return (local_record note w),
                    set_storage
                      (encoded_A (local_record note w
                                  :: VariantA.sort VariantA.by_recency stored))
                      (tick (tick (tick (tick w)))))).
  { apply createNote_locally; [reflexivity|].
    now apply loadLocalNotes_written. }
  unfold w2. rewrite Hrun. cbn [fst snd].
  split; [reflexivity|]. split; [reflexivity|].
  set (written := local_record note w :: VariantA.sort VariantA.by_recency stored).
  exists (VariantA.sort VariantA.by_recency written).
  destruct (Hsort written) as [Hperm Hordered].
  destruct (Hsort stored) as [Hperm' _].
  split; [|split].
  - change (VariantA.loadNotes "" ?x) with (VariantA.loadLocalNotes x).
    now apply loadLocalNotes_written.
  - etransitivity; [exact Hperm|]. unfold written. now constructor.
  - exact Hordered.
Qed.

Lemma listing_after_local_create_witness :
  let w := sample_world (encoded_A [groceries_A; taxes_A]) network_down in
  let note := mkDraft "Rent" "due" in
  let w2 := snd (VariantA.createNote (E := VariantA.v8) "" note w) in
  fst (VariantA.createNote (E := VariantA.v8) "" note w)
  = Return (local_record note w)
  /\ net_log w2 = net_log w
  /\ exists listed,
       VariantA.loadNotes (E := VariantA.v8) "" w2 = (Return listed, w2)
       /\ Permutation listed (local_record note w :: [groceries_A; taxes_A])
       /\ VariantA.most_recent_first listed.
Proof.
  intros w note w2.
  apply (listing_after_local_create VariantA.v8 note w [groceries_A; taxes_A]
           v8_sorts_by_recency).
  reflexivity.
Defined.

(** ** Variant B: the page as a whole *)

Lemma App_config_unconfigured host prefix :
  VariantB.apiConfigured (VariantB.App_config host prefix) = false ->
  VariantB.notesUrl (VariantB.App_config host prefix) = "".
Proof.
  unfold VariantB.App_config. cbn [VariantB.apiConfigured VariantB.notesUrl].
  now intros ->.
Qed.

Lemma dispatch_B_unconfigured cfg ev s w :
  VariantB.notesUrl cfg = "" ->
  snd (dispatch_B cfg ev (s, w)) = w
  /\ (VariantB.app_notes (fst (dispatch_B cfg ev (s, w))) = VariantB.app_notes s
      \/ VariantB.app_notes (fst (dispatch_B cfg ev (s, w))) = cached_B w).
Proof.
  intros Hurl.
  destruct ev; cbn [dispatch_B fst snd]; try (split; [reflexivity | now left]).
  - (* ClickEdit *)
    unfold VariantB.openEdit. destruct (VariantB.apiConfigured cfg);
      (split; [reflexivity | now left]).
  - (* SubmitForm *)
    unfold VariantB.handleSave. rewrite Hurl.
    destruct (truthy (VariantB.validateDraft (VariantB.draft s)));
      [split; [reflexivity | now left]|].
    destruct (VariantB.is_editing (VariantB.editingId s));
      split; solve [reflexivity | now left].
  - (* LoadNotes *)
    unfold VariantB.load. rewrite Hurl, no_remote_listing.
    split; [reflexivity | now right].
Qed.

Lemma dispatch_B_keeps_create_mode cfg ev s w :
  VariantB.apiConfigured cfg = true ->
  VariantB.is_editing (VariantB.editingId s) = false ->
  VariantB.is_editing (VariantB.editingId (fst (dispatch_B cfg ev (s, w)))) = false.
Proof.
  intros Hcfg Hs.
  destruct ev; cbn [dispatch_B fst]; try exact Hs; try reflexivity.
  - (* ClickEdit *)
    unfold VariantB.openEdit. now rewrite Hcfg.
  - (* SubmitForm *)
    unfold VariantB.handleSave.
    destruct (truthy (VariantB.validateDraft (VariantB.draft s))); [exact Hs|].
    rewrite Hs.
    destruct (VariantB.createNoteViaApi _ _ w) as [[created|e] w'];
      [reflexivity | exact Hs].
  - (* LoadNotes *)
    unfold VariantB.load.
    destruct (VariantB.loadNotesFromApiOrFallback _ w) as [[loaded|e] w'];
      exact Hs.
Qed.

(** X23: variant B without a configured backend only reads.  Whatever the
    user does on the page (open, edit and close the editor, type, submit,
    ask for a delete and confirm it, reload), no request is sent and the
    cache is not written, and the notes shown are those shown before or
    those of the cache: nothing the user enters is ever kept. *)
Theorem variant_B_unconfigured_only_reads :
  forall host prefix evs s w,
    let cfg := VariantB.App_config host prefix in
    VariantB.apiConfigured cfg = false ->
    snd (events_B cfg evs (s, w)) = w
    /\ (VariantB.app_notes (fst (events_B cfg evs (s, w))) = VariantB.app_notes s
        \/ VariantB.app_notes (fst (events_B cfg evs (s, w))) = cached_B w).
Proof.
  intros host prefix evs s w cfg Hcfg.
  pose proof (App_config_unconfigured host prefix Hcfg) as Hurl.
  fold cfg in Hurl. clearbody cfg.
  assert (Hgen : forall evs s0,
             VariantB.app_notes s0 = VariantB.app_notes s
             \/ VariantB.app_notes s0 = cached_B w ->
             snd (events_B cfg evs (s0, w)) = w
             /\ (VariantB.app_notes (fst (events_B cfg evs (s0, w)))
                 = VariantB.app_notes s
                 \/ VariantB.app_notes (fst (events_B cfg evs (s0, w)))
                    = cached_B w)).
  { clear evs. induction evs as [|ev rest IH]; intros s0 Hs0.
    - split; [reflexivity | exact Hs0].
    - unfold events_B. cbn [fold_left].
      destruct (dispatch_B_unconfigured cfg ev s0 w Hurl) as [Hw Hn].
      destruct (dispatch_B cfg ev (s0, w)) as [s1 w1].
      cbn [fst snd] in Hw, Hn. subst w1.
      apply IH. destruct Hn as [Hn | Hn]; [|now right].
      rewrite Hn. exact Hs0. }
  apply Hgen. now left.
Qed.

Lemma variant_B_unconfigured_only_reads_witness :
  let cfg := VariantB.App_config (Some "http://api") None in
  let s := VariantB.mkApp [] (VariantB.mkStatus true "" false) false None
             (mkDraft "" "") None in
  let w := sample_world (encoded_B [groceries_B]) network_down in
  let evs := [LoadNotes; ClickNewNote; TypeTitle "Rent"; SubmitForm;
              ClickDelete groceries_B; ConfirmDelete] in
  snd (events_B cfg evs (s, w)) = w
  /\ (VariantB.app_notes (fst (events_B cfg evs (s, w))) = VariantB.app_notes s
      \/ VariantB.app_notes (fst (events_B cfg evs (s, w))) = cached_B w).
Proof.
  intros cfg s w evs.
  apply (variant_B_unconfigured_only_reads (Some "http://api") None evs s w).
  reflexivity.
Defined.

(** X24: variant B with a configured backend never enters edit mode.  From
    a state in which no note is being edited, whatever the user does and
    whatever the server answers, no note is being edited afterwards; the
    only thing a submit can then send is the creation of a note. *)
Theorem variant_B_configured_never_edits :
  forall cfg evs s w,
    VariantB.apiConfigured cfg = true ->
    VariantB.is_editing (VariantB.editingId s) = false ->
    VariantB.is_editing (VariantB.editingId (fst (events_B cfg evs (s, w))))
    = false.
Proof.
  intros cfg evs s w Hcfg. revert s w.
  induction evs as [|ev rest IH]; intros s w Hs; [exact Hs|].
  unfold events_B. cbn [fold_left].
  pose proof (dispatch_B_keeps_create_mode cfg ev s w Hcfg Hs) as Hstep.
  destruct (dispatch_B cfg ev (s, w)) as [s1 w1]. cbn [fst] in Hstep.
  now apply IH.
Qed.

Lemma variant_B_configured_never_edits_witness :
  let cfg := VariantB.App_config (Some "http://api/") (Some "v1") in
  let s := VariantB.mkApp [groceries_B] (VariantB.mkStatus false "" false)
             false None (mkDraft "" "") None in
  let w := sample_world (encoded_B [groceries_B]) network_down in
  VariantB.is_editing
    (VariantB.editingId
       (fst (events_B cfg [ClickEdit groceries_B; TypeTitle "Groceries!"; SubmitForm]
               (s, w))))
  = false.
Proof.
  intros cfg s w.
  apply (variant_B_configured_never_edits cfg
           [ClickEdit groceries_B; TypeTitle "Groceries!"; SubmitForm] s w);
    reflexivity.
Defined.

(** ** Relative dates *)

(** X25: [formatRelativeDate] for a date [diff] milliseconds before now.
    Under 30 seconds (dates in the future included) it says "just now"; from
    30 seconds on it counts minutes, the nearest number, from 1 to 59; from
    59 minutes 30 seconds on it counts hours, from 1 to 23; from 23 hours
    29 minutes 30 seconds on it counts days, at least 1.  The count is never
    0, and the hours shown are off by at most 30 minutes 30 seconds. *)
Theorem formatRelativeDate_ranges :
  forall now t : Z,
    let diff := (now - t)%Z in
    ((diff < 30000)%Z -> formatRelativeDate now (Some t) = "just now")
    /\ ((30000 <= diff < 3570000)%Z ->
        exists m,
          (1 <= m < 60)%Z
          /\ (60000 * m - 30000 <= diff < 60000 * m + 30000)%Z
          /\ formatRelativeDate now (Some t) = decimalZ m ++ "m ago")
    /\ ((3570000 <= diff < 84570000)%Z ->
        exists h,
          (1 <= h < 24)%Z
          /\ (3600000 * h - 1830000 <= diff < 3600000 * h + 1770000)%Z
          /\ formatRelativeDate now (Some t) = decimalZ h ++ "h ago")
    /\ ((84570000 <= diff)%Z ->
        exists d,
          (1 <= d)%Z
          /\ formatRelativeDate now (Some t) = decimalZ d ++ "d ago").
Proof.
  intros now t diff. unfold formatRelativeDate. fold diff.
  unfold Math_round_div. cbv zeta.
  set (min := ((2 * diff + 60000) / (2 * 60000))%Z).
  set (hr := ((2 * min + 60) / (2 * 60))%Z).
  set (days := ((2 * hr + 24) / (2 * 24))%Z).
  assert (Hmin : (120000 * min <= 2 * diff + 60000 < 120000 * min + 120000)%Z).
  { unfold min. pose proof (Z.div_mod (2 * diff + 60000) (2 * 60000)) as H.
    pose proof (Z.mod_pos_bound (2 * diff + 60000) (2 * 60000)) as H'. lia. }
  assert (Hhr : (120 * hr <= 2 * min + 60 < 120 * hr + 120)%Z).
  { unfold hr. pose proof (Z.div_mod (2 * min + 60) (2 * 60)) as H.
    pose proof (Z.mod_pos_bound (2 * min + 60) (2 * 60)) as H'. lia. }
  assert (Hdays : (48 * days <= 2 * hr + 24 < 48 * days + 48)%Z).
  { unfold days. pose proof (Z.div_mod (2 * hr + 24) (2 * 24)) as H.
    pose proof (Z.mod_pos_bound (2 * hr + 24) (2 * 24)) as H'. lia. }
  clearbody min hr days.
  repeat split.
  - intros H. destruct (Z.ltb_spec min 1); [reflexivity | lia].
  - intros H. exists min.
    destruct (Z.ltb_spec min 1); [lia|].
    destruct (Z.ltb_spec min 60); [|lia].
    repeat split; try lia.
  - intros H. exists hr.
    destruct (Z.ltb_spec min 1); [lia|].
    destruct (Z.ltb_spec min 60); [lia|].
    destruct (Z.ltb_spec hr 24); [|lia].
    repeat split; try lia.
  - intros H. exists days.
    destruct (Z.ltb_spec min 1); [lia|].
    destruct (Z.ltb_spec min 60); [lia|].
    destruct (Z.ltb_spec hr 24); [lia|].
    split; [lia | reflexivity].
Qed.

Lemma formatRelativeDate_ranges_witness :
  (exists m,
      (1 <= m < 60)%Z
      /\ (60000 * m - 30000 <= 1714557600000 - 1714557000000
          < 60000 * m + 30000)%Z
      /\ formatRelativeDate 1714557600000 (Some 1714557000000%Z)
         = decimalZ m ++ "m ago")
  /\ formatRelativeDate 1714557600000 (Some 1714557000000%Z) = "10m ago".
Proof.
  split; [|reflexivity].
  apply (proj1 (proj2 (formatRelativeDate_ranges 1714557600000 1714557000000))).
  lia.
Defined.
